(** * PromptCore: the dialogue state machine and its turn orchestrator

    A shallow embedding of [src/slots/schemas.py], [src/dialogue/fsm.py]
    and [src/dialogue/dialogue_manager.py], with the properties the
    specification states about them.

    Conventions of the embedding.
    - A Python [str] is a Rocq [string]; its characters are read as the
      code points 0..255.  [str.lower] and [str.strip] are written out
      for that range.
    - A Python [dict] whose iteration order is observed
      ([pending_normalization], the local [extracted_values], the mapping
      built by [get_slot_questions]) is an insertion-ordered association
      list with unique keys ([odict]); a dict that is only looked up by
      key ([slot_values], [slot_retry_counts]) is a [gmap].
    - Methods mutate [self.state_data]; they are computations in a
      state-and-exception monad over a [World] that holds the state data
      and the readings of [datetime.now()].  A raised exception keeps the
      mutations done before it, as in Python.
    - The three collaborators of the dialogue manager (intent router,
      slot selector, slot extractor) are the fields of the record
      [DialogueManager]. *)

From Stdlib Require Import String Ascii List ZArith Bool Lia.
From stdpp Require Import base option gmap strings list fin_maps.

Local Open Scope string_scope.
Local Open Scope Z_scope.

(** ** Python strings *)

Module PyStr.

(** [u.isspace()] for one code point below 256. *)
Definition is_space (c : ascii) : bool :=
  let n := nat_of_ascii c in
  ((9 <=? n) && (n <=? 13) || (28 <=? n) && (n <=? 32)
   || (n =? 133) || (n =? 160))%nat.

(** [c.lower()] for one code point below 256. *)
Definition lower_char (c : ascii) : ascii :=
  let n := nat_of_ascii c in
  if ((65 <=? n) && (n <=? 90)
      || (192 <=? n) && (n <=? 222) && negb (n =? 215))%nat
  then ascii_of_nat (n + 32) else c.

Fixpoint lower (s : string) : string :=
  match s with
  | EmptyString => EmptyString
  | String c r => String (lower_char c) (lower r)
  end.

Fixpoint lstrip (s : string) : string :=
  match s with
  | EmptyString => EmptyString
  | String c r => if is_space c then lstrip r else s
  end.

(** Drops the trailing white space: a character is kept when it is not
    a space or when something is kept after it. *)
Fixpoint rstrip (s : string) : string :=
  match s with
  | EmptyString => EmptyString
  | String c r =>
      match rstrip r with
      | EmptyString => if is_space c then EmptyString else String c EmptyString
      | r' => String c r'
      end
  end.

Definition strip (s : string) : string := rstrip (lstrip s).

(** [sub in s] *)
Fixpoint contains (sub s : string) : bool :=
  String.prefix sub s
  || match s with
     | EmptyString => false
     | String _ r => contains sub r
     end.

(** [s.replace(a, b)] for one-character [a] and [b]. *)
Fixpoint replace_char (a b : ascii) (s : string) : string :=
  match s with
  | EmptyString => EmptyString
  | String c r =>
      String (if Ascii.eqb c a then b else c) (replace_char a b r)
  end.

(** Truth value of a string: the empty string is false. *)
Definition truthy (s : string) : bool :=
  match s with EmptyString => false | _ => true end.

(** [x in xs] for a list of strings. *)
Definition mem (x : string) (xs : list string) : bool :=
  existsb (String.eqb x) xs.

End PyStr.

(** Truth value of an [Optional[str]]: [None] and [""] are false. *)
Definition opt_truthy (o : option string) : bool :=
  match o with
  | Some s => PyStr.truthy s
  | None => false
  end.

(** ** Insertion-ordered dictionaries *)

Module OD.

Definition odict (V : Type) : Type := list (string * V).

Fixpoint get {V} (k : string) (d : odict V) : option V :=
  match d with
  | [] => None
  | (k', v) :: r => if String.eqb k k' then Some v else get k r
  end.

(** [d[k] = v]: an existing key keeps its position. *)
Fixpoint set {V} (k : string) (v : V) (d : odict V) : odict V :=
  match d with
  | [] => [(k, v)]
  | (k', v') :: r =>
      if String.eqb k k' then (k, v) :: r else (k', v') :: set k v r
  end.

Definition keys {V} (d : odict V) : list string := map fst d.

Definition of_list {V} (l : list (string * V)) : odict V :=
  fold_left (fun d kv => set (fst kv) (snd kv) d) l [].

End OD.

(** ** [slots/schemas.py] *)

Record SlotSchema := mkSlotSchema {
  name : string;
  question : string;
  required : bool
}.

Record IntentSchema := mkIntentSchema {
  intent_name : string;
  slots : list SlotSchema
}.

Definition slot (n q : string) : SlotSchema := mkSlotSchema n q true.

Definition TASK_SCHEMAS : OD.odict IntentSchema :=
  [ ("request_time_off",
     mkIntentSchema "request_time_off"
       [ slot "employee_name" "What is your name?";
         slot "start_date" "When would you like to start your time off?";
         slot "end_date" "When would you like to return?";
         slot "time_off_type" "What type of time off is this? (e.g., vacation, sick, personal)";
         slot "reason" "What is the reason for this time off request?";
         slot "notify_manager" "Should we notify your manager? (yes/no)" ]);
    ("schedule_meeting",
     mkIntentSchema "schedule_meeting"
       [ slot "organizer_name" "Who is organizing this meeting?";
         slot "date" "What date should the meeting be scheduled?";
         slot "start_time" "What time should the meeting start?";
         slot "end_time" "What time should the meeting end?";
         slot "participants" "Who should attend this meeting?";
         slot "meeting_platform" "Which platform should be used? (e.g., Zoom, Teams, Google Meet)";
         slot "agenda" "What is the agenda for this meeting?" ]);
    ("submit_it_ticket",
     mkIntentSchema "submit_it_ticket"
       [ slot "requester_name" "What is your name?";
         slot "issue_category" "What category does this issue fall under? (e.g., hardware, software, network)";
         slot "issue_description" "Please describe the issue in detail.";
         slot "urgency" "What is the urgency level? (low, medium, high, critical)";
         slot "affected_system" "Which system is affected?";
         slot "contact_email" "What is your contact email?" ]);
    ("file_medical_claim",
     mkIntentSchema "file_medical_claim"
       [ slot "employee_name" "What is your name?";
         slot "incident_date" "When did the medical incident occur?";
         slot "provider_name" "What is the name of the healthcare provider?";
         slot "claim_amount" "What is the claim amount?";
         slot "claim_type" "What type of claim is this? (e.g., doctor visit, prescription, procedure)";
         slot "description" "Please describe the medical claim." ]) ].

(** ** Exceptions and results *)

Inductive PyExn :=
| ValueError (msg : string)
| KeyError (key : string).

Inductive result (A : Type) :=
| Ok (a : A)
| Raise (e : PyExn).
Arguments Ok {A} a.
Arguments Raise {A} e.

Definition get_schema (intent_name : string) : result IntentSchema :=
  match OD.get intent_name TASK_SCHEMAS with
  | Some sch => Ok sch
  | None => Raise (ValueError ("Unknown intent: " ++ intent_name))
  end.

Definition get_slot_names (intent_name : string) : result (list string) :=
  match get_schema intent_name with
  | Ok sch => Ok (map name (slots sch))
  | Raise e => Raise e
  end.

Definition get_slot_questions (intent_name : string)
  : result (OD.odict string) :=
  match get_schema intent_name with
  | Ok sch => Ok (OD.of_list (map (fun s => (name s, question s)) (slots sch)))
  | Raise e => Raise e
  end.

(** ** [dialogue/fsm.py]: the data *)

Inductive FSMState :=
| INIT
| COLLECTING_SLOT
| CONFIRMING_NORMALIZATION
| READY_TO_EXECUTE
| EXECUTING_ACTION
| COMPLETED
| GENERAL_CHAT
| TERMINATED.

#[global] Instance FSMState_eq_dec : EqDecision FSMState.
Proof. solve_decision. Defined.

(** [FSMState.X.value] *)
Definition FSMState_value (s : FSMState) : string :=
  match s with
  | INIT => "INIT"
  | COLLECTING_SLOT => "COLLECTING_SLOT"
  | CONFIRMING_NORMALIZATION => "CONFIRMING_NORMALIZATION"
  | READY_TO_EXECUTE => "READY_TO_EXECUTE"
  | EXECUTING_ACTION => "EXECUTING_ACTION"
  | COMPLETED => "COMPLETED"
  | GENERAL_CHAT => "GENERAL_CHAT"
  | TERMINATED => "TERMINATED"
  end.

Definition FSMState_members : list FSMState :=
  [INIT; COLLECTING_SLOT; CONFIRMING_NORMALIZATION; READY_TO_EXECUTE;
   EXECUTING_ACTION; COMPLETED; GENERAL_CHAT; TERMINATED].

(** [FSMState(v)]: look a member up by value; [ValueError] when there is
    none. *)
Definition FSMState_of_value (v : string) : result FSMState :=
  match find (fun s => String.eqb (FSMState_value s) v) FSMState_members with
  | Some s => Ok s
  | None => Raise (ValueError (v ++ " is not a valid FSMState"))
  end.

(** A reading of [datetime.now()]; its unit is left open. *)
Definition datetime : Type := Z.

Record SlotValue := mkSlotValue {
  value : string;
  confirmed : bool;
  retry_count : Z;
  normalized_value : option string;
  needs_confirmation : bool
}.

Record FSMStateData := mkFSMStateData {
  current_state : FSMState;
  active_intent : option string;
  queued_intents : list string;
  slot_values : gmap string SlotValue;
  current_slot_being_collected : option string;
  slot_retry_counts : gmap string Z;
  conversation_id : option string;
  created_at : datetime;
  updated_at : datetime;
  pending_normalization : option (OD.odict string)
}.

(** Attribute assignments [self.state_data.f = v]. *)
Definition set_current_state (v : FSMState) (d : FSMStateData) :=
  mkFSMStateData v (active_intent d) (queued_intents d) (slot_values d)
    (current_slot_being_collected d) (slot_retry_counts d) (conversation_id d)
    (created_at d) (updated_at d) (pending_normalization d).
Definition set_active_intent_field (v : option string) (d : FSMStateData) :=
  mkFSMStateData (current_state d) v (queued_intents d) (slot_values d)
    (current_slot_being_collected d) (slot_retry_counts d) (conversation_id d)
    (created_at d) (updated_at d) (pending_normalization d).
Definition set_queued_intents (v : list string) (d : FSMStateData) :=
  mkFSMStateData (current_state d) (active_intent d) v (slot_values d)
    (current_slot_being_collected d) (slot_retry_counts d) (conversation_id d)
    (created_at d) (updated_at d) (pending_normalization d).
Definition set_slot_values (v : gmap string SlotValue) (d : FSMStateData) :=
  mkFSMStateData (current_state d) (active_intent d) (queued_intents d) v
    (current_slot_being_collected d) (slot_retry_counts d) (conversation_id d)
    (created_at d) (updated_at d) (pending_normalization d).
Definition set_current_slot_field (v : option string) (d : FSMStateData) :=
  mkFSMStateData (current_state d) (active_intent d) (queued_intents d)
    (slot_values d) v (slot_retry_counts d) (conversation_id d)
    (created_at d) (updated_at d) (pending_normalization d).
Definition set_slot_retry_counts (v : gmap string Z) (d : FSMStateData) :=
  mkFSMStateData (current_state d) (active_intent d) (queued_intents d)
    (slot_values d) (current_slot_being_collected d) v (conversation_id d)
    (created_at d) (updated_at d) (pending_normalization d).
Definition set_conversation_id (v : option string) (d : FSMStateData) :=
  mkFSMStateData (current_state d) (active_intent d) (queued_intents d)
    (slot_values d) (current_slot_being_collected d) (slot_retry_counts d) v
    (created_at d) (updated_at d) (pending_normalization d).
Definition set_updated_at (v : datetime) (d : FSMStateData) :=
  mkFSMStateData (current_state d) (active_intent d) (queued_intents d)
    (slot_values d) (current_slot_being_collected d) (slot_retry_counts d)
    (conversation_id d) (created_at d) v (pending_normalization d).
Definition set_pending_normalization_field
    (v : option (OD.odict string)) (d : FSMStateData) :=
  mkFSMStateData (current_state d) (active_intent d) (queued_intents d)
    (slot_values d) (current_slot_being_collected d) (slot_retry_counts d)
    (conversation_id d) (created_at d) (updated_at d) v.

(** Attribute assignments on one slot record. *)
Definition set_confirmed (b : bool) (r : SlotValue) :=
  mkSlotValue (value r) b (retry_count r) (normalized_value r)
    (needs_confirmation r).
Definition set_retry_count (n : Z) (r : SlotValue) :=
  mkSlotValue (value r) (confirmed r) n (normalized_value r)
    (needs_confirmation r).
Definition set_normalized_value (v : option string) (r : SlotValue) :=
  mkSlotValue (value r) (confirmed r) (retry_count r) v (needs_confirmation r).
Definition set_needs_confirmation (b : bool) (r : SlotValue) :=
  mkSlotValue (value r) (confirmed r) (retry_count r) (normalized_value r) b.

(** ** The world and its monad *)

(** The state data of the one FSM of a conversation, and the clock:
    [wall_clock n] is what the [n]-th call of [datetime.now()] returns. *)
Record World := mkWorld {
  state_data : FSMStateData;
  wall_clock : nat -> datetime;
  clock_reads : nat
}.

Definition M (A : Type) : Type := World -> result A * World.

Definition ret {A} (a : A) : M A := fun w => (Ok a, w).

Definition raise {A} (e : PyExn) : M A := fun w => (Raise e, w).

Definition bind {A B} (c : M A) (k : A -> M B) : M B :=
  fun w =>
    match c w with
    | (Ok a, w') => k a w'
    | (Raise e, w') => (Raise e, w')
    end.

Notation "'let*' x ':=' c 'in' k" := (bind c (fun x => k))
  (at level 10, x name, c at level 100, k at level 200, only parsing).
Notation "c1 ';;;' c2" := (bind c1 (fun _ => c2))
  (at level 100, c2 at level 200, right associativity, only parsing).

Definition lift {A} (r : result A) : M A := fun w => (r, w).

(** Read [self.state_data]. *)
Definition get_data : M FSMStateData := fun w => (Ok (state_data w), w).

(** Mutate [self.state_data]. *)
Definition modify (f : FSMStateData -> FSMStateData) : M unit :=
  fun w => (Ok tt, mkWorld (f (state_data w)) (wall_clock w) (clock_reads w)).

Definition datetime_now : M datetime :=
  fun w => (Ok (wall_clock w (clock_reads w)),
            mkWorld (state_data w) (wall_clock w) (S (clock_reads w))).

(** [self.state_data.updated_at = datetime.now()] *)
Definition touch : M unit :=
  let* t := datetime_now in modify (set_updated_at t).

Definition when (b : bool) (c : M unit) : M unit := if b then c else ret tt.

(** The result and the state data a computation ends with. *)
Definition outcome {A} (c : M A) (w : World) : result A := fst (c w).
Definition after {A} (c : M A) (w : World) : World := snd (c w).
Definition data_after {A} (c : M A) (w : World) : FSMStateData :=
  state_data (after c w).

(** ** [dialogue/fsm.py]: the methods *)

Definition MAX_RETRIES : Z := 3.

(** [FSM(conversation_id)] at clock readings [t0] (for [created_at]) and
    [t1] (for [updated_at]), the two default factories of the
    dataclass. *)
Definition FSM_init (conversation_id : option string) (t0 t1 : datetime)
  : FSMStateData :=
  mkFSMStateData INIT None [] ∅ None ∅ conversation_id t0 t1 None.

Definition get_state : M FSMState :=
  let* d := get_data in ret (current_state d).

Definition get_active_intent : M (option string) :=
  let* d := get_data in ret (active_intent d).

Definition get_queued_intents : M (list string) :=
  let* d := get_data in ret (queued_intents d).

Definition filled_of (m : gmap string SlotValue) : gmap string string :=
  omap (fun r => if confirmed r then Some (value r) else None) m.

Definition get_filled_slots : M (gmap string string) :=
  let* d := get_data in ret (filled_of (slot_values d)).

Definition has_key {V} (k : string) (m : gmap string V) : bool :=
  match m !! k with Some _ => true | None => false end.

Definition get_missing_slots (intent_name : string) : M (list string) :=
  if negb (PyStr.truthy intent_name) then ret []
  else
    let* required_slots := lift (get_slot_names intent_name) in
    let* d := get_data in
    ret (List.filter (fun s => negb (has_key s (slot_values d)))
           required_slots).

Definition get_next_missing_slot (intent_name : string) : M (option string) :=
  let* missing := get_missing_slots intent_name in
  match missing with
  | [] => ret None
  | s :: _ => ret (Some s)
  end.

Definition transition_to (new_state : FSMState) : M unit :=
  modify (set_current_state new_state);;;
  touch.

Definition in_task_flow (s : FSMState) : bool :=
  match s with
  | COLLECTING_SLOT | CONFIRMING_NORMALIZATION
  | READY_TO_EXECUTE | EXECUTING_ACTION => true
  | _ => false
  end.

Definition set_active_intent (intent_name : string) : M bool :=
  let* d := get_data in
  if in_task_flow (current_state d) then
    when (negb (PyStr.mem intent_name (queued_intents d)))
         (modify (set_queued_intents (queued_intents d ++ [intent_name])));;;
    ret false
  else
    modify (set_active_intent_field (Some intent_name));;;
    modify (set_slot_values ∅);;;
    modify (set_slot_retry_counts ∅);;;
    modify (set_current_slot_field None);;;
    modify (set_pending_normalization_field None);;;
    transition_to COLLECTING_SLOT;;;
    ret true.

Definition set_general_chat : M unit :=
  modify (set_active_intent_field None);;;
  transition_to GENERAL_CHAT.

Definition fill_slot (slot_name value : string) (confirmed_arg : bool)
  : M bool :=
  let* d := get_data in
  let already_confirmed :=
    match slot_values d !! slot_name with
    | Some existing => confirmed existing
    | None => false
    end in
  if already_confirmed then ret false
  else
    modify (set_slot_values
              (<[slot_name :=
                   mkSlotValue value confirmed_arg
                     (default 0 (slot_retry_counts d !! slot_name))
                     None false]> (slot_values d)));;;
    touch;;;
    ret true.

(** [self.state_data.slot_values[slot_name].f = v] for a key known to be
    present; [alter] leaves the map alone when it is not. *)
Definition update_slot (slot_name : string) (f : SlotValue -> SlotValue)
  : M unit :=
  let* d := get_data in
  modify (set_slot_values (alter f slot_name (slot_values d))).

Definition confirm_slot (slot_name : string) : M bool :=
  let* d := get_data in
  if negb (has_key slot_name (slot_values d)) then ret false
  else
    update_slot slot_name (set_confirmed true);;;
    update_slot slot_name (set_needs_confirmation false);;;
    modify (set_pending_normalization_field None);;;
    touch;;;
    ret true.

Definition reject_normalization (slot_name : string) : M unit :=
  let* d := get_data in
  when (has_key slot_name (slot_values d))
       (update_slot slot_name (set_normalized_value None);;;
        update_slot slot_name (set_needs_confirmation false));;;
  modify (set_pending_normalization_field None);;;
  touch.

Definition increment_retry (slot_name : string) : M bool :=
  let* d := get_data in
  let current_retries := default 0 (slot_retry_counts d !! slot_name) + 1 in
  modify (set_slot_retry_counts
            (<[slot_name := current_retries]> (slot_retry_counts d)));;;
  when (has_key slot_name (slot_values d))
       (update_slot slot_name (set_retry_count current_retries));;;
  touch;;;
  ret (current_retries <? MAX_RETRIES).

Definition set_current_slot (slot_name : option string) : M unit :=
  modify (set_current_slot_field slot_name);;;
  touch.

Definition set_pending_normalization (slot_name proposed_value : string)
  : M unit :=
  let* d := get_data in
  when (match pending_normalization d with None => true | Some _ => false end)
       (modify (set_pending_normalization_field (Some [])));;;
  let* d := get_data in
  modify (set_pending_normalization_field
            (option_map (OD.set slot_name proposed_value)
                        (pending_normalization d)));;;
  when (has_key slot_name (slot_values d))
       (update_slot slot_name (set_normalized_value (Some proposed_value));;;
        update_slot slot_name (set_needs_confirmation true));;;
  touch.

(** The loop of [check_all_slots_filled] over the required slots. *)
Definition all_confirmed (m : gmap string SlotValue) (required : list string)
  : bool :=
  forallb (fun s => match m !! s with
                    | Some r => confirmed r
                    | None => false
                    end) required.

Definition check_all_slots_filled (intent_name : string) : M bool :=
  if negb (PyStr.truthy intent_name) then ret false
  else
    let* required_slots := lift (get_slot_names intent_name) in
    let* d := get_data in
    ret (all_confirmed (slot_values d) required_slots).

(** The dictionary [process_slot_collection] returns. *)
Inductive CollectionResult :=
| act_retry (slot : string)
| act_max_retries (slot : string)
| act_fill (slot value : string).

Definition process_slot_collection (slot_name : string)
    (extracted_value : option string) : M CollectionResult :=
  if negb (opt_truthy extracted_value) then
    let* can_retry := increment_retry slot_name in
    if can_retry then ret (act_retry slot_name)
    else ret (act_max_retries slot_name)
  else
    let v := default "" extracted_value in
    fill_slot slot_name v false;;;
    ret (act_fill slot_name v).

(** Truth value of [pending_normalization]: [None] and [{}] are false. *)
Definition pending_truthy (p : option (OD.odict string)) : bool :=
  match p with
  | Some (_ :: _) => true
  | _ => false
  end.

Definition list_truthy {A} (l : list A) : bool :=
  match l with [] => false | _ => true end.

Definition advance_state : M unit :=
  let* d := get_data in
  match current_state d with
  | INIT => ret tt
  | COLLECTING_SLOT =>
      match active_intent d with
      | Some intent =>
          if PyStr.truthy intent then
            let* filled := check_all_slots_filled intent in
            if filled then transition_to READY_TO_EXECUTE
            else when (pending_truthy (pending_normalization d))
                      (transition_to CONFIRMING_NORMALIZATION)
          else ret tt
      | None => ret tt
      end
  | CONFIRMING_NORMALIZATION =>
      match active_intent d with
      | Some intent =>
          if PyStr.truthy intent then
            let* filled := check_all_slots_filled intent in
            if filled then transition_to READY_TO_EXECUTE
            else transition_to COLLECTING_SLOT
          else ret tt
      | None => ret tt
      end
  | READY_TO_EXECUTE => ret tt
  | EXECUTING_ACTION => transition_to COMPLETED
  | COMPLETED =>
      match queued_intents d with
      | next_intent :: rest =>
          modify (set_queued_intents rest);;;
          set_active_intent next_intent;;;
          ret tt
      | [] =>
          transition_to INIT;;;
          modify (set_active_intent_field None)
      end
  | GENERAL_CHAT => ret tt
  | TERMINATED => ret tt
  end.

Definition start_action_execution : M unit :=
  let* d := get_data in
  when (bool_decide (current_state d = READY_TO_EXECUTE))
       (transition_to EXECUTING_ACTION).

Definition complete_action : M unit :=
  transition_to COMPLETED;;;
  advance_state.

Definition terminate : M unit := transition_to TERMINATED.

(** *** Snapshots *)

(** A dictionary read with [d[k]] or [d.get(k, default)] has its keys as
    optional fields: [None] is an absent key.  The ISO-8601 text of
    [updated_at] is represented by the reading it denotes. *)
Record SlotData := mkSlotData {
  sd_value : option string;
  sd_confirmed : option bool;
  sd_retry_count : option Z;
  sd_normalized_value : option string;
  sd_needs_confirmation : option bool
}.

Record Snapshot := mkSnapshot {
  snap_current_state : option string;
  snap_active_intent : option string;
  snap_queued_intents : option (list string);
  snap_slot_values : option (OD.odict SlotData);
  snap_current_slot_being_collected : option string;
  snap_slot_retry_counts : option (gmap string Z);
  snap_conversation_id : option string;
  snap_pending_normalization : option (OD.odict string);
  snap_updated_at : option datetime
}.

Definition slot_to_data (r : SlotValue) : SlotData :=
  mkSlotData (Some (value r)) (Some (confirmed r)) (Some (retry_count r))
    (normalized_value r) (Some (needs_confirmation r)).

Definition get_state_snapshot : M Snapshot :=
  let* d := get_data in
  ret (mkSnapshot
         (Some (FSMState_value (current_state d)))
         (active_intent d)
         (Some (queued_intents d))
         (Some (map (fun kv => (fst kv, slot_to_data (snd kv)))
                    (map_to_list (slot_values d))))
         (current_slot_being_collected d)
         (Some (slot_retry_counts d))
         (conversation_id d)
         (if pending_truthy (pending_normalization d)
          then pending_normalization d else None)
         (Some (updated_at d))).

(** [d[k]] on a dictionary whose key may be absent. *)
Definition subscript {A} (k : string) (o : option A) : result A :=
  match o with
  | Some a => Ok a
  | None => Raise (KeyError k)
  end.

Definition data_to_slot (sd : SlotData) : result SlotValue :=
  match subscript "value" (sd_value sd) with
  | Raise e => Raise e
  | Ok v =>
      match subscript "confirmed" (sd_confirmed sd) with
      | Raise e => Raise e
      | Ok c =>
          Ok (mkSlotValue v c (default 0 (sd_retry_count sd))
                (sd_normalized_value sd)
                (default false (sd_needs_confirmation sd)))
      end
  end.

(** The dictionary comprehension that restores the slot records, in the
    order of the snapshot's items. *)
Fixpoint restore_slots (items : OD.odict SlotData)
    (acc : gmap string SlotValue) : result (gmap string SlotValue) :=
  match items with
  | [] => Ok acc
  | (k, sd) :: rest =>
      match data_to_slot sd with
      | Ok r => restore_slots rest (<[k := r]> acc)
      | Raise e => Raise e
      end
  end.

(** The snapshot is read as a value.  The code stores the snapshot's own
    [queued_intents] list and its [slot_retry_counts] and
    [pending_normalization] dictionaries (lines 338-342), which later
    calls change in place; the embedding agrees with the code for a
    snapshot object that is loaded once and not used again after the
    load. *)
Definition load_state_snapshot (snapshot : Snapshot) : M unit :=
  let* v := lift (subscript "current_state" (snap_current_state snapshot)) in
  let* st := lift (FSMState_of_value v) in
  modify (set_current_state st);;;
  modify (set_active_intent_field (snap_active_intent snapshot));;;
  modify (set_queued_intents (default [] (snap_queued_intents snapshot)));;;
  modify (set_current_slot_field
            (snap_current_slot_being_collected snapshot));;;
  modify (set_slot_retry_counts
            (default ∅ (snap_slot_retry_counts snapshot)));;;
  modify (set_conversation_id (snap_conversation_id snapshot));;;
  modify (set_pending_normalization_field
            (snap_pending_normalization snapshot));;;
  let* restored :=
    lift (restore_slots (default [] (snap_slot_values snapshot)) ∅) in
  modify (set_slot_values restored);;;
  match snap_updated_at snapshot with
  | Some t => modify (set_updated_at t)
  | None => ret tt
  end.

(** ** [dialogue/dialogue_manager.py] *)

(** Values found in the [metadata] of a turn result. *)
Inductive PyVal :=
| VNone
| VStr (s : string)
| VDict (d : gmap string string).

Definition VOpt (o : option string) : PyVal :=
  match o with Some s => VStr s | None => VNone end.

Record TurnResult := mkTurnResult {
  response_text : string;
  action : string;
  metadata : list (string * PyVal)
}.

(** The collaborators a dialogue manager is built with, each reduced to
    the one method the manager calls; they may raise. *)
Record DialogueManager := mkDialogueManager {
  detect_intent : string -> result (option string);
  select_slots : string -> string -> gmap string string -> result (list string);
  extract_slot_value : string -> string -> string -> result (option string)
}.

Definition ready_to_execute_result : TurnResult :=
  mkTurnResult "I have all the information I need. Ready to proceed?"
    "ready_to_execute" [].

Definition ready_after_skip_result : TurnResult :=
  mkTurnResult "I have the information I need. Ready to proceed?"
    "ready_to_execute" [].

Definition error_result : TurnResult :=
  mkTurnResult "Error: No active intent." "error" [].

(** [slot_questions[k]] *)
Definition question_of (intent_name k : string) : M string :=
  let* slot_questions := lift (get_slot_questions intent_name) in
  match OD.get k slot_questions with
  | Some q => ret q
  | None => raise (KeyError k)
  end.

Definition _start_slot_collection : M TurnResult :=
  let* intent := get_active_intent in
  if negb (opt_truthy intent) then ret error_result
  else
    let intent_name := default "" intent in
    let* next_slot := get_next_missing_slot intent_name in
    if negb (opt_truthy next_slot) then
      advance_state;;;
      ret ready_to_execute_result
    else
      let next := default "" next_slot in
      set_current_slot next_slot;;;
      let* question := question_of intent_name next in
      ret (mkTurnResult question "ask_slot"
             [("slot", VStr next); ("intent", VStr intent_name);
              ("question", VStr question)]).

(** The block written three times in [_handle_slot_collection] (lines
    213-226, 277-289 and 300-310): after the fills, advance the state and
    answer [ready_to_execute] or ask for the next slot. *)
Definition advance_and_continue (intent_name : string) : M TurnResult :=
  advance_state;;;
  let* filled := check_all_slots_filled intent_name in
  if filled then ret ready_to_execute_result
  else _start_slot_collection.

Definition fill_and_confirm (slot_name value : string) : M unit :=
  fill_slot slot_name value false;;;
  confirm_slot slot_name;;;
  ret tt.

(** The block written twice in [_handle_slot_collection] (lines 231-254
    and 314-335): count a failed attempt for the current slot. *)
Definition retry_current_slot (intent_name current_slot : string)
  : M TurnResult :=
  let* retry_result := process_slot_collection current_slot None in
  match retry_result with
  | act_max_retries _ =>
      set_current_slot None;;;
      let* next_slot := get_next_missing_slot intent_name in
      if opt_truthy next_slot then _start_slot_collection
      else ret ready_after_skip_result
  | _ =>
      let* question := question_of intent_name current_slot in
      ret (mkTurnResult ("Could you please clarify: " ++ question)
             "retry_slot"
             [("slot", VStr current_slot); ("question", VStr question)])
  end.

(** The loop that fills [extracted_values] from the selected slots. *)
Fixpoint extract_selected (self : DialogueManager)
    (user_utterance intent_name : string) (filled_slots : gmap string string)
    (selected_slots : list string) (extracted_values : OD.odict string)
  : M (OD.odict string) :=
  match selected_slots with
  | [] => ret extracted_values
  | slot_name :: rest =>
      if negb (has_key slot_name filled_slots) then
        let* value :=
          lift (extract_slot_value self user_utterance slot_name intent_name) in
        extract_selected self user_utterance intent_name filled_slots rest
          (if opt_truthy value
           then OD.set slot_name (default "" value) extracted_values
           else extracted_values)
      else
        extract_selected self user_utterance intent_name filled_slots rest
          extracted_values
  end.

(** The loop over [extracted_values.items()]. *)
Fixpoint fill_extracted (items : OD.odict string) : M unit :=
  match items with
  | [] => ret tt
  | (slot_name, value) :: rest =>
      fill_and_confirm slot_name value;;;
      fill_extracted rest
  end.

Definition processing_result : TurnResult :=
  mkTurnResult "Processing..." "processing" [].

Definition _handle_slot_collection (self : DialogueManager)
    (user_utterance : string) : M TurnResult :=
  let* intent := get_active_intent in
  if negb (opt_truthy intent) then ret error_result
  else
    let intent_name := default "" intent in
    let* d := get_data in
    let* current_slot :=
      (if negb (opt_truthy (current_slot_being_collected d)) then
         let* s := get_next_missing_slot intent_name in
         set_current_slot s;;;
         ret s
       else ret (current_slot_being_collected d)) in
    let cur := default "" current_slot in
    let* filled_slots := get_filled_slots in
    let* selected_slots :=
      lift (select_slots self user_utterance intent_name filled_slots) in
    (* the direct extraction for the current slot, lines 204-226 *)
    let* direct :=
      (if negb (list_truthy selected_slots) && opt_truthy current_slot then
         lift (extract_slot_value self user_utterance cur intent_name)
       else ret None) in
    if opt_truthy direct then
      fill_and_confirm cur (default "" direct);;;
      advance_and_continue intent_name
    else if negb (list_truthy selected_slots) && opt_truthy current_slot then
      retry_current_slot intent_name cur
    else
      let* extracted_values :=
        extract_selected self user_utterance intent_name filled_slots
          selected_slots [] in
      if list_truthy extracted_values then
        fill_extracted extracted_values;;;
        advance_and_continue intent_name
      else
        (* the fallback extraction for the current slot, lines 292-310 *)
        let* fallback :=
          (if opt_truthy current_slot && negb (PyStr.mem cur selected_slots)
           then lift (extract_slot_value self user_utterance cur intent_name)
           else ret None) in
        if opt_truthy fallback then
          fill_and_confirm cur (default "" fallback);;;
          advance_and_continue intent_name
        else if opt_truthy current_slot then
          retry_current_slot intent_name cur
        else ret processing_result.

Definition affirmative : list string :=
  ["yes"; "yeah"; "yep"; "sure"; "ok"; "okay"; "confirm"; "correct"].

Definition negative : list string :=
  ["no"; "nope"; "nah"; "incorrect"; "wrong"].

(** [for slot_name in list(pending.keys()): f(slot_name)] *)
Fixpoint for_each (keys : list string) (f : string -> M unit) : M unit :=
  match keys with
  | [] => ret tt
  | k :: rest => f k;;; for_each rest f
  end.

Definition pending_keys (p : option (OD.odict string)) : list string :=
  match p with
  | Some d => OD.keys d
  | None => []
  end.

Definition _handle_normalization_confirmation (user_utterance : string)
  : M TurnResult :=
  let utterance_lower := PyStr.strip (PyStr.lower user_utterance) in
  if PyStr.mem utterance_lower affirmative then
    let* d := get_data in
    when (pending_truthy (pending_normalization d))
         (for_each (pending_keys (pending_normalization d))
                   (fun slot_name => confirm_slot slot_name;;; ret tt));;;
    advance_state;;;
    _start_slot_collection
  else if PyStr.mem utterance_lower negative then
    let* d := get_data in
    when (pending_truthy (pending_normalization d))
         (for_each (pending_keys (pending_normalization d))
                   reject_normalization);;;
    advance_state;;;
    _start_slot_collection
  else
    let* d := get_data in
    match pending_normalization d with
    | Some ((slot_name, proposed_value) :: _) =>
        ret (mkTurnResult
               ("I proposed: " ++ proposed_value
                ++ ". Is this correct? (yes/no)")
               "confirm_normalization"
               [("slot", VStr slot_name);
                ("proposed_value", VStr proposed_value)])
    | _ =>
        ret (mkTurnResult "Please confirm: yes or no?"
               "confirm_normalization" [])
    end.

Definition confirmations : list string :=
  ["yes"; "yeah"; "yep"; "sure"; "ok"; "okay"; "proceed"; "go ahead";
   "execute"; "submit"].

Definition _is_execution_confirmation (user_utterance : string) : bool :=
  let utterance_lower := PyStr.strip (PyStr.lower user_utterance) in
  existsb (fun conf => PyStr.contains conf utterance_lower) confirmations.

(** The [READY_TO_EXECUTE] case of [process_user_input] (lines
    129-143), which the source writes inline. *)
Definition ready_to_execute_turn (self : DialogueManager)
    (user_utterance : string) : M TurnResult :=
  if _is_execution_confirmation user_utterance then
    let* intent := get_active_intent in
    let* filled := get_filled_slots in
    ret (mkTurnResult "Executing your request..." "execute_action"
           [("intent", VOpt intent); ("slots", VDict filled)])
  else _handle_slot_collection self user_utterance.

Definition underscore : ascii := "_"%char.
Definition blank : ascii := " "%char.

Definition process_user_input (self : DialogueManager)
    (user_utterance : string) : M TurnResult :=
  if negb (PyStr.truthy user_utterance)
     || negb (PyStr.truthy (PyStr.strip user_utterance)) then
    ret (mkTurnResult "I didn't catch that. Could you please repeat?"
           "clarify" [])
  else
    let* current_state := get_state in
    match current_state with
    | TERMINATED =>
        ret (mkTurnResult "This conversation has been terminated."
               "terminated" [])
    | INIT | GENERAL_CHAT =>
        let* detected_intent := lift (detect_intent self user_utterance) in
        if opt_truthy detected_intent then
          let detected := default "" detected_intent in
          let* intent_set := set_active_intent detected in
          if negb intent_set then
            ret (mkTurnResult
                   ("I've noted your request for "
                    ++ PyStr.replace_char underscore blank detected
                    ++ ". I'll help you with that once we finish the current task.")
                   "intent_queued" [("queued_intent", VStr detected)])
          else _start_slot_collection
        else
          when (bool_decide (current_state = INIT)) set_general_chat;;;
          ret (mkTurnResult "" "general_chat"
                 [("user_utterance", VStr user_utterance)])
    | CONFIRMING_NORMALIZATION =>
        _handle_normalization_confirmation user_utterance
    | COLLECTING_SLOT => _handle_slot_collection self user_utterance
    | READY_TO_EXECUTE => ready_to_execute_turn self user_utterance
    | _ =>
        ret (mkTurnResult "I'm processing your request. Please wait."
               "processing" [])
    end.

Definition propose_normalization (slot_name proposed_value : string)
  : M unit :=
  set_pending_normalization slot_name proposed_value;;;
  transition_to CONFIRMING_NORMALIZATION.

(** ** Sequences of method calls *)

(** The mutating methods of [FSM], as a caller can invoke them. *)
Inductive Call :=
| call_set_active_intent (intent_name : string)
| call_set_general_chat
| call_fill_slot (slot_name value : string) (confirmed_arg : bool)
| call_confirm_slot (slot_name : string)
| call_reject_normalization (slot_name : string)
| call_increment_retry (slot_name : string)
| call_set_current_slot (slot_name : option string)
| call_set_pending_normalization (slot_name proposed_value : string)
| call_transition_to (new_state : FSMState)
| call_process_slot_collection (slot_name : string)
    (extracted_value : option string)
| call_advance_state
| call_start_action_execution
| call_complete_action
| call_terminate
| call_load_state_snapshot (snapshot : Snapshot).

Definition perform (c : Call) : M unit :=
  match c with
  | call_set_active_intent i => set_active_intent i;;; ret tt
  | call_set_general_chat => set_general_chat
  | call_fill_slot s v c => fill_slot s v c;;; ret tt
  | call_confirm_slot s => confirm_slot s;;; ret tt
  | call_reject_normalization s => reject_normalization s
  | call_increment_retry s => increment_retry s;;; ret tt
  | call_set_current_slot s => set_current_slot s
  | call_set_pending_normalization s v => set_pending_normalization s v
  | call_transition_to st => transition_to st
  | call_process_slot_collection s v => process_slot_collection s v;;; ret tt
  | call_advance_state => advance_state
  | call_start_action_execution => start_action_execution
  | call_complete_action => complete_action
  | call_terminate => terminate
  | call_load_state_snapshot snap => load_state_snapshot snap
  end.

(** The world after a sequence of calls; a caller that catches an
    exception goes on from the state the raising call left. *)
Definition run_calls (cs : list Call) (w : World) : World :=
  fold_left (fun w c => after (perform c) w) cs w.

(** A call begins a new task instance when it reaches the resetting
    branch of [set_active_intent], or replaces the state data. *)
Definition restarts (c : Call) (d : FSMStateData) : bool :=
  match c with
  | call_set_active_intent _ => negb (in_task_flow (current_state d))
  | call_advance_state =>
      bool_decide (current_state d = COMPLETED)
      && list_truthy (queued_intents d)
  | call_complete_action => list_truthy (queued_intents d)
  | call_load_state_snapshot _ => true
  | _ => false
  end.

(** No call of the sequence begins a new task instance. *)
Fixpoint same_instance (cs : list Call) (w : World) : bool :=
  match cs with
  | [] => true
  | c :: rest =>
      negb (restarts c (state_data w))
      && same_instance rest (after (perform c) w)
  end.

(** Whether a call counts a failed attempt for [slot_name]. *)
Definition counts_retry (slot_name : string) (c : Call) : bool :=
  match c with
  | call_increment_retry s => String.eqb s slot_name
  | call_process_slot_collection s v =>
      String.eqb s slot_name && negb (opt_truthy v)
  | _ => false
  end.

Definition attempts (slot_name : string) (cs : list Call) : nat :=
  length (List.filter (counts_retry slot_name) cs).

(** The snapshot of a world; [get_state_snapshot] never raises. *)
Definition snapshot_of (w : World) : Snapshot :=
  match outcome get_state_snapshot w with
  | Ok s => s
  | Raise _ => mkSnapshot None None None None None None None None None
  end.

(** The worlds a conversation can be in: a fresh [FSM], then method
    calls, turns of a dialogue manager, and restores of a snapshot that
    was taken from a reachable world. *)
Inductive reachable : World -> Prop :=
| reach_init conversation_id t0 t1 clock n :
    reachable (mkWorld (FSM_init conversation_id t0 t1) clock n)
| reach_call c w :
    reachable w ->
    (forall snap, c <> call_load_state_snapshot snap) ->
    reachable (after (perform c) w)
| reach_turn self u w :
    reachable w ->
    reachable (after (process_user_input self u) w)
| reach_propose s v w :
    reachable w ->
    reachable (after (propose_normalization s v) w)
| reach_restore w0 w :
    reachable w0 ->
    reachable w ->
    reachable (after (load_state_snapshot (snapshot_of w0)) w).

(** ** The specification's reading of [getNextMissingSlot] *)

(** "the first slot (in schema order) for which no confirmed SlotRecord
    exists; null if all are confirmed" *)
Definition spec_next_missing_slot (required : list string)
    (m : gmap string SlotValue) : option string :=
  List.find (fun s => negb (match m !! s with
                            | Some r => confirmed r
                            | None => false
                            end)) required.

(** ** Worlds and collaborators used in the examples *)

Definition fresh_world : World :=
  mkWorld (FSM_init (Some "conv-1") 0 0) (fun n => Z.of_nat n) 0%nat.

(** A task with one slot filled but not confirmed. *)
Definition unconfirmed_world : World :=
  after (fill_slot "employee_name" "John" false)
    (after (set_active_intent "request_time_off") fresh_world).

(** A task whose slots are confirmed up to [notify_manager]. *)
Definition last_slot_world : World :=
  run_calls
    [call_set_active_intent "request_time_off";
     call_fill_slot "employee_name" "John Smith" true;
     call_fill_slot "start_date" "2025-01-13" true;
     call_fill_slot "end_date" "2025-01-17" true;
     call_fill_slot "time_off_type" "vacation" true;
     call_fill_slot "reason" "family trip" true;
     call_set_current_slot (Some "notify_manager")]
    fresh_world.

(** A conversation that was terminated. *)
Definition terminated_world : World := after terminate fresh_world.

(** An intent router that always detects [request_time_off], a selector
    that never selects and an extractor that never finds a value: what
    the rule-based collaborators answer to an utterance such as
    ["maybe 123"]. *)
Definition deaf_manager : DialogueManager :=
  mkDialogueManager (fun _ => Ok (Some "request_time_off"))
    (fun _ _ _ => Ok []) (fun _ _ _ => Ok None).

(** The worlds after each of a list of utterances, and the results. *)
Fixpoint turns (self : DialogueManager) (us : list string) (w : World)
  : list (result TurnResult) * World :=
  match us with
  | [] => ([], w)
  | u :: rest =>
      let '(r, w') := process_user_input self u w in
      let '(rs, w'') := turns self rest w' in
      (r :: rs, w'')
  end.

(** What a test reads off a turn result: its action and the slot it
    names, if any. *)
Definition asked (r : result TurnResult) : option (string * option PyVal) :=
  match r with
  | Ok t =>
      Some (action t,
            snd <$> List.find (fun kv => String.eqb (fst kv) "slot")
                      (metadata t))
  | Raise _ => None
  end.

(** ** Predicates on the state data *)

(** The record of slot [s] still has the value of [r] and is
    confirmed. *)
Definition kept (s : string) (r : SlotValue) (d : FSMStateData) : Prop :=
  exists r', slot_values d !! s = Some r'
             /\ value r' = value r /\ confirmed r' = true.

(** The pending normalization is never an empty dictionary. *)
Definition pending_ok (d : FSMStateData) : Prop :=
  pending_normalization d <> Some [].

(** A computation keeps a property of the state data, also when it
    raises. *)
Definition preserves (P : FSMStateData -> Prop) {A} (c : M A) : Prop :=
  forall w, P (state_data w) -> P (data_after c w).

(** Every result a computation returns satisfies [Q]. *)
Definition returns {A} (Q : A -> Prop) (c : M A) : Prop :=
  forall w a, outcome c w = Ok a -> Q a.

(** The state data with [created_at] taken from another state: what a
    restore can at best produce, since a snapshot does not carry
    [created_at]. *)
Definition with_created_at (t : datetime) (d : FSMStateData) :=
  mkFSMStateData (current_state d) (active_intent d) (queued_intents d)
    (slot_values d) (current_slot_being_collected d) (slot_retry_counts d)
    (conversation_id d) t (updated_at d) (pending_normalization d).

(** The retry counter of a slot, as [increment_retry] reads it. *)
Definition retries (s : string) (d : FSMStateData) : Z :=
  default 0 (slot_retry_counts d !! s).

(** [n] calls of [complete_action] in a row. *)
Fixpoint complete_actions (n : nat) : M unit :=
  match n with
  | O => ret tt
  | S k => complete_action;;; complete_actions k
  end.

(** The actions [_handle_slot_collection] can answer with. *)
Definition collection_actions : list string :=
  ["error"; "ready_to_execute"; "ask_slot"; "retry_slot"; "processing"].

(** While a task is being collected the slot records are not reset:
    the records are [m] and the phase is one [advance_state] cannot
    dequeue from. *)
Definition collecting (m : gmap string SlotValue) (d : FSMStateData) : Prop :=
  slot_values d = m
  /\ (current_state d = COLLECTING_SLOT
      \/ current_state d = CONFIRMING_NORMALIZATION
      \/ current_state d = READY_TO_EXECUTE).

(** What [confirm_slot] and [reject_normalization] do to a record. *)
Definition confirm_record (r : SlotValue) : SlotValue :=
  set_needs_confirmation false (set_confirmed true r).

Definition reject_record (r : SlotValue) : SlotValue :=
  set_needs_confirmation false (set_normalized_value None r).

Definition collection_action (r : TurnResult) : Prop :=
  In (action r) collection_actions.

(** The task of [last_slot_world] with its last slot confirmed too. *)
Definition ready_world : World :=
  run_calls [call_fill_slot "notify_manager" "yes" true; call_advance_state]
    last_slot_world.

(** A task waiting for the answer to a proposed normalization. *)
Definition proposal_world : World :=
  after (propose_normalization "start_date" "2025-01-13")
    (run_calls [call_set_active_intent "request_time_off";
                call_fill_slot "start_date" "next Monday" false]
       fresh_world).

(** ** The rest of [dialogue/dialogue_manager.py] *)

(** The dictionary [execute_action] returns. *)
Inductive ExecutionResult :=
| exec_failure (error : string)
| exec_success (intent : string) (slots : gmap string string).

Definition execute_action : M ExecutionResult :=
  let* intent := get_active_intent in
  if negb (opt_truthy intent) then ret (exec_failure "No active intent")
  else
    let intent_name := default "" intent in
    let* filled := check_all_slots_filled intent_name in
    if negb filled then ret (exec_failure "Not all slots filled")
    else
      start_action_execution;;;
      let* slots := get_filled_slots in
      ret (exec_success intent_name slots).

(** The dictionary [get_conversation_state] returns; its entries are
    evaluated in this order. *)
Record ConversationState := mkConversationState {
  cs_state : string;
  cs_active_intent : option string;
  cs_queued_intents : list string;
  cs_filled_slots : gmap string string;
  cs_missing_slots : list string;
  cs_current_slot : option string
}.

Definition get_conversation_state : M ConversationState :=
  let* st := get_state in
  let* intent := get_active_intent in
  let* queued := get_queued_intents in
  let* filled := get_filled_slots in
  let* missing :=
    get_missing_slots (if opt_truthy intent then default "" intent else "") in
  let* d := get_data in
  ret (mkConversationState (FSMState_value st) intent queued filled missing
         (current_slot_being_collected d)).

(** The worlds a conversation reaches when it is driven through the
    dialogue manager only, as the application does: turns, proposed
    normalizations, executions, completions, and restores of a snapshot
    taken from such a world. *)
Inductive dm_reachable : World -> Prop :=
| dm_init conversation_id t0 t1 clock n :
    dm_reachable (mkWorld (FSM_init conversation_id t0 t1) clock n)
| dm_turn self u w :
    dm_reachable w ->
    dm_reachable (after (process_user_input self u) w)
| dm_propose s v w :
    dm_reachable w ->
    dm_reachable (after (propose_normalization s v) w)
| dm_execute w :
    dm_reachable w ->
    dm_reachable (after execute_action w)
| dm_complete w :
    dm_reachable w ->
    dm_reachable (after complete_action w)
| dm_restore w0 w :
    dm_reachable w0 ->
    dm_reachable w ->
    dm_reachable (after (load_state_snapshot (snapshot_of w0)) w).

(** The worlds a conversation reaches without a restore: a fresh
    [FSM], then method calls other than [load_state_snapshot], turns
    and proposed normalizations.  No object of the state is shared with
    a snapshot in these worlds. *)
Inductive reachable_without_restore : World -> Prop :=
| unrestored_init conversation_id t0 t1 clock n :
    reachable_without_restore
      (mkWorld (FSM_init conversation_id t0 t1) clock n)
| unrestored_call c w :
    reachable_without_restore w ->
    (forall snap, c <> call_load_state_snapshot snap) ->
    reachable_without_restore (after (perform c) w)
| unrestored_turn self u w :
    reachable_without_restore w ->
    reachable_without_restore (after (process_user_input self u) w)
| unrestored_propose s v w :
    reachable_without_restore w ->
    reachable_without_restore (after (propose_normalization s v) w).

(** ** Further predicates on the state data *)

(** The task name has a schema in the registry. *)
Definition registered (t : string) : Prop :=
  exists names, get_slot_names t = Ok names.

(** Every record carries the retry count of its slot. *)
Definition retries_in_sync (d : FSMStateData) : Prop :=
  forall s r, slot_values d !! s = Some r -> retry_count r = retries s d.

(** No task is queued twice. *)
Definition queue_nodup (d : FSMStateData) : Prop :=
  NoDup (queued_intents d).

(** A phase in which the action may run, or runs, belongs to a
    registered task whose slots are all confirmed. *)
Definition ready_means_confirmed (d : FSMStateData) : Prop :=
  current_state d = READY_TO_EXECUTE \/ current_state d = EXECUTING_ACTION ->
  exists t names,
    active_intent d = Some t /\ get_slot_names t = Ok names
    /\ all_confirmed (slot_values d) names = true.

(** The phases in which a turn works on the active task. *)
Definition task_phase (s : FSMState) : Prop :=
  s = COLLECTING_SLOT \/ s = CONFIRMING_NORMALIZATION
  \/ s = READY_TO_EXECUTE.

(** A confirmed record that a turn on the active task has to keep. *)
Definition kept_in_task (s : string) (r : SlotValue) (d : FSMStateData)
  : Prop :=
  kept s r d /\ task_phase (current_state d).

(** The actions a turn can answer with. *)
Definition turn_actions : list string :=
  ["clarify"; "terminated"; "general_chat"; "error"; "ready_to_execute";
   "ask_slot"; "retry_slot"; "processing"; "confirm_normalization";
   "execute_action"].

(** A turn result with one of these actions. *)
Definition turn_action (r : TurnResult) : Prop := In (action r) turn_actions.

(** The queue is [q], in a phase in which a turn works on the task. *)
Definition queue_is (q : list string) (d : FSMStateData) : Prop :=
  queued_intents d = q /\ task_phase (current_state d).

(** From [d] to [d'] the phase and the task stay, and confirmed records
    stay confirmed. *)
Definition steady (d d' : FSMStateData) : Prop :=
  current_state d' = current_state d
  /\ active_intent d' = active_intent d
  /\ forall s r, slot_values d !! s = Some r -> confirmed r = true ->
       exists r', slot_values d' !! s = Some r' /\ confirmed r' = true.

(** ** Computations that return *)

(** From every state with [P] the computation returns, without
    raising, in a state with [P]. *)
Definition runs (P : FSMStateData -> Prop) {A} (c : M A) : Prop :=
  forall w, P (state_data w) ->
    exists a w', c w = (Ok a, w') /\ P (state_data w').

(** The same, with a property [V] of the value returned. *)
Definition yields (P : FSMStateData -> Prop) {A} (c : M A) (V : A -> Prop)
  : Prop :=
  forall w, P (state_data w) ->
    exists a w', c w = (Ok a, w') /\ P (state_data w') /\ V a.

(** The computation returns [f] of the state and changes nothing. *)
Definition reads {A} (c : M A) (f : FSMStateData -> A) : Prop :=
  forall w, c w = (Ok (f (state_data w)), w).

(** What the handlers of a turn keep while they work on the task [a]
    with the slot names [names]: the task and a task phase, and a
    current slot that belongs to the schema. *)
Definition task_inv (a : option string) (names : list string)
    (d : FSMStateData) : Prop :=
  active_intent d = a /\ task_phase (current_state d)
  /\ forall c, current_slot_being_collected d = Some c ->
       PyStr.truthy c = true -> opt_truthy a = true -> In c names.

(** A slot the handlers may ask the question of. *)
Definition known_slot (a : option string) (names : list string)
    (o : option string) : Prop :=
  opt_truthy o = true -> opt_truthy a = true -> In (default "" o) names.

(** The active task, if there is one, is registered, and the current
    slot, if there is one, belongs to its schema. *)
Definition safe (d : FSMStateData) : Prop :=
  opt_truthy (active_intent d) = true ->
  exists names,
    get_slot_names (default "" (active_intent d)) = Ok names
    /\ forall c, current_slot_being_collected d = Some c ->
         PyStr.truthy c = true -> In c names.

(** Collaborators that do not raise, with a router that detects
    registered tasks only. *)
Definition good_manager (self : DialogueManager) : Prop :=
  (forall u, exists o, detect_intent self u = Ok o
      /\ (opt_truthy o = true -> registered (default "" o)))
  /\ (forall u t f, exists l, select_slots self u t f = Ok l)
  /\ (forall u s t, exists o, extract_slot_value self u s t = Ok o).

(** ** Further collaborators used in the examples *)

(** A router that detects a task the registry does not have. *)
Definition pizza_manager : DialogueManager :=
  mkDialogueManager (fun _ => Ok (Some "order_pizza"))
    (fun _ _ _ => Ok []) (fun _ _ _ => Ok None).

(** A manager whose extractor takes every utterance as the value of
    the slot it is asked for. *)
Definition echo_manager : DialogueManager :=
  mkDialogueManager (fun _ => Ok (Some "submit_it_ticket"))
    (fun _ _ _ => Ok []) (fun u _ _ => Ok (Some u)).

(** * Proofs *)

(** ** Tactics for the monad *)

Ltac mrun :=
  cbv [outcome after data_after bind ret raise lift get_data modify touch
       datetime_now when get_state get_active_intent get_queued_intents
       get_filled_slots update_slot transition_to] in *;
  cbn [fst snd state_data wall_clock clock_reads
       current_state active_intent queued_intents slot_values
       current_slot_being_collected slot_retry_counts conversation_id
       created_at updated_at pending_normalization
       set_current_state set_active_intent_field set_queued_intents
       set_slot_values set_current_slot_field set_slot_retry_counts
       set_conversation_id set_updated_at set_pending_normalization_field]
    in *.

Ltac munfold :=
  unfold perform, complete_action, terminate, start_action_execution,
    advance_state, process_slot_collection, set_pending_normalization,
    set_current_slot, increment_retry, reject_normalization, confirm_slot,
    fill_slot, set_general_chat, set_active_intent, check_all_slots_filled
    in *.

(** Case analysis on an innermost scrutinee of the goal. *)
Ltac break_match :=
  match goal with
  | |- context [match ?x with _ => _ end] =>
      lazymatch x with
      | context [match _ with _ => _ end] => fail
      | _ => destruct x eqn:?
      end
  end.

Ltac mcases := mrun; repeat (break_match; mrun).

(** ** Strings and dictionaries *)

Lemma mem_In x xs : PyStr.mem x xs = true <-> In x xs.
Proof.
  unfold PyStr.mem. rewrite existsb_exists. split.
  - intros (y & Hy & E). apply String.eqb_eq in E. by subst.
  - intros H. exists x. split; [done | apply String.eqb_refl].
Qed.

Lemma mem_app_self x xs : PyStr.mem x (xs ++ [x]) = true.
Proof. apply mem_In, in_or_app. right. by left. Qed.

Lemma has_key_true {V} k (m : gmap string V) :
  has_key k m = true <-> is_Some (m !! k).
Proof. unfold has_key. destruct (m !! k); split; intros H; done. Qed.

Lemma has_key_false {V} k (m : gmap string V) :
  has_key k m = false <-> m !! k = None.
Proof. unfold has_key. destruct (m !! k); split; intros H; done. Qed.

Lemma od_set_nonempty {V} k (v : V) d : OD.set k v d <> [].
Proof.
  destruct d as [|[k' v'] r]; cbn; [done|]. destruct (String.eqb k k'); done.
Qed.

Lemma prefix_app sub post : String.prefix sub (sub ++ post) = true.
Proof.
  induction sub as [|c sub IH].
  - by destruct post.
  - change (String c sub ++ post) with (String c (sub ++ post)). cbn.
    destruct (ascii_dec c c); [apply IH | done].
Qed.

Lemma prefix_split sub s :
  String.prefix sub s = true -> exists post, s = sub ++ post.
Proof.
  revert s. induction sub as [|c sub IH]; intros s H.
  - by exists s.
  - destruct s as [|c' s]; cbn in H; [done|].
    destruct (ascii_dec c c') as [->|]; [|done].
    destruct (IH _ H) as [post ->]. by exists post.
Qed.

(** [PyStr.contains] is the substring test. *)
Lemma contains_spec sub s :
  PyStr.contains sub s = true <-> exists pre post, s = pre ++ sub ++ post.
Proof.
  split.
  - induction s as [|c s IH]; cbn [PyStr.contains]; intros H.
    + apply orb_true_iff in H as [H|H]; [|done].
      apply prefix_split in H as [post ->]. by exists "", post.
    + apply orb_true_iff in H as [H|H].
      * apply prefix_split in H as [post ->]. by exists "", post.
      * destruct (IH H) as (pre & post & ->). by exists (String c pre), post.
  - intros (pre & post & ->). induction pre as [|c pre IH].
    + change ("" ++ sub ++ post) with (sub ++ post).
      destruct (sub ++ post) eqn:E; cbn [PyStr.contains];
        rewrite <- ?E, prefix_app; done.
    + change (String c pre ++ sub ++ post)
        with (String c (pre ++ sub ++ post)).
      cbn [PyStr.contains]. rewrite IH. apply orb_true_r.
Qed.

(** ** Keeping a property through a computation *)

Lemma preserves_ret P {A} (a : A) : preserves P (ret a).
Proof. by intros w H. Qed.

Lemma preserves_raise P {A} e : preserves P (@raise A e).
Proof. by intros w H. Qed.

Lemma preserves_lift P {A} (r : result A) : preserves P (lift r).
Proof. by intros w H. Qed.

Lemma preserves_get_data P : preserves P get_data.
Proof. by intros w H. Qed.

Lemma preserves_bind P {A B} (c : M A) (k : A -> M B) :
  preserves P c -> (forall a, preserves P (k a)) -> preserves P (bind c k).
Proof.
  intros Hc Hk w H. specialize (Hc w H). unfold data_after, after, bind in *.
  destruct (c w) as [[a|e] w']; cbn in *; [|done]. by apply Hk.
Qed.

Lemma preserves_when P b c : preserves P c -> preserves P (when b c).
Proof. destruct b; [done|]. intros _. apply preserves_ret. Qed.

(** The methods that only read keep every property. *)
Lemma preserves_reads P :
  preserves P get_active_intent
  /\ preserves P get_state
  /\ preserves P get_filled_slots
  /\ (forall t, preserves P (get_next_missing_slot t))
  /\ (forall t, preserves P (check_all_slots_filled t))
  /\ (forall t k, preserves P (question_of t k)).
Proof.
  repeat split; intros; intros w H;
    unfold get_next_missing_slot, get_missing_slots, check_all_slots_filled,
      question_of; mcases; done.
Qed.

Lemma data_after_discard {A} (c : M A) w :
  data_after (c;;; ret tt) w = data_after c w.
Proof.
  unfold data_after, after, bind, ret. by destruct (c w) as [[a|e] w'].
Qed.

Create HintDb pres.

#[local] Hint Resolve preserves_ret preserves_raise preserves_lift
  preserves_get_data : pres.
#[local] Hint Extern 1 (preserves _ get_active_intent) =>
  apply preserves_reads : pres.
#[local] Hint Extern 1 (preserves _ get_state) =>
  apply preserves_reads : pres.
#[local] Hint Extern 1 (preserves _ get_filled_slots) =>
  apply preserves_reads : pres.
#[local] Hint Extern 1 (preserves _ (get_next_missing_slot _)) =>
  apply preserves_reads : pres.
#[local] Hint Extern 1 (preserves _ (check_all_slots_filled _)) =>
  apply preserves_reads : pres.
#[local] Hint Extern 1 (preserves _ (question_of _ _)) =>
  apply preserves_reads : pres.

(** Follows the structure of a computation down to its method calls. *)
Ltac pres_step :=
  match goal with
  | |- preserves _ (bind _ _) => apply preserves_bind; [| intros ?]
  | |- preserves _ (when _ _) => apply preserves_when
  | |- preserves _ (match ?x with _ => _ end) => destruct x
  | |- preserves _ _ => solve [auto with pres]
  end.

Ltac pres := repeat pres_step.

(** ** What a computation can return *)

Lemma returns_ret {A} (Q : A -> Prop) a : Q a -> returns Q (ret a).
Proof. intros H w a' [= <-]. done. Qed.

Lemma returns_raise {A} (Q : A -> Prop) e : returns Q (raise e).
Proof. intros w a' [=]. Qed.

Lemma returns_bind {A B} (Q : B -> Prop) (c : M A) (k : A -> M B) :
  (forall a, returns Q (k a)) -> returns Q (bind c k).
Proof.
  intros Hk w b. unfold outcome, bind. destruct (c w) as [[a|e] w'] eqn:E.
  - apply Hk.
  - done.
Qed.

Create HintDb rets.

Ltac rets_step :=
  match goal with
  | |- returns _ (bind _ _) => apply returns_bind; intros ?
  | |- returns _ (ret _) => apply returns_ret; cbn; tauto
  | |- returns _ (raise _) => apply returns_raise
  | |- returns _ (match ?x with _ => _ end) => destruct x
  | |- returns _ _ => solve [auto with rets]
  end.

Ltac rets := repeat rets_step.

(** ** Frame lemmas for the method calls *)

(** No method leaves an empty pending dictionary behind. *)
Lemma perform_pending_ok c w :
  (forall snap, c <> call_load_state_snapshot snap) ->
  pending_ok (state_data w) -> pending_ok (data_after (perform c) w).
Proof.
  unfold pending_ok. intros Hc H.
  destruct c; try (by exfalso; eapply Hc); clear Hc;
    munfold; mcases; try done.
  all: match goal with E : pending_normalization _ = _ |- _ => rewrite E end;
    cbn; intros [=E]; by apply od_set_nonempty in E.
Qed.

(** Within a task instance a confirmed record keeps its value and its
    flag, whatever is called. *)
Lemma perform_kept c w s r :
  restarts c (state_data w) = false ->
  kept s r (state_data w) -> kept s r (data_after (perform c) w).
Proof.
  intros Hc (r' & Hl & Hv & Hcf).
  destruct c; cbn [restarts] in Hc; try done;
    munfold; mcases; try done; unfold kept; cbn.
  all: try (eexists; split; [eassumption|]; split; assumption).
  all: repeat (rewrite lookup_alter || rewrite lookup_insert);
    repeat case_decide; simplify_eq; rewrite ?Hl; cbn;
    try (eexists; split; [reflexivity|]; cbn; split; congruence).
Qed.

Lemma run_calls_kept cs w s r :
  same_instance cs w = true ->
  kept s r (state_data w) -> kept s r (state_data (run_calls cs w)).
Proof.
  revert w. induction cs as [|c cs IH]; intros w Hs Hk; [done|].
  cbn in Hs. apply andb_true_iff in Hs as [Hc Hs].
  apply negb_true_iff in Hc.
  cbn. apply IH; [done|]. by apply perform_kept.
Qed.

(** Within a task instance only a failed attempt moves a retry counter,
    and by one. *)
Lemma perform_retries c w s :
  restarts c (state_data w) = false ->
  retries s (data_after (perform c) w)
  = retries s (state_data w) + (if counts_retry s c then 1 else 0).
Proof.
  intros Hc. unfold retries.
  destruct c; cbn [restarts counts_retry] in *; try done;
    munfold; mcases; try done; cbn; try lia.
  all: repeat match goal with
         | H : _ && _ = true |- _ => apply andb_true_iff in H as [? ?]
         | H : _ && _ = false |- _ => apply andb_false_iff in H as [?|?]
         | H : (_ =? _)%string = true |- _ => apply String.eqb_eq in H; subst
         | H : (_ =? _)%string = false |- _ => apply String.eqb_neq in H
         end.
  all: rewrite ?lookup_insert_eq, ?lookup_insert_ne by done; cbn; try lia.
  all: try congruence.
Qed.

Lemma run_calls_retries cs w s :
  same_instance cs w = true ->
  retries s (state_data (run_calls cs w))
  = retries s (state_data w) + Z.of_nat (attempts s cs).
Proof.
  revert w. induction cs as [|c cs IH]; intros w Hs.
  - cbn. lia.
  - cbn in Hs. apply andb_true_iff in Hs as [Hc Hs].
    apply negb_true_iff in Hc. cbn [run_calls fold_left].
    change (fold_left _ cs ?x) with (run_calls cs x).
    rewrite IH by done. fold (data_after (perform c) w).
    rewrite perform_retries by done.
    unfold attempts. cbn [List.filter].
    destruct (counts_retry s c); cbn [length]; lia.
Qed.

(** ** Confirmed slots *)

Lemma confirm_slot_kept s w :
  outcome (confirm_slot s) w = Ok true ->
  exists r, slot_values (data_after (confirm_slot s) w) !! s = Some r
            /\ confirmed r = true.
Proof.
  unfold confirm_slot. mcases; try done. intros _.
  apply negb_false_iff, has_key_true in Heqb as [r Hr].
  rewrite !lookup_alter. repeat case_decide; try done. rewrite Hr. cbn.
  eexists. split; [done|]. done.
Qed.

Lemma fill_slot_blocked s v c w r :
  slot_values (state_data w) !! s = Some r -> confirmed r = true ->
  fill_slot s v c w = (Ok false, w).
Proof. intros Hl Hc. unfold fill_slot. mrun. by rewrite Hl, Hc. Qed.

(** C1, confirmed-slot immutability.  Once [confirm_slot s] has returned
    [True], and after any further method calls that stay within the
    task instance, [fill_slot s v c] returns [False] for every value [v]
    and flag [c], changes nothing at all, and the record of [s] still
    has the value it had when it was confirmed and is still
    confirmed. *)
Theorem confirmed_slot_immutable (s : string) (w : World) (calls : list Call)
    (v : string) (c : bool) :
  outcome (confirm_slot s) w = Ok true ->
  let w1 := after (confirm_slot s) w in
  same_instance calls w1 = true ->
  let w2 := run_calls calls w1 in
  outcome (fill_slot s v c) w2 = Ok false
  /\ after (fill_slot s v c) w2 = w2
  /\ (value <$> slot_values (data_after (fill_slot s v c) w2) !! s)
     = (value <$> slot_values (state_data w1) !! s)
  /\ (confirmed <$> slot_values (data_after (fill_slot s v c) w2) !! s)
     = Some true.
Proof.
  intros Hok w1 Hsame w2.
  destruct (confirm_slot_kept _ _ Hok) as (r & Hr & Hc).
  assert (Hk : kept s r (state_data w2)).
  { apply run_calls_kept; [done|]. exists r. auto. }
  destruct Hk as (r' & Hl' & Hv' & Hc').
  unfold data_after in *. fold w1 in Hr.
  unfold outcome, after at 1 2 3.
  rewrite (fill_slot_blocked _ _ _ _ _ Hl' Hc'). cbn [fst snd].
  rewrite Hl', Hr. cbn. by rewrite Hv', Hc'.
Qed.

Lemma confirmed_slot_immutable_witness :
  let w := after (fill_slot "reason" "flu" false) fresh_world in
  let calls := [call_fill_slot "reason" "holiday" true;
                call_increment_retry "reason"; call_advance_state] in
  let w2 := run_calls calls (after (confirm_slot "reason") w) in
  outcome (fill_slot "reason" "wedding" true) w2 = Ok false
  /\ after (fill_slot "reason" "wedding" true) w2 = w2
  /\ (value <$> slot_values
        (data_after (fill_slot "reason" "wedding" true) w2) !! "reason")
     = (value <$> slot_values
          (data_after (confirm_slot "reason") w) !! "reason")
  /\ (confirmed <$> slot_values
        (data_after (fill_slot "reason" "wedding" true) w2) !! "reason")
     = Some true.
Proof.
  intros w calls w2.
  apply (confirmed_slot_immutable "reason" w calls "wedding" true);
    vm_compute; reflexivity.
Defined.

(** ** Retry counters *)

Lemma increment_retry_outcome s w :
  outcome (increment_retry s) w
  = Ok (retries s (state_data w) + 1 <? MAX_RETRIES).
Proof. unfold increment_retry, retries. mcases; done. Qed.

Lemma set_active_intent_fresh i w s :
  outcome (set_active_intent i) w = Ok true ->
  retries s (data_after (set_active_intent i) w) = 0.
Proof. unfold set_active_intent, retries. mcases; try done. Qed.

(** C4, the retry bound.  In a task instance that [set_active_intent]
    has just started, and after any method calls that stay within it,
    [increment_retry s] returns [True] exactly when fewer than two
    failed attempts were counted for [s] before: the first and the
    second call return [True], the third and every later one [False].
    The calls in between are arbitrary, so a record for [s] may or may
    not exist. *)
Theorem retry_bound (task s : string) (w : World) (calls : list Call) :
  outcome (set_active_intent task) w = Ok true ->
  let w0 := after (set_active_intent task) w in
  same_instance calls w0 = true ->
  outcome (increment_retry s) (run_calls calls w0)
  = Ok (bool_decide (attempts s calls < 2)%nat).
Proof.
  intros Hok w0 Hsame.
  rewrite increment_retry_outcome, run_calls_retries by done.
  unfold w0. fold (data_after (set_active_intent task) w).
  rewrite set_active_intent_fresh by done. f_equal.
  unfold MAX_RETRIES. case_bool_decide; lia.
Qed.

Lemma retry_bound_witness :
  let w0 := after (set_active_intent "request_time_off") fresh_world in
  let calls := [call_increment_retry "reason";
                call_fill_slot "reason" "flu" false;
                call_increment_retry "start_date";
                call_process_slot_collection "reason" None] in
  outcome (increment_retry "reason") (run_calls calls w0) = Ok false.
Proof.
  intros w0 calls.
  apply (retry_bound "request_time_off" "reason" fresh_world calls);
    vm_compute; reflexivity.
Defined.

(** ** Queueing *)

Lemma set_active_intent_busy i w :
  in_task_flow (current_state (state_data w)) = true ->
  set_active_intent i w
  = (Ok false,
     if PyStr.mem i (queued_intents (state_data w)) then w
     else mkWorld (set_queued_intents (queued_intents (state_data w) ++ [i])
                     (state_data w))
            (wall_clock w) (clock_reads w)).
Proof.
  intros H. unfold set_active_intent. mrun. rewrite H.
  destruct (PyStr.mem i _); mrun; reflexivity.
Qed.

(** C6, single active task.  In the four task-in-progress phases
    [set_active_intent i] returns [False]; the active intent, the phase,
    the slot records and the current-slot marker are as before (only
    the queue can differ); [i] is appended to the queue unless it is in
    it already; and a second call with the same name changes nothing. *)
Theorem single_active_task (i : string) (w : World) :
  in_task_flow (current_state (state_data w)) = true ->
  let d := state_data w in
  let w' := after (set_active_intent i) w in
  let d' := state_data w' in
  outcome (set_active_intent i) w = Ok false
  /\ active_intent d' = active_intent d
  /\ current_state d' = current_state d
  /\ slot_values d' = slot_values d
  /\ current_slot_being_collected d' = current_slot_being_collected d
  /\ queued_intents d'
     = (if decide (i ∈ queued_intents d) then queued_intents d
        else (queued_intents d ++ [i])%list)
  /\ d' = set_queued_intents (queued_intents d') d
  /\ outcome (set_active_intent i) w' = Ok false
  /\ after (set_active_intent i) w' = w'.
Proof.
  intros H d w' d'. subst d' w' d. unfold outcome, after.
  rewrite (set_active_intent_busy i w H). cbn [fst snd].
  destruct (PyStr.mem i (queued_intents (state_data w))) eqn:E.
  - rewrite (set_active_intent_busy i w H), E. cbn [fst snd].
    apply mem_In, list_elem_of_In in E. destruct (decide _); [|done].
    repeat split; try done. by destruct w as [[] ? ?].
  - assert (i ∉ queued_intents (state_data w)) as Hn.
    { intros Hin. apply list_elem_of_In, mem_In in Hin. congruence. }
    rewrite set_active_intent_busy by done.
    cbn [fst snd state_data set_queued_intents queued_intents active_intent
         current_state slot_values current_slot_being_collected].
    rewrite mem_app_self. destruct (decide _); [done|].
    repeat split; done.
Qed.

Lemma single_active_task_witness :
  let w := after (set_active_intent "request_time_off") fresh_world in
  let w' := after (set_active_intent "schedule_meeting") w in
  outcome (set_active_intent "schedule_meeting") w = Ok false
  /\ active_intent (state_data w') = Some "request_time_off"
  /\ queued_intents (state_data w') = ["schedule_meeting"]
  /\ after (set_active_intent "schedule_meeting") w' = w'.
Proof.
  intros w w'.
  destruct (single_active_task "schedule_meeting" w)
    as (H1 & H2 & _ & _ & _ & H6 & _ & _ & H9); [reflexivity|].
  split; [exact H1|]. split; [exact H2|]. split; [exact H6 | exact H9].
Defined.

Lemma complete_action_dequeues w h t :
  queued_intents (state_data w) = h :: t ->
  let d' := data_after complete_action w in
  outcome complete_action w = Ok tt
  /\ current_state d' = COLLECTING_SLOT
  /\ active_intent d' = Some h
  /\ queued_intents d' = t
  /\ slot_values d' = ∅
  /\ slot_retry_counts d' = ∅
  /\ current_slot_being_collected d' = None
  /\ pending_normalization d' = None.
Proof.
  intros Hq. unfold complete_action, advance_state, set_active_intent.
  mrun. rewrite Hq. mrun. repeat split.
Qed.

(** Completing as many tasks as the queue is long starts its last
    entry. *)
Lemma complete_actions_drain n : forall w q i,
  queued_intents (state_data w) = (q ++ [i])%list ->
  length q = n ->
  let d' := data_after (complete_actions (S n)) w in
  outcome (complete_actions (S n)) w = Ok tt
  /\ current_state d' = COLLECTING_SLOT
  /\ active_intent d' = Some i
  /\ queued_intents d' = []
  /\ slot_values d' = ∅
  /\ slot_retry_counts d' = ∅.
Proof.
  induction n as [|n IH]; intros w q i Hq Hlen.
  - destruct q; [|done]. cbn in Hq.
    destruct (complete_action_dequeues w i [] Hq)
      as (H1 & H2 & H3 & H4 & H5 & H6 & _).
    cbn [complete_actions]. unfold outcome, data_after, after, bind, ret in *.
    destruct (complete_action w) as [[[]|] w']; cbn in *; try done.
  - destruct q as [|h q]; [done|]. cbn in Hq, Hlen.
    destruct (complete_action_dequeues w h (q ++ [i]) Hq)
      as (H1 & _ & _ & H4 & _).
    change (complete_actions (S (S n)))
      with (complete_action;;; complete_actions (S n)).
    unfold outcome, data_after, after, bind in *.
    destruct (complete_action w) as [[[]|] w'] eqn:E; cbn in H1, H4; try done.
    apply (IH w' q i); [done | lia].
Qed.

(** C10, re-queueing the active task.  The de-duplication of
    [set_active_intent] looks at the queue only: called in a
    task-in-progress phase with the name of the task that is active
    (and not queued yet), it appends that name to the queue.  Once the
    tasks before it are completed ([complete_action], which dequeues
    through [advance_state]; one completion when the queue was empty),
    the same task is active again, in [COLLECTING_SLOT], with its slot
    records and retry counters reset. *)
Theorem requeue_active_task_restarts (i : string) (w : World) :
  in_task_flow (current_state (state_data w)) = true ->
  active_intent (state_data w) = Some i ->
  i ∉ queued_intents (state_data w) ->
  let w1 := after (set_active_intent i) w in
  let w2 :=
    after (complete_actions (S (length (queued_intents (state_data w)))))
      w1 in
  outcome (set_active_intent i) w = Ok false
  /\ active_intent (state_data w1) = Some i
  /\ queued_intents (state_data w1)
     = (queued_intents (state_data w) ++ [i])%list
  /\ current_state (state_data w2) = COLLECTING_SLOT
  /\ active_intent (state_data w2) = Some i
  /\ slot_values (state_data w2) = ∅
  /\ slot_retry_counts (state_data w2) = ∅
  /\ queued_intents (state_data w2) = [].
Proof.
  intros Hflow Hact Hnin w1 w2.
  assert (Hmem : PyStr.mem i (queued_intents (state_data w)) = false).
  { destruct (PyStr.mem _ _) eqn:E; [|done].
    by apply mem_In, list_elem_of_In in E. }
  pose proof (set_active_intent_busy i w Hflow) as Hset.
  rewrite Hmem in Hset.
  assert (Hq : queued_intents (state_data w1)
               = (queued_intents (state_data w) ++ [i])%list).
  { unfold w1, after. by rewrite Hset. }
  destruct (complete_actions_drain _ w1 _ i Hq eq_refl)
    as (_ & K2 & K3 & K4 & K5 & K6).
  unfold outcome. rewrite Hset. cbn [fst].
  split; [done|]. split; [|by repeat split].
  unfold w1, after. by rewrite Hset.
Qed.

Lemma requeue_active_task_restarts_witness :
  let w := after (fill_slot "employee_name" "Ann" true)
             (after (set_active_intent "request_time_off") fresh_world) in
  let w1 := after (set_active_intent "request_time_off") w in
  let w2 := after complete_action w1 in
  queued_intents (state_data w1) = ["request_time_off"]
  /\ active_intent (state_data w2) = Some "request_time_off"
  /\ slot_values (state_data w2) = ∅.
Proof.
  intros w w1 w2.
  destruct (requeue_active_task_restarts "request_time_off" w)
    as (_ & _ & H3 & _ & H5 & H6 & _).
  - reflexivity.
  - reflexivity.
  - apply not_elem_of_nil.
  - split; [exact H3|]. split; [exact H5 | exact H6].
Defined.

(** ** The next missing slot *)

Lemma get_slot_names_truthy t names :
  get_slot_names t = Ok names -> PyStr.truthy t = true.
Proof. destruct t; [discriminate | done]. Qed.

Lemma filter_head_find {A} (f : A -> bool) l :
  match List.filter f l with [] => None | x :: _ => Some x end
  = List.find f l.
Proof.
  induction l as [|a l IH]; [done|]. cbn. by destruct (f a).
Qed.

Lemma get_next_missing_slot_eq t names w :
  get_slot_names t = Ok names ->
  get_next_missing_slot t w
  = (Ok (List.find (fun s => negb (has_key s (slot_values (state_data w))))
           names), w).
Proof.
  intros H. unfold get_next_missing_slot, get_missing_slots.
  rewrite (get_slot_names_truthy _ _ H). cbn [negb]. mrun. rewrite H.
  rewrite <- filter_head_find. by destruct (List.filter _ _).
Qed.

Lemma find_first {A} (f : A -> bool) l :
  match List.find f l with
  | Some x => exists pre post, l = (pre ++ x :: post)%list /\ f x = true
                               /\ Forall (fun y => f y = false) pre
  | None => Forall (fun y => f y = false) l
  end.
Proof.
  induction l as [|a l IH]; cbn; [constructor|].
  destruct (f a) eqn:E.
  - exists [], l. repeat split; [done | constructor].
  - destruct (List.find f l) as [x|].
    + destruct IH as (pre & post & -> & Hx & Hpre).
      exists (a :: pre), post. repeat split; [done | by constructor].
    + by constructor.
Qed.

(** C3, as amended.  For a task of the registry,
    [get_next_missing_slot] changes nothing and returns the first slot,
    in schema order, that has no record at all, whether confirmed or
    not: every slot before it has a record.  It returns [None] exactly
    when every slot of the schema has a record. *)
Theorem next_missing_slot_is_first_unrecorded (t : string)
    (names : list string) (w : World) :
  get_slot_names t = Ok names ->
  let m := slot_values (state_data w) in
  after (get_next_missing_slot t) w = w
  /\ exists o, outcome (get_next_missing_slot t) w = Ok o
     /\ (o = None <-> Forall (fun x => is_Some (m !! x)) names)
     /\ forall s, o = Some s ->
          exists pre post, names = (pre ++ s :: post)%list
            /\ m !! s = None
            /\ Forall (fun x => is_Some (m !! x)) pre.
Proof.
  intros H m. unfold after, outcome.
  rewrite (get_next_missing_slot_eq _ _ _ H).
  cbn [fst snd]. split; [done|]. eexists. split; [done|].
  fold m. pose proof (find_first (fun s => negb (has_key s m)) names) as F.
  assert (Hconv : forall l, Forall (fun y => negb (has_key y m) = false) l
                            <-> Forall (fun x => is_Some (m !! x)) l).
  { intros l. apply Forall_iff. intros x.
    rewrite negb_false_iff. apply has_key_true. }
  destruct (List.find _ names) as [x|].
  - destruct F as (pre & post & -> & Hx & Hpre). split.
    + split; [done|]. intros Hall. exfalso.
      apply Forall_app in Hall as [_ Hall].
      inversion Hall as [|? ? Hs _]; subst.
      apply negb_true_iff, has_key_false in Hx. rewrite Hx in Hs.
      by destruct Hs.
    + intros s [= <-]. exists pre, post. split; [done|]. split.
      * by apply negb_true_iff, has_key_false in Hx.
      * by apply Hconv.
  - split; [|done]. split; [intros _; by apply Hconv | done].
Qed.

Lemma next_missing_slot_is_first_unrecorded_witness :
  after (get_next_missing_slot "request_time_off") unconfirmed_world
  = unconfirmed_world
  /\ exists o,
       outcome (get_next_missing_slot "request_time_off") unconfirmed_world
       = Ok o.
Proof.
  destruct (next_missing_slot_is_first_unrecorded "request_time_off"
              ["employee_name"; "start_date"; "end_date"; "time_off_type";
               "reason"; "notify_manager"] unconfirmed_world eq_refl)
    as (H1 & o & H2 & _).
  split; [exact H1 | exists o; exact H2].
Defined.

(** C3 as stated fails: with [employee_name] filled but not confirmed,
    the first slot without a confirmed record is [employee_name], and
    [get_next_missing_slot] returns [start_date]. *)
Lemma next_missing_slot_skips_unconfirmed :
  let m := slot_values (state_data unconfirmed_world) in
  get_slot_names "request_time_off"
  = Ok ["employee_name"; "start_date"; "end_date"; "time_off_type";
        "reason"; "notify_manager"]
  /\ (confirmed <$> m !! "employee_name") = Some false
  /\ spec_next_missing_slot
       ["employee_name"; "start_date"; "end_date"; "time_off_type";
        "reason"; "notify_manager"] m = Some "employee_name"
  /\ outcome (get_next_missing_slot "request_time_off") unconfirmed_world
     = Ok (Some "start_date")
  /\ outcome (get_next_missing_slot "request_time_off") unconfirmed_world
     <> Ok (spec_next_missing_slot
              ["employee_name"; "start_date"; "end_date"; "time_off_type";
               "reason"; "notify_manager"] m).
Proof. vm_compute. repeat split; try reflexivity. discriminate. Qed.

(** ** Exhausted retries *)

Lemma registry_cases t names :
  get_slot_names t = Ok names ->
  t = "request_time_off" \/ t = "schedule_meeting"
  \/ t = "submit_it_ticket" \/ t = "file_medical_claim".
Proof.
  unfold get_slot_names, get_schema, TASK_SCHEMAS. cbn [OD.get].
  repeat match goal with
         | |- context [String.eqb t ?x] =>
             destruct (String.eqb_spec t x) as [->|_]; [tauto|]
         end.
  discriminate.
Qed.

(** Every slot of a registered task has a question. *)
Lemma question_of_known t names s w :
  get_slot_names t = Ok names -> In s names ->
  exists q, question_of t s w = (Ok q, w).
Proof.
  intros Hn Hin. pose proof (registry_cases _ _ Hn) as Ht.
  destruct Ht as [-> | [-> | [-> | ->]]]; vm_compute in Hn;
    injection Hn as Hn; subst names; cbn in Hin;
    repeat (destruct Hin as [<-|Hin]; [eexists; reflexivity|]); done.
Qed.

Lemma start_slot_collection_asks t names s w :
  active_intent (state_data w) = Some t ->
  get_slot_names t = Ok names ->
  PyStr.truthy s = true ->
  List.find (fun x => negb (has_key x (slot_values (state_data w)))) names
  = Some s ->
  exists q w',
    _start_slot_collection w
    = (Ok (mkTurnResult q "ask_slot"
             [("slot", VStr s); ("intent", VStr t); ("question", VStr q)]),
       w')
    /\ current_slot_being_collected (state_data w') = Some s
    /\ slot_values (state_data w') = slot_values (state_data w)
    /\ slot_retry_counts (state_data w') = slot_retry_counts (state_data w).
Proof.
  intros Ha Hn Hs Hf.
  assert (Ht := get_slot_names_truthy _ _ Hn).
  assert (Hin : In s names) by (by apply find_some in Hf as [? _]).
  unfold _start_slot_collection.
  mrun. rewrite Ha. cbn [opt_truthy negb from_option id]. rewrite Ht.
  cbn [negb]. rewrite (get_next_missing_slot_eq _ _ _ Hn), Hf.
  cbn [opt_truthy from_option id]. rewrite Hs. cbn [negb].
  unfold set_current_slot. mrun.
  match goal with |- context [question_of t s ?w0] =>
    destruct (question_of_known t names s w0 Hn Hin) as [q Hq]; rewrite Hq
  end.
  do 2 eexists. split; [reflexivity|]. done.
Qed.

(** The general shape of the defect: when the current slot is the first
    schema slot without a record, nothing is selected or extracted for
    it, and two failed attempts were counted already, the turn asks for
    that very slot again. *)
Lemma exhausted_slot_is_asked_again (self : DialogueManager)
    (u t s : string) (names : list string) (w : World) :
  active_intent (state_data w) = Some t ->
  get_slot_names t = Ok names ->
  current_slot_being_collected (state_data w) = Some s ->
  PyStr.truthy s = true ->
  List.find (fun x => negb (has_key x (slot_values (state_data w)))) names
  = Some s ->
  select_slots self u t (filled_of (slot_values (state_data w))) = Ok [] ->
  extract_slot_value self u s t = Ok None ->
  2 <= retries s (state_data w) ->
  exists q w',
    _handle_slot_collection self u w
    = (Ok (mkTurnResult q "ask_slot"
             [("slot", VStr s); ("intent", VStr t); ("question", VStr q)]),
       w')
    /\ current_slot_being_collected (state_data w') = Some s
    /\ slot_values (state_data w') = slot_values (state_data w).
Proof.
  intros Ha Hn Hc Hs Hf Hsel Hext Hr.
  assert (Ht := get_slot_names_truthy _ _ Hn).
  assert (Hnone : slot_values (state_data w) !! s = None).
  { apply find_some in Hf as [_ Hf]. by apply negb_true_iff, has_key_false in Hf. }
  assert (Hlt : (default 0 (slot_retry_counts (state_data w) !! s) + 1
                 <? MAX_RETRIES) = false).
  { apply Z.ltb_ge. unfold retries in Hr. unfold MAX_RETRIES. lia. }
  apply has_key_false in Hnone.
  unfold _handle_slot_collection, retry_current_slot, process_slot_collection,
    increment_retry, set_current_slot.
  repeat (mrun; cbn [opt_truthy negb andb orb from_option id list_truthy];
          rewrite ?Ha, ?Ht, ?Hc, ?Hs, ?Hsel, ?Hext, ?Hnone, ?Hlt,
            ?(get_next_missing_slot_eq _ _ _ Hn), ?Hf).
  match goal with |- context [_start_slot_collection ?w0] =>
    destruct (start_slot_collection_asks t names s w0) as (q & w' & E & H1 & H2 & _);
      [done .. |]; rewrite E
  end.
  exists q, w'. split; [done|]. split; [done|]. by rewrite H2.
Qed.

(** C2 fails on the code.  With a selector and an extractor that find
    nothing, the third failed attempt for [employee_name] is answered
    with [ask_slot] for [employee_name] again, and so is every later
    one; the same happens for [notify_manager], the last slot of the
    task, where the claim expects [ready_to_execute]. *)
Theorem retry_exhaustion_asks_same_slot_again :
  map asked (fst (turns deaf_manager
                    ["I need time off"; "maybe 123"; "maybe 123";
                     "maybe 123"; "maybe 123"]
                    fresh_world))
  = [Some ("ask_slot", Some (VStr "employee_name"));
     Some ("retry_slot", Some (VStr "employee_name"));
     Some ("retry_slot", Some (VStr "employee_name"));
     Some ("ask_slot", Some (VStr "employee_name"));
     Some ("ask_slot", Some (VStr "employee_name"))]
  /\ map asked (fst (turns deaf_manager
                       ["maybe 123"; "maybe 123"; "maybe 123"; "maybe 123"]
                       last_slot_world))
     = [Some ("retry_slot", Some (VStr "notify_manager"));
        Some ("retry_slot", Some (VStr "notify_manager"));
        Some ("ask_slot", Some (VStr "notify_manager"));
        Some ("ask_slot", Some (VStr "notify_manager"))].
Proof. split; vm_compute; reflexivity. Qed.

(** ** Termination *)



(** ** The pending normalization is never an empty dictionary *)

Ltac by_call c :=
  intros w H; first
    [ exact (perform_pending_ok c w ltac:(discriminate) H)
    | rewrite <- data_after_discard;
      exact (perform_pending_ok c w ltac:(discriminate) H) ].

Lemma pending_ok_set_active_intent i :
  preserves pending_ok (set_active_intent i).
Proof. by_call (call_set_active_intent i). Qed.

Lemma pending_ok_set_general_chat : preserves pending_ok set_general_chat.
Proof. by_call call_set_general_chat. Qed.

Lemma pending_ok_fill_slot s v c : preserves pending_ok (fill_slot s v c).
Proof. by_call (call_fill_slot s v c). Qed.

Lemma pending_ok_confirm_slot s : preserves pending_ok (confirm_slot s).
Proof. by_call (call_confirm_slot s). Qed.

Lemma pending_ok_reject_normalization s :
  preserves pending_ok (reject_normalization s).
Proof. by_call (call_reject_normalization s). Qed.

Lemma pending_ok_set_current_slot s :
  preserves pending_ok (set_current_slot s).
Proof. by_call (call_set_current_slot s). Qed.

Lemma pending_ok_set_pending_normalization s v :
  preserves pending_ok (set_pending_normalization s v).
Proof. by_call (call_set_pending_normalization s v). Qed.

Lemma pending_ok_transition_to st : preserves pending_ok (transition_to st).
Proof. by_call (call_transition_to st). Qed.

Lemma pending_ok_process_slot_collection s v :
  preserves pending_ok (process_slot_collection s v).
Proof. by_call (call_process_slot_collection s v). Qed.

Lemma pending_ok_advance_state : preserves pending_ok advance_state.
Proof. by_call call_advance_state. Qed.

#[local] Hint Resolve pending_ok_set_active_intent pending_ok_set_general_chat
  pending_ok_fill_slot pending_ok_confirm_slot pending_ok_reject_normalization
  pending_ok_set_current_slot pending_ok_set_pending_normalization
  pending_ok_transition_to pending_ok_process_slot_collection
  pending_ok_advance_state : pres.

Lemma pending_ok_start_slot_collection :
  preserves pending_ok _start_slot_collection.
Proof. unfold _start_slot_collection. pres. Qed.
#[local] Hint Resolve pending_ok_start_slot_collection : pres.

Lemma pending_ok_advance_and_continue t :
  preserves pending_ok (advance_and_continue t).
Proof. unfold advance_and_continue. pres. Qed.

Lemma pending_ok_fill_and_confirm s v :
  preserves pending_ok (fill_and_confirm s v).
Proof. unfold fill_and_confirm. pres. Qed.

Lemma pending_ok_retry_current_slot t s :
  preserves pending_ok (retry_current_slot t s).
Proof. unfold retry_current_slot. pres. Qed.
#[local] Hint Resolve pending_ok_advance_and_continue
  pending_ok_fill_and_confirm pending_ok_retry_current_slot : pres.

Lemma pending_ok_extract_selected self u t filled sel acc :
  preserves pending_ok (extract_selected self u t filled sel acc).
Proof.
  revert acc. induction sel as [|s sel IH]; intros acc; cbn [extract_selected];
    pres.
Qed.

Lemma pending_ok_fill_extracted items :
  preserves pending_ok (fill_extracted items).
Proof.
  induction items as [|[s v] items IH]; cbn [fill_extracted]; pres.
Qed.

Lemma pending_ok_for_each keys f :
  (forall k, preserves pending_ok (f k)) ->
  preserves pending_ok (for_each keys f).
Proof.
  intros Hf. induction keys as [|k keys IH]; cbn [for_each]; pres.
Qed.
#[local] Hint Resolve pending_ok_extract_selected pending_ok_fill_extracted
  pending_ok_for_each : pres.

Lemma pending_ok_handle_slot_collection self u :
  preserves pending_ok (_handle_slot_collection self u).
Proof. unfold _handle_slot_collection. pres. Qed.

Lemma pending_ok_handle_normalization_confirmation u :
  preserves pending_ok (_handle_normalization_confirmation u).
Proof.
  unfold _handle_normalization_confirmation. pres.
  all: apply pending_ok_for_each; intros; pres.
Qed.
#[local] Hint Resolve pending_ok_handle_slot_collection
  pending_ok_handle_normalization_confirmation : pres.

Lemma pending_ok_ready_to_execute_turn self u :
  preserves pending_ok (ready_to_execute_turn self u).
Proof. unfold ready_to_execute_turn. pres. Qed.
#[local] Hint Resolve pending_ok_ready_to_execute_turn : pres.

Lemma pending_ok_process_user_input self u :
  preserves pending_ok (process_user_input self u).
Proof. unfold process_user_input. pres. Qed.

Lemma pending_ok_propose_normalization s v :
  preserves pending_ok (propose_normalization s v).
Proof. unfold propose_normalization. pres. Qed.

(** ** Snapshots *)

Lemma FSMState_of_value_value st : FSMState_of_value (FSMState_value st) = Ok st.
Proof. by destruct st. Qed.

Lemma data_to_slot_to_data r : data_to_slot (slot_to_data r) = Ok r.
Proof. by destruct r. Qed.

Lemma restore_slots_fold l acc :
  restore_slots (map (fun kv => (fst kv, slot_to_data (snd kv))) l) acc
  = Ok (fold_left (fun a kv => <[fst kv := snd kv]> a) l acc).
Proof.
  revert acc. induction l as [|[k r] l IH]; intros acc; [done|].
  cbn [map restore_slots fst snd fold_left].
  rewrite data_to_slot_to_data. apply IH.
Qed.

Lemma rev_reverse {A} (l : list A) : rev l = reverse l.
Proof. unfold reverse. apply rev_alt. Qed.

Lemma restore_slots_map_to_list (m : gmap string SlotValue) :
  restore_slots (map (fun kv => (fst kv, slot_to_data (snd kv)))
                   (map_to_list m)) ∅ = Ok m.
Proof.
  rewrite restore_slots_fold. f_equal.
  rewrite <- fold_left_rev_right.
  change (fold_right _ ∅ (rev (map_to_list m)))
    with (list_to_map (M:=gmap string SlotValue) (rev (map_to_list m))).
  rewrite <- (list_to_map_to_list m) at 2.
  apply list_to_map_proper.
  - rewrite rev_reverse, fmap_reverse, reverse_Permutation.
    apply NoDup_fst_map_to_list.
  - rewrite rev_reverse. apply reverse_Permutation.
Qed.

Lemma snapshot_round_trip w w' :
  pending_ok (state_data w) ->
  load_state_snapshot (snapshot_of w) w'
  = (Ok tt,
     mkWorld (with_created_at (created_at (state_data w')) (state_data w))
       (wall_clock w') (clock_reads w')).
Proof.
  intros Hp. unfold snapshot_of, get_state_snapshot, load_state_snapshot.
  mrun. cbn [snap_current_state snap_active_intent snap_queued_intents
             snap_slot_values snap_current_slot_being_collected
             snap_slot_retry_counts snap_conversation_id
             snap_pending_normalization snap_updated_at subscript].
  rewrite FSMState_of_value_value. cbn [from_option id].
  rewrite restore_slots_map_to_list. mrun.
  unfold with_created_at. repeat f_equal.
  unfold pending_ok in Hp.
  destruct (pending_normalization (state_data w)) as [[|]|]; done.
Qed.

Lemma reachable_pending_ok w : reachable w -> pending_ok (state_data w).
Proof.
  induction 1 as [| c w _ IH Hc | self u w _ IH | s v w _ IH | w0 w _ IH0 _ IH].
  - done.
  - by apply perform_pending_ok.
  - by apply pending_ok_process_user_input.
  - by apply pending_ok_propose_normalization.
  - unfold after. rewrite snapshot_round_trip by done. done.
Qed.

Lemma reachable_run_calls cs w :
  Forall (fun c => forall snap, c <> call_load_state_snapshot snap) cs ->
  reachable w -> reachable (run_calls cs w).
Proof.
  revert w. induction cs as [|c cs IH]; intros w Hcs Hw; [done|].
  inversion Hcs; subst. cbn. apply IH; [done|]. by apply reach_call.
Qed.

(** C5, the snapshot round trip.  For every reachable world, loading
    the snapshot that [get_state_snapshot] produces, into any FSM,
    succeeds and yields state data equal to the original in phase,
    active intent, queued intents, slot records, retry counters and
    pending normalization, and also in the current-slot marker, the
    conversation id and [updated_at]. *)
Theorem snapshot_restores_state (w w' : World) :
  reachable w ->
  let d := state_data w in
  let d' := data_after (load_state_snapshot (snapshot_of w)) w' in
  outcome get_state_snapshot w = Ok (snapshot_of w)
  /\ outcome (load_state_snapshot (snapshot_of w)) w' = Ok tt
  /\ current_state d' = current_state d
  /\ active_intent d' = active_intent d
  /\ queued_intents d' = queued_intents d
  /\ slot_values d' = slot_values d
  /\ slot_retry_counts d' = slot_retry_counts d
  /\ pending_normalization d' = pending_normalization d
  /\ current_slot_being_collected d' = current_slot_being_collected d
  /\ conversation_id d' = conversation_id d
  /\ updated_at d' = updated_at d.
Proof.
  intros Hr d d'. subst d d'. unfold outcome, data_after, after.
  rewrite (snapshot_round_trip w w' (reachable_pending_ok w Hr)).
  repeat split.
Qed.

Lemma snapshot_restores_state_witness :
  let w := after (propose_normalization "start_date" "2025-01-13")
             (run_calls [call_set_active_intent "request_time_off";
                         call_fill_slot "start_date" "next Monday" false]
                fresh_world) in
  let d' := data_after (load_state_snapshot (snapshot_of w)) fresh_world in
  current_state d' = CONFIRMING_NORMALIZATION
  /\ slot_values d' = slot_values (state_data w)
  /\ pending_normalization d' = Some [("start_date", "2025-01-13")].
Proof.
  intros w d'.
  destruct (snapshot_restores_state w fresh_world)
    as (_ & _ & H3 & _ & _ & H6 & _ & H8 & _).
  - apply reach_propose, reachable_run_calls; [|apply reach_init].
    repeat constructor; discriminate.
  - split; [exact H3|]. split; [exact H6 | exact H8].
Defined.

(** ** Execution confirmation *)

Lemma start_slot_collection_actions :
  returns collection_action _start_slot_collection.
Proof. unfold _start_slot_collection, collection_action. rets. Qed.
#[local] Hint Resolve start_slot_collection_actions : rets.

Lemma advance_and_continue_actions t :
  returns collection_action (advance_and_continue t).
Proof. unfold advance_and_continue. rets. Qed.

Lemma retry_current_slot_actions t s :
  returns collection_action (retry_current_slot t s).
Proof. unfold retry_current_slot. rets. Qed.
#[local] Hint Resolve advance_and_continue_actions
  retry_current_slot_actions : rets.

Lemma handle_slot_collection_actions self u :
  returns collection_action (_handle_slot_collection self u).
Proof. unfold _handle_slot_collection. rets. Qed.

Lemma filled_of_lookup m k v :
  filled_of m !! k = Some v
  <-> exists r, m !! k = Some r /\ confirmed r = true /\ value r = v.
Proof.
  unfold filled_of. rewrite lookup_omap. destruct (m !! k) as [r|]; cbn.
  - destruct (confirmed r) eqn:E; split.
    + intros [= <-]. by exists r.
    + intros (r' & [= <-] & _ & <-). done.
    + done.
    + intros (r' & [= <-] & ? & _). congruence.
  - split; [done|]. by intros (r & ? & _).
Qed.

Lemma is_execution_confirmation_spec u :
  _is_execution_confirmation u = true
  <-> exists conf pre post,
        In conf confirmations
        /\ PyStr.strip (PyStr.lower u) = pre ++ conf ++ post.
Proof.
  unfold _is_execution_confirmation. rewrite existsb_exists. split.
  - intros (conf & Hin & Hc). apply contains_spec in Hc as (pre & post & E).
    by exists conf, pre, post.
  - intros (conf & pre & post & Hin & E). exists conf. split; [done|].
    apply contains_spec. by exists pre, post.
Qed.

(** The turn in phase [READY_TO_EXECUTE], as the code has it.  A turn
    with a non-blank utterance is [ready_to_execute_turn].  The test of
    [_is_execution_confirmation] is containment: it holds when the
    lower-cased, stripped utterance has one of the ten entries as a
    substring, also inside a longer word.  When it holds the turn
    answers [execute_action] with the active task name and the mapping
    of all confirmed slots to their values in its metadata, and changes
    nothing, the phase included.  When it does not, the turn is the
    slot-collection algorithm.  [execute_action] is answered exactly
    when the test holds. *)
Theorem execution_confirmation (self : DialogueManager) (u : string)
    (w : World) :
  current_state (state_data w) = READY_TO_EXECUTE ->
  let d := state_data w in
  (PyStr.truthy (PyStr.strip u) = true ->
   process_user_input self u w = ready_to_execute_turn self u w)
  /\ (_is_execution_confirmation u = true
      <-> exists conf pre post,
            In conf confirmations
            /\ PyStr.strip (PyStr.lower u) = pre ++ conf ++ post)
  /\ (_is_execution_confirmation u = true ->
      ready_to_execute_turn self u w
      = (Ok (mkTurnResult "Executing your request..." "execute_action"
               [("intent", VOpt (active_intent d));
                ("slots", VDict (filled_of (slot_values d)))]), w))
  /\ (forall k v, filled_of (slot_values d) !! k = Some v
        <-> exists r, slot_values d !! k = Some r
                      /\ confirmed r = true /\ value r = v)
  /\ (_is_execution_confirmation u = false ->
      ready_to_execute_turn self u w = _handle_slot_collection self u w)
  /\ ((exists r, outcome (ready_to_execute_turn self u) w = Ok r
                 /\ action r = "execute_action")
      <-> _is_execution_confirmation u = true).
Proof.
  intros Hst d.
  assert (Hturn : ready_to_execute_turn self u w
                  = if _is_execution_confirmation u
                    then (Ok (mkTurnResult "Executing your request..."
                                "execute_action"
                                [("intent", VOpt (active_intent d));
                                 ("slots", VDict (filled_of (slot_values d)))]),
                          w)
                    else _handle_slot_collection self u w).
  { unfold ready_to_execute_turn.
    by destruct (_is_execution_confirmation u). }
  split.
  { intros Hu. assert (Hne : PyStr.truthy u = true) by (by destruct u).
    unfold process_user_input. rewrite Hne, Hu. cbn [negb orb]. mrun.
    by rewrite Hst. }
  split; [apply is_execution_confirmation_spec|].
  split; [by intros E; rewrite Hturn, E|].
  split; [apply filled_of_lookup|].
  split; [by intros E; rewrite Hturn, E|].
  split.
  - intros (r & Hr & Ha).
    destruct (_is_execution_confirmation u) eqn:E; [done|].
    unfold outcome in Hr. rewrite Hturn in Hr.
    apply handle_slot_collection_actions in Hr.
    unfold collection_action in Hr.
    rewrite Ha in Hr. cbn in Hr. intuition discriminate.
  - intros E. unfold outcome. rewrite Hturn, E. eexists. split; [done|]. done.
Qed.

Lemma execution_confirmation_witness :
  process_user_input deaf_manager "the ticket is broken" ready_world
  = (Ok (mkTurnResult "Executing your request..." "execute_action"
           [("intent", VStr "request_time_off");
            ("slots",
             VDict (filled_of (slot_values (state_data ready_world))))]),
     ready_world).
Proof.
  destruct (execution_confirmation deaf_manager "the ticket is broken"
              ready_world eq_refl) as (Hd & _ & H & _).
  rewrite Hd by reflexivity. apply H. reflexivity.
Defined.

Lemma ready_turn_executes self u w :
  current_state (state_data w) = READY_TO_EXECUTE ->
  PyStr.truthy (PyStr.strip u) = true ->
  _is_execution_confirmation u = true ->
  process_user_input self u w
  = (Ok (mkTurnResult "Executing your request..." "execute_action"
           [("intent", VOpt (active_intent (state_data w)));
            ("slots", VDict (filled_of (slot_values (state_data w))))]), w).
Proof.
  intros Hst Hu Hc. assert (Hne : PyStr.truthy u = true) by (by destruct u).
  unfold process_user_input. rewrite Hne, Hu. cbn [negb orb]. mrun.
  rewrite Hst. unfold ready_to_execute_turn. by rewrite Hc.
Qed.

Lemma slot_collection_never_executes self u w r w' :
  _handle_slot_collection self u w = (Ok r, w') ->
  action r <> "execute_action".
Proof.
  intros E. pose proof (handle_slot_collection_actions self u w r) as H.
  unfold outcome in H. rewrite E in H. specialize (H eq_refl).
  unfold collection_action, collection_actions in H. cbn in H.
  intros Ha. rewrite Ha in H. intuition discriminate.
Qed.

(** C9 fails on the code.  In phase [READY_TO_EXECUTE], with every slot
    of the task confirmed, the utterances ["the ticket is broken"],
    ["yesterday"] and ["no, do not execute"] are none of them an entry
    of the lexicon, yet [_is_execution_confirmation] holds of each, as
    each has an entry as a substring.  Each of them is answered with
    [execute_action], whatever the collaborators, with the phase and
    the rest of the state unchanged, and is not treated as slot
    input. *)
Theorem lexicon_entry_inside_a_word_executes (self : DialogueManager) :
  current_state (state_data ready_world) = READY_TO_EXECUTE
  /\ Forall
       (fun u =>
          PyStr.mem (PyStr.strip (PyStr.lower u)) confirmations = false
          /\ _is_execution_confirmation u = true
          /\ process_user_input self u ready_world
             = (Ok (mkTurnResult "Executing your request..." "execute_action"
                      [("intent", VStr "request_time_off");
                       ("slots",
                        VDict (filled_of
                                 (slot_values (state_data ready_world))))]),
                ready_world)
          /\ process_user_input self u ready_world
             <> _handle_slot_collection self u ready_world)
       ["the ticket is broken"; "yesterday"; "no, do not execute"].
Proof.
  split; [reflexivity|].
  assert (H : forall u,
            PyStr.truthy (PyStr.strip u) = true ->
            _is_execution_confirmation u = true ->
            process_user_input self u ready_world
            = (Ok (mkTurnResult "Executing your request..." "execute_action"
                     [("intent", VStr "request_time_off");
                      ("slots",
                       VDict (filled_of
                                (slot_values (state_data ready_world))))]),
               ready_world)
            /\ process_user_input self u ready_world
               <> _handle_slot_collection self u ready_world).
  { intros u Hu Hc.
    pose proof (ready_turn_executes self u ready_world eq_refl Hu Hc) as E.
    split; [exact E|]. rewrite E. intros E'. symmetry in E'.
    by apply slot_collection_never_executes in E'. }
  repeat (apply List.Forall_cons;
          [split; [vm_compute; reflexivity|];
           split; [vm_compute; reflexivity
                  | apply H; vm_compute; reflexivity]|]).
  apply List.Forall_nil.
Qed.

(** ** The normalization confirmation *)

Lemma collecting_advance_state m : preserves (collecting m) advance_state.
Proof.
  intros w [Hm Hst]. unfold collecting, advance_state, check_all_slots_filled.
  mcases; cbn; intuition congruence.
Qed.

Lemma collecting_set_current_slot m s :
  preserves (collecting m) (set_current_slot s).
Proof. intros w [Hm Hst]. unfold collecting, set_current_slot. by mrun. Qed.
#[local] Hint Resolve collecting_advance_state
  collecting_set_current_slot : pres.

Lemma collecting_start_slot_collection m :
  preserves (collecting m) _start_slot_collection.
Proof. unfold _start_slot_collection. pres. Qed.

(** What one call does to the records and what it leaves alone. *)
Lemma confirm_slot_effect k w :
  exists b w', confirm_slot k w = (Ok b, w')
    /\ current_state (state_data w') = current_state (state_data w)
    /\ active_intent (state_data w') = active_intent (state_data w)
    /\ forall j, slot_values (state_data w') !! j
         = if decide (j = k) then confirm_record <$> slot_values (state_data w) !! j
           else slot_values (state_data w) !! j.
Proof.
  unfold confirm_slot. mrun. destruct (has_key _ _) eqn:E; cbn [negb]; mrun.
  - do 2 eexists. split; [done|]. repeat split. intros j. mrun.
    rewrite !lookup_alter. repeat case_decide; try done; subst; try done.
    by destruct (slot_values (state_data w) !! j).
  - do 2 eexists. split; [done|]. repeat split. intros j. mrun.
    apply has_key_false in E. case_decide; [subst; by rewrite E | done].
Qed.

Lemma reject_normalization_effect k w :
  exists w', reject_normalization k w = (Ok tt, w')
    /\ current_state (state_data w') = current_state (state_data w)
    /\ active_intent (state_data w') = active_intent (state_data w)
    /\ pending_normalization (state_data w') = None
    /\ forall j, slot_values (state_data w') !! j
         = if decide (j = k) then reject_record <$> slot_values (state_data w) !! j
           else slot_values (state_data w) !! j.
Proof.
  unfold reject_normalization. mrun. destruct (has_key _ _) eqn:E; mrun.
  - eexists. split; [done|]. repeat split. intros j. mrun.
    rewrite !lookup_alter. repeat case_decide; try done; subst; try done.
    by destruct (slot_values (state_data w) !! j).
  - eexists. split; [done|]. repeat split. intros j. mrun.
    apply has_key_false in E. case_decide; [subst; by rewrite E | done].
Qed.

(** A loop whose body changes the records of its key by an idempotent
    [f] changes the records of all its keys by [f]. *)
Lemma for_each_effect (f : SlotValue -> SlotValue) (body : string -> M unit) :
  (forall r, f (f r) = f r) ->
  (forall k w, exists w', body k w = (Ok tt, w')
     /\ current_state (state_data w') = current_state (state_data w)
     /\ active_intent (state_data w') = active_intent (state_data w)
     /\ forall j, slot_values (state_data w') !! j
          = if decide (j = k) then f <$> slot_values (state_data w) !! j
            else slot_values (state_data w) !! j) ->
  forall keys w, exists w', for_each keys body w = (Ok tt, w')
     /\ current_state (state_data w') = current_state (state_data w)
     /\ active_intent (state_data w') = active_intent (state_data w)
     /\ forall j, slot_values (state_data w') !! j
          = if decide (j ∈ keys) then f <$> slot_values (state_data w) !! j
            else slot_values (state_data w) !! j.
Proof.
  intros Hf Hbody keys. induction keys as [|k keys IH]; intros w.
  - exists w. repeat split.
  - destruct (Hbody k w) as (w1 & E1 & S1 & A1 & L1).
    destruct (IH w1) as (w2 & E2 & S2 & A2 & L2).
    exists w2. cbn [for_each]. unfold bind. rewrite E1, E2.
    split; [done|]. split; [congruence|]. split; [congruence|].
    intros j. rewrite L2, L1.
    repeat case_decide; subst; try done;
      repeat match goal with
        | H : _ ∈ _ :: _ |- _ => apply elem_of_cons in H as [?|?]
        | H : ¬ (_ ∈ _ :: _) |- _ => rewrite elem_of_cons in H
        end; try tauto.
    all: try (destruct (slot_values (state_data w) !! k); cbn; by rewrite ?Hf).
Qed.

Lemma advance_state_confirming w t names :
  current_state (state_data w) = CONFIRMING_NORMALIZATION ->
  active_intent (state_data w) = Some t ->
  get_slot_names t = Ok names ->
  outcome advance_state w = Ok tt
  /\ current_state (data_after advance_state w)
     = if all_confirmed (slot_values (state_data w)) names
       then READY_TO_EXECUTE else COLLECTING_SLOT.
Proof.
  intros Hst Ha Hn. unfold advance_state, check_all_slots_filled. mrun.
  rewrite Hst, Ha. assert (Ht : PyStr.truthy t = true) by (by destruct t).
  rewrite Ht. cbn [negb]. mrun. rewrite Hn.
  by destruct (all_confirmed _ _).
Qed.

Lemma pending_none_reject keys :
  preserves (fun d => pending_normalization d = None)
    (for_each keys reject_normalization).
Proof.
  induction keys as [|k keys IH]; cbn [for_each]; pres.
  intros w _. unfold data_after, after.
  by destruct (reject_normalization_effect k w) as (w' & -> & _ & _ & ? & _).
Qed.

Lemma lexicons_disjoint l : In l affirmative -> In l negative -> False.
Proof. cbn. intuition (subst; discriminate). Qed.

(** C8, the normalization confirmation turn.  In phase
    [CONFIRMING_NORMALIZATION] (where a turn with a non-blank utterance
    is this handler), with [l] the lower-cased, stripped utterance:
    - [l] in the affirmative lexicon: [confirm_slot] runs for every key
      of the pending normalization, which marks each of those records
      confirmed and leaves the other records alone; then the state is
      advanced and the next slot requested, which does not touch the
      records; for a task of the registry the advance moves the phase to
      [READY_TO_EXECUTE] when all slots are confirmed and to
      [COLLECTING_SLOT] otherwise;
    - [l] in the negative lexicon: the same with [reject_normalization],
      which drops the candidate of each of those records and keeps their
      value and confirmed flag, and clears the pending normalization;
    - any other utterance: nothing changes, and the answer is
      [confirm_normalization] with the slot name and the candidate of
      the first pending proposal. *)
Theorem normalization_confirmation_turn (u : string) (w : World) :
  current_state (state_data w) = CONFIRMING_NORMALIZATION ->
  let d := state_data w in
  let keys := pending_keys (pending_normalization d) in
  let l := PyStr.strip (PyStr.lower u) in
  (forall self, PyStr.truthy (PyStr.strip u) = true ->
     process_user_input self u w = _handle_normalization_confirmation u w)
  /\ (In l affirmative ->
      exists w1,
        for_each keys (fun s => confirm_slot s;;; ret tt) w = (Ok tt, w1)
        /\ _handle_normalization_confirmation u w
           = (advance_state;;; _start_slot_collection) w1
        /\ (forall k, slot_values (state_data w1) !! k
               = if decide (k ∈ keys)
                 then confirm_record <$> slot_values d !! k
                 else slot_values d !! k)
        /\ slot_values (data_after (_handle_normalization_confirmation u) w)
           = slot_values (state_data w1)
        /\ (forall t names,
              active_intent d = Some t -> get_slot_names t = Ok names ->
              current_state (data_after advance_state w1)
              = if all_confirmed (slot_values (state_data w1)) names
                then READY_TO_EXECUTE else COLLECTING_SLOT))
  /\ (In l negative ->
      exists w1,
        for_each keys reject_normalization w = (Ok tt, w1)
        /\ _handle_normalization_confirmation u w
           = (advance_state;;; _start_slot_collection) w1
        /\ (forall k, slot_values (state_data w1) !! k
               = if decide (k ∈ keys)
                 then reject_record <$> slot_values d !! k
                 else slot_values d !! k)
        /\ (keys <> [] -> pending_normalization (state_data w1) = None)
        /\ slot_values (data_after (_handle_normalization_confirmation u) w)
           = slot_values (state_data w1)
        /\ (forall t names,
              active_intent d = Some t -> get_slot_names t = Ok names ->
              current_state (data_after advance_state w1)
              = if all_confirmed (slot_values (state_data w1)) names
                then READY_TO_EXECUTE else COLLECTING_SLOT))
  /\ (~ In l affirmative -> ~ In l negative ->
      after (_handle_normalization_confirmation u) w = w
      /\ exists r,
           outcome (_handle_normalization_confirmation u) w = Ok r
           /\ action r = "confirm_normalization"
           /\ forall k v rest,
                pending_normalization d = Some ((k, v) :: rest) ->
                metadata r = [("slot", VStr k); ("proposed_value", VStr v)])
  /\ (forall r, confirmed (confirm_record r) = true
                /\ needs_confirmation (confirm_record r) = false
                /\ value (confirm_record r) = value r)
  /\ (forall r, normalized_value (reject_record r) = None
                /\ needs_confirmation (reject_record r) = false
                /\ value (reject_record r) = value r
                /\ confirmed (reject_record r) = confirmed r).
Proof.
  intros Hst d keys l.
  assert (Hguard : forall body,
            when (pending_truthy (pending_normalization d))
              (for_each keys body) w = for_each keys body w).
  { intros body. subst keys. destruct (pending_normalization d) as [[|]|]; done. }
  assert (Htail : forall w1,
            current_state (state_data w1) = CONFIRMING_NORMALIZATION ->
            slot_values (data_after (advance_state;;; _start_slot_collection) w1)
            = slot_values (state_data w1)).
  { intros w1 H1.
    assert (preserves (collecting (slot_values (state_data w1)))
              (advance_state;;; _start_slot_collection)) as Hp.
    { apply preserves_bind; [apply collecting_advance_state|].
      intros _. apply collecting_start_slot_collection. }
    apply Hp. split; auto. }
  split; [|split; [|split; [|split; [|split]]]].
  - intros self Hu. assert (Hne : PyStr.truthy u = true) by (by destruct u).
    unfold process_user_input. rewrite Hne, Hu. cbn [negb orb]. mrun.
    by rewrite Hst.
  - intros Hin.
    destruct (for_each_effect confirm_record (fun s => confirm_slot s;;; ret tt))
      with (keys := keys) (w := w) as (w1 & E1 & S1 & A1 & L1).
    { by intros []. }
    { intros k w0. destruct (confirm_slot_effect k w0) as (b & w' & E & ?).
      exists w'. unfold bind, ret. by rewrite E. }
    assert (Hh : _handle_normalization_confirmation u w
                 = (advance_state;;; _start_slot_collection) w1).
    { unfold _handle_normalization_confirmation. fold l.
      apply mem_In in Hin. rewrite Hin. unfold bind at 1 2. unfold get_data at 1.
      fold d. rewrite Hguard, E1. done. }
    exists w1. split; [done|]. split; [done|]. split; [done|]. split.
    + unfold data_after, after. rewrite Hh. apply Htail. congruence.
    + intros t names Ha Hn.
      unfold d in Ha.
      apply (advance_state_confirming w1 t names); congruence.
  - intros Hin.
    destruct (for_each_effect reject_record reject_normalization)
      with (keys := keys) (w := w) as (w1 & E1 & S1 & A1 & L1).
    { by intros []. }
    { intros k w0. destruct (reject_normalization_effect k w0)
        as (w' & E & ? & ? & _ & ?). by exists w'. }
    assert (Hh : _handle_normalization_confirmation u w
                 = (advance_state;;; _start_slot_collection) w1).
    { unfold _handle_normalization_confirmation. fold l.
      destruct (PyStr.mem l affirmative) eqn:Ea.
      { apply mem_In in Ea. destruct (lexicons_disjoint l Ea Hin). }
      apply mem_In in Hin. rewrite Hin. unfold bind at 1 2. unfold get_data at 1.
      fold d. rewrite Hguard, E1. done. }
    exists w1. split; [done|]. split; [done|]. split; [done|]. split; [|split].
    + intros Hk. destruct keys as [|k keys'] eqn:Ek; [done|].
      cbn [for_each] in E1. unfold bind in E1.
      destruct (reject_normalization_effect k w) as (w' & E & _ & _ & Hp & _).
      rewrite E in E1.
      pose proof (pending_none_reject keys' w' Hp) as Hq.
      unfold data_after, after in Hq. by rewrite E1 in Hq.
    + unfold data_after, after. rewrite Hh. apply Htail. congruence.
    + intros t names Ha Hn.
      unfold d in Ha.
      apply (advance_state_confirming w1 t names); congruence.
  - intros Hna Hnn. unfold after, outcome, _handle_normalization_confirmation.
    fold l.
    destruct (PyStr.mem l affirmative) eqn:Ea;
      [by apply mem_In in Ea|].
    destruct (PyStr.mem l negative) eqn:En;
      [by apply mem_In in En|].
    mrun. fold d. destruct (pending_normalization d) as [[|[k v] rest]|];
      (split; [done|]); eexists; (split; [done|]); (split; [done|]);
      intros k' v' rest' [=]; by subst.
  - by intros [].
  - by intros [].
Qed.

Lemma normalization_confirmation_turn_witness :
  (confirmed <$> slot_values
     (data_after (_handle_normalization_confirmation " YES ") proposal_world)
     !! "start_date") = Some true
  /\ after (_handle_normalization_confirmation "maybe") proposal_world
     = proposal_world.
Proof.
  destruct (normalization_confirmation_turn " YES " proposal_world eq_refl)
    as (_ & Haff & _).
  destruct (normalization_confirmation_turn "maybe" proposal_world eq_refl)
    as (_ & _ & _ & Hother & _).
  destruct Haff as (w1 & _ & _ & L & Hs & _); [vm_compute; tauto|].
  split.
  - rewrite Hs, L. reflexivity.
  - apply Hother; vm_compute; intuition discriminate.
Defined.

(** * Further properties of the code *)

(** ** The schema registry *)

Lemma od_get_set_eq {V} k (v : V) d : OD.get k (OD.set k v d) = Some v.
Proof.
  induction d as [|[k' v'] d IH]; cbn.
  - by rewrite String.eqb_refl.
  - destruct (String.eqb k k') eqn:E; cbn; rewrite ?String.eqb_refl, ?E; done.
Qed.

Lemma od_get_set_ne {V} k j (v : V) d :
  j <> k -> OD.get j (OD.set k v d) = OD.get j d.
Proof.
  intros Hne. induction d as [|[k' v'] d IH]; cbn.
  - by apply String.eqb_neq in Hne as ->.
  - destruct (String.eqb k k') eqn:E; cbn.
    + apply String.eqb_eq in E as <-. by apply String.eqb_neq in Hne as ->.
    + by rewrite IH.
Qed.

Lemma od_keys_set {V} k (v : V) d :
  OD.keys (OD.set k v d)
  = if PyStr.mem k (OD.keys d) then OD.keys d else (OD.keys d ++ [k])%list.
Proof.
  unfold OD.keys, PyStr.mem. induction d as [|[k' v'] d IH]; cbn; [done|].
  destruct (String.eqb k k') eqn:E; cbn.
  - by apply String.eqb_eq in E as <-.
  - rewrite IH. by destruct (existsb _ _).
Qed.

(** The registry knows exactly four tasks. *)
Lemma registered_cases t :
  registered t
  <-> t = "request_time_off" \/ t = "schedule_meeting"
      \/ t = "submit_it_ticket" \/ t = "file_medical_claim".
Proof.
  split.
  - intros [names H]. by apply registry_cases in H.
  - intros [-> | [-> | [-> | ->]]]; eexists; reflexivity.
Qed.

(** Looking up a task that is not in the registry raises. *)
Lemma get_slot_names_unregistered t :
  ~ registered t ->
  get_slot_names t = Raise (ValueError ("Unknown intent: " ++ t)).
Proof.
  intros Hnr. unfold get_slot_names, get_schema.
  destruct (OD.get t TASK_SCHEMAS) as [sch|] eqn:E; [|done].
  destruct Hnr. exists (map name (slots sch)).
  unfold get_slot_names, get_schema. by rewrite E.
Qed.

(** X1, the schema accessors agree.  For a task of the registry,
    [get_schema] returns the schema registered under that very name,
    [get_slot_names] its slot names in schema order, without
    duplicates, and [get_slot_questions] a dictionary with exactly
    these keys, in this order, that maps every slot to its question.
    For any other name all three raise the same [ValueError], the text
    [Unknown intent: ] followed by the name. *)
Theorem schema_accessors_agree (t : string) :
  match get_schema t with
  | Ok sch =>
      intent_name sch = t
      /\ get_slot_names t = Ok (map name (slots sch))
      /\ NoDup (map name (slots sch))
      /\ exists qs,
           get_slot_questions t = Ok qs
           /\ OD.keys qs = map name (slots sch)
           /\ forall sl, In sl (slots sch) ->
                OD.get (name sl) qs = Some (question sl)
  | Raise e =>
      e = ValueError ("Unknown intent: " ++ t)
      /\ get_slot_names t = Raise e
      /\ get_slot_questions t = Raise e
      /\ ~ registered t
  end.
Proof.
  destruct (get_schema t) as [sch|e] eqn:E.
  - assert (registered t) as Hr.
    { exists (map name (slots sch)). unfold get_slot_names. by rewrite E. }
    apply registered_cases in Hr.
    unfold get_slot_names, get_slot_questions. rewrite E.
    destruct Hr as [-> | [-> | [-> | ->]]]; vm_compute in E;
      injection E as <-; (split; [reflexivity|]); (split; [reflexivity|]);
      (split; [cbn; repeat (constructor; [rewrite ?elem_of_cons, elem_of_nil;
                                          intuition discriminate|]);
               constructor|]);
      eexists; (split; [reflexivity|]); (split; [reflexivity|]);
      intros sl Hin; cbn in Hin;
      repeat (destruct Hin as [<-|Hin]; [reflexivity|]); done.
  - unfold get_slot_names, get_slot_questions. rewrite E.
    unfold get_schema in E. destruct (OD.get t TASK_SCHEMAS) eqn:E0; [done|].
    injection E as <-. repeat split. intros [names H].
    unfold get_slot_names, get_schema in H. by rewrite E0 in H.
Qed.


(** ** Filled and missing slots *)

Lemma all_confirmed_spec m names :
  all_confirmed m names = true
  <-> forall s, In s names ->
        exists r, m !! s = Some r /\ confirmed r = true.
Proof.
  unfold all_confirmed. rewrite forallb_forall. split; intros H s Hs.
  - specialize (H s Hs). destruct (m !! s) as [r|]; [|done]. by exists r.
  - destruct (H s Hs) as (r & -> & Hr). done.
Qed.

(** X2, [check_all_slots_filled].  For a registered task it changes
    nothing and returns [True] exactly when every slot of the schema
    has a confirmed record; then [get_next_missing_slot] returns [None]
    and [get_filled_slots] has a value for every slot of the schema. *)
Theorem check_all_slots_filled_spec (t : string) (names : list string)
    (w : World) :
  get_slot_names t = Ok names ->
  let m := slot_values (state_data w) in
  exists b,
    check_all_slots_filled t w = (Ok b, w)
    /\ (b = true <-> forall s, In s names ->
                       exists r, m !! s = Some r /\ confirmed r = true)
    /\ (b = true -> get_next_missing_slot t w = (Ok None, w))
    /\ (b = true -> forall s, In s names ->
                      exists v, filled_of m !! s = Some v).
Proof.
  intros Hn m. exists (all_confirmed m names).
  assert (Ht := get_slot_names_truthy _ _ Hn).
  split.
  { unfold check_all_slots_filled. rewrite Ht. cbn [negb]. mrun.
    by rewrite Hn. }
  split; [apply all_confirmed_spec|]. split.
  - intros Hb. rewrite (get_next_missing_slot_eq _ _ _ Hn).
    destruct (List.find _ names) as [s|] eqn:Ef; [|done].
    apply find_some in Ef as [Hin Hs].
    pose proof (proj1 (all_confirmed_spec _ _) Hb) as Hb'.
    destruct (Hb' s Hin) as (r & Hr & _).
    apply negb_true_iff, has_key_false in Hs. fold m in Hs. congruence.
  - intros Hb s Hin. pose proof (proj1 (all_confirmed_spec _ _) Hb) as Hb'.
    destruct (Hb' s Hin) as (r & Hr & Hc). exists (value r).
    apply filled_of_lookup. by exists r.
Qed.

Lemma check_all_slots_filled_spec_witness :
  exists b,
    check_all_slots_filled "request_time_off" ready_world
    = (Ok b, ready_world)
    /\ (b = true ->
        get_next_missing_slot "request_time_off" ready_world
        = (Ok None, ready_world)).
Proof.
  destruct (check_all_slots_filled_spec "request_time_off"
              ["employee_name"; "start_date"; "end_date"; "time_off_type";
               "reason"; "notify_manager"] ready_world eq_refl)
    as (b & H1 & _ & H3 & _).
  exists b. split; [exact H1 | exact H3].
Defined.

Lemma sublist_filter {A} (f : A -> bool) l : sublist (List.filter f l) l.
Proof.
  induction l as [|x xs IH]; cbn; [constructor|].
  destruct (f x); by constructor.
Qed.

(** X3, task names at the edge.  For the empty task name
    [get_missing_slots] returns the empty list, [get_next_missing_slot]
    [None] and [check_all_slots_filled] [False]; for a non-empty name
    that is not registered all three raise [ValueError] with the text
    [Unknown intent: ] followed by the name.  None of them changes the
    state. *)
Theorem task_name_edge_cases (t : string) (w : World) :
  t <> "" -> ~ registered t ->
  get_missing_slots "" w = (Ok [], w)
  /\ get_next_missing_slot "" w = (Ok None, w)
  /\ check_all_slots_filled "" w = (Ok false, w)
  /\ get_missing_slots t w
     = (Raise (ValueError ("Unknown intent: " ++ t)), w)
  /\ get_next_missing_slot t w
     = (Raise (ValueError ("Unknown intent: " ++ t)), w)
  /\ check_all_slots_filled t w
     = (Raise (ValueError ("Unknown intent: " ++ t)), w).
Proof.
  intros Hne Hnr. split; [done|]. split; [done|]. split; [done|].
  assert (Ht : PyStr.truthy t = true) by (by destruct t).
  pose proof (get_slot_names_unregistered _ Hnr) as Hn.
  unfold get_next_missing_slot, get_missing_slots, check_all_slots_filled.
  rewrite Ht. cbn [negb]. mrun. by rewrite Hn.
Qed.

Lemma task_name_edge_cases_witness :
  get_next_missing_slot "order_pizza" fresh_world
  = (Raise (ValueError "Unknown intent: order_pizza"), fresh_world)
  /\ check_all_slots_filled "" fresh_world = (Ok false, fresh_world).
Proof.
  destruct (task_name_edge_cases "order_pizza" fresh_world)
    as (_ & _ & H3 & _ & H5 & _).
  - discriminate.
  - intros [names H]. discriminate H.
  - split; [exact H5 | exact H3].
Defined.

(** X4, [get_missing_slots].  For a registered task it changes nothing
    and returns the schema slots without a record, in schema order: a
    slot is listed exactly when it is in the schema and has no record,
    confirmed or not.  [get_next_missing_slot] returns the head of that
    list. *)
Theorem get_missing_slots_spec (t : string) (names : list string)
    (w : World) :
  get_slot_names t = Ok names ->
  exists missing,
    get_missing_slots t w = (Ok missing, w)
    /\ sublist missing names
    /\ (forall s, In s missing
          <-> In s names /\ slot_values (state_data w) !! s = None)
    /\ get_next_missing_slot t w = (Ok (head missing), w).
Proof.
  intros Hn. assert (Ht := get_slot_names_truthy _ _ Hn).
  assert (Hm : get_missing_slots t w
               = (Ok (List.filter
                        (fun s => negb (has_key s (slot_values (state_data w))))
                        names), w)).
  { unfold get_missing_slots. rewrite Ht. cbn [negb]. mrun. by rewrite Hn. }
  eexists. split; [exact Hm|]. split; [apply sublist_filter|]. split.
  - intros s. rewrite filter_In, negb_true_iff. by rewrite has_key_false.
  - unfold get_next_missing_slot. unfold bind. rewrite Hm.
    by destruct (List.filter _ _).
Qed.

Lemma get_missing_slots_spec_witness :
  exists missing,
    get_missing_slots "request_time_off" last_slot_world
    = (Ok missing, last_slot_world)
    /\ (In "notify_manager" missing
        <-> In "notify_manager"
              ["employee_name"; "start_date"; "end_date"; "time_off_type";
               "reason"; "notify_manager"]
            /\ slot_values (state_data last_slot_world) !! "notify_manager"
               = None).
Proof.
  destruct (get_missing_slots_spec "request_time_off"
              ["employee_name"; "start_date"; "end_date"; "time_off_type";
               "reason"; "notify_manager"] last_slot_world eq_refl)
    as (missing & H1 & _ & H3 & _).
  exists missing. split; [exact H1 | exact (H3 "notify_manager")].
Defined.


(** ** Filling a slot *)

Lemma fill_slot_open s v c w :
  (forall r, slot_values (state_data w) !! s = Some r -> confirmed r = false) ->
  fill_slot s v c w
  = (Ok true,
     mkWorld
       (set_updated_at (wall_clock w (clock_reads w))
          (set_slot_values
             (<[s := mkSlotValue v c (retries s (state_data w)) None false]>
                (slot_values (state_data w)))
             (state_data w)))
       (wall_clock w) (S (clock_reads w))).
Proof.
  intros Hnc. unfold fill_slot, retries. mrun.
  assert (match slot_values (state_data w) !! s with
          | Some existing => confirmed existing
          | None => false
          end = false) as ->.
  { destruct (slot_values (state_data w) !! s) as [r|] eqn:E; [|done].
    by apply Hnc. }
  by mrun.
Qed.

(** X5, [fill_slot] on a slot without a confirmed record returns
    [True] and stores a fresh record: the given value and flag, the
    retry count of the slot's counter (0 if there is none), no
    normalized value and no pending confirmation.  The other records
    stay, the slot shows in [get_filled_slots] exactly when it was
    filled as confirmed, and apart from the records only [updated_at]
    changes. *)
Theorem fill_slot_stores (s v : string) (c : bool) (w : World) :
  (forall r, slot_values (state_data w) !! s = Some r -> confirmed r = false) ->
  let d := state_data w in
  let d' := data_after (fill_slot s v c) w in
  outcome (fill_slot s v c) w = Ok true
  /\ slot_values d' !! s = Some (mkSlotValue v c (retries s d) None false)
  /\ (forall k, k <> s -> slot_values d' !! k = slot_values d !! k)
  /\ filled_of (slot_values d') !! s = (if c then Some v else None)
  /\ (forall k, k <> s ->
        filled_of (slot_values d') !! k = filled_of (slot_values d) !! k)
  /\ d' = set_updated_at (updated_at d') (set_slot_values (slot_values d') d).
Proof.
  intros Hnc d d'. subst d d'. unfold outcome, data_after, after.
  rewrite (fill_slot_open _ _ _ _ Hnc). mrun.
  split; [done|]. split; [by rewrite lookup_insert_eq|].
  split; [by intros k Hk; rewrite lookup_insert_ne|].
  unfold filled_of. split.
  - rewrite lookup_omap, lookup_insert_eq. cbn. by destruct c.
  - split; [|done]. intros k Hk. by rewrite !lookup_omap, lookup_insert_ne.
Qed.

Lemma fill_slot_stores_witness :
  outcome (fill_slot "employee_name" "Jane" true) unconfirmed_world = Ok true
  /\ filled_of (slot_values
       (data_after (fill_slot "employee_name" "Jane" true) unconfirmed_world))
       !! "employee_name" = Some "Jane".
Proof.
  destruct (fill_slot_stores "employee_name" "Jane" true unconfirmed_world)
    as (H1 & _ & _ & H4 & _).
  - intros r. vm_compute. intros [= <-]. reflexivity.
  - split; [exact H1 | exact H4].
Defined.

Lemma fill_slot_total s v c w :
  exists b w', fill_slot s v c w = (Ok b, w').
Proof. unfold fill_slot. mcases; eauto. Qed.

(** X6, [process_slot_collection].  With a truthy extracted value it
    answers [fill] with that value and counts no retry; it changes
    nothing at all when the slot is confirmed already, and otherwise
    stores the value as an unconfirmed record.  With no value, or the
    empty string, it counts one retry and answers [retry] while the
    new count is below [MAX_RETRIES] and [max_retries] from then on;
    every record keeps its value and its confirmation. *)
Theorem process_slot_collection_answers (s : string) (o : option string)
    (w : World) :
  let d := state_data w in
  let d' := data_after (process_slot_collection s o) w in
  (opt_truthy o = true ->
   outcome (process_slot_collection s o) w = Ok (act_fill s (default "" o))
   /\ retries s d' = retries s d
   /\ ((exists r, slot_values d !! s = Some r /\ confirmed r = true) ->
       after (process_slot_collection s o) w = w)
   /\ ((forall r, slot_values d !! s = Some r -> confirmed r = false) ->
       slot_values d' !! s
       = Some (mkSlotValue (default "" o) false (retries s d) None false)))
  /\ (opt_truthy o = false ->
      outcome (process_slot_collection s o) w
      = Ok (if retries s d + 1 <? MAX_RETRIES
            then act_retry s else act_max_retries s)
      /\ retries s d' = retries s d + 1
      /\ (forall k r, slot_values d !! k = Some r ->
            exists r', slot_values d' !! k = Some r'
                       /\ value r' = value r /\ confirmed r' = confirmed r)).
Proof.
  intros d d'. subst d d'. split; intros Ho.
  - unfold process_slot_collection. rewrite Ho. cbn [negb].
    split; [|split; [|split]].
    + unfold outcome, bind.
      by destruct (fill_slot_total s (default "" o) false w) as (b & w' & ->).
    + unfold data_after, after, bind.
      destruct (fill_slot_total s (default "" o) false w) as (b & w' & E).
      rewrite E. cbn. replace w' with (after (fill_slot s (default "" o) false) w)
        by (unfold after; by rewrite E).
      unfold fill_slot, retries. mcases; done.
    + intros (r & Hr & Hc). unfold after, bind.
      by rewrite (fill_slot_blocked _ _ _ _ _ Hr Hc).
    + intros Hnc.
      unfold data_after, after, bind.
      rewrite (fill_slot_open _ _ _ _ Hnc). mrun.
      by rewrite lookup_insert_eq.
  - unfold process_slot_collection. rewrite Ho. cbn [negb].
    unfold increment_retry, retries. mrun.
    split; [by destruct (_ <? _); destruct (has_key _ _)|].
    split.
    + destruct (has_key _ _); destruct (_ <? _); mrun;
        by rewrite lookup_insert_eq.
    + intros k r Hk. destruct (has_key _ _) eqn:E; destruct (_ <? _); mrun;
        rewrite ?lookup_alter; try case_decide; subst; rewrite ?Hk; cbn;
        eauto.
Qed.


(** ** Completing tasks *)

(** X7, the queue is first in, first out.  When the queue has an
    element at index [k], [k + 1] calls of [complete_action] make that
    element the active task, in [COLLECTING_SLOT], with no records, no
    retry counters, no current slot and no pending normalization, and
    leave the queue without its first [k + 1] elements. *)
Theorem complete_actions_fifo (k : nat) : forall (w : World) (i : string),
  queued_intents (state_data w) !! k = Some i ->
  let d' := data_after (complete_actions (S k)) w in
  outcome (complete_actions (S k)) w = Ok tt
  /\ current_state d' = COLLECTING_SLOT
  /\ active_intent d' = Some i
  /\ queued_intents d' = drop (S k) (queued_intents (state_data w))
  /\ slot_values d' = ∅
  /\ slot_retry_counts d' = ∅
  /\ current_slot_being_collected d' = None
  /\ pending_normalization d' = None.
Proof.
  induction k as [|k IH]; intros w i Hq.
  - destruct (queued_intents (state_data w)) as [|h t] eqn:E; [done|].
    cbn in Hq. injection Hq as ->.
    destruct (complete_action_dequeues w i t E)
      as (H1 & H2 & H3 & H4 & H5 & H6 & H7 & H8).
    cbn [complete_actions]. unfold outcome, data_after, after, bind, ret in *.
    destruct (complete_action w) as [[[]|] w']; cbn in *; try done.
  - destruct (queued_intents (state_data w)) as [|h t] eqn:E; [done|].
    cbn in Hq.
    destruct (complete_action_dequeues w h t E) as (H1 & _ & _ & H4 & _).
    change (complete_actions (S (S k)))
      with (complete_action;;; complete_actions (S k)).
    unfold outcome, data_after, after, bind in *.
    destruct (complete_action w) as [[[]|] w'] eqn:E'; cbn in H1, H4;
      try done.
    cbn [drop]. rewrite <- H4. apply (IH w' i). by rewrite H4.
Qed.

Lemma complete_actions_fifo_witness :
  let w := run_calls [call_set_active_intent "request_time_off";
                      call_set_active_intent "schedule_meeting";
                      call_set_active_intent "submit_it_ticket"]
             fresh_world in
  active_intent (data_after (complete_actions 2) w) = Some "submit_it_ticket"
  /\ queued_intents (data_after (complete_actions 2) w) = [].
Proof.
  intros w.
  destruct (complete_actions_fifo 1 w "submit_it_ticket" eq_refl)
    as (_ & _ & H3 & H4 & _).
  split; [exact H3 | exact H4].
Defined.

(** X8, [complete_action] with an empty queue returns to [INIT] and
    clears the active intent, but not the data of the finished task:
    the slot records, the retry counters, the current-slot marker and
    the pending normalization stay, so [get_filled_slots] still reports
    the slots of the finished task. *)
Theorem complete_action_empty_queue (w : World) :
  queued_intents (state_data w) = [] ->
  let d := state_data w in
  let d' := data_after complete_action w in
  outcome complete_action w = Ok tt
  /\ current_state d' = INIT
  /\ active_intent d' = None
  /\ queued_intents d' = []
  /\ slot_values d' = slot_values d
  /\ slot_retry_counts d' = slot_retry_counts d
  /\ current_slot_being_collected d' = current_slot_being_collected d
  /\ pending_normalization d' = pending_normalization d
  /\ outcome get_filled_slots (after complete_action w)
     = outcome get_filled_slots w.
Proof.
  intros Hq d d'. subst d d'. unfold complete_action, advance_state.
  mrun. rewrite Hq. mrun. by repeat split.
Qed.

Lemma complete_action_empty_queue_witness :
  current_state (data_after complete_action ready_world) = INIT
  /\ slot_values (data_after complete_action ready_world)
     = slot_values (state_data ready_world).
Proof.
  destruct (complete_action_empty_queue ready_world eq_refl)
    as (_ & H2 & _ & _ & H5 & _).
  split; [exact H2 | exact H5].
Defined.

(** ** Snapshots *)

Lemma FSMState_of_value_inv v st :
  FSMState_of_value v = Ok st -> v = FSMState_value st.
Proof.
  unfold FSMState_of_value, FSMState_members. cbn [find].
  repeat match goal with
         | |- context [String.eqb ?a v] =>
             destruct (String.eqb_spec a v) as [<-|_]; [by intros [= <-]|]
         end.
  done.
Qed.

(** A slot entry without its ['value'] or ['confirmed'] key makes the
    restore of the records raise [KeyError]. *)
Lemma restore_slots_bad_entry items : forall acc k sd,
  In (k, sd) items ->
  sd_value sd = None \/ sd_confirmed sd = None ->
  restore_slots items acc = Raise (KeyError "value")
  \/ restore_slots items acc = Raise (KeyError "confirmed").
Proof.
  induction items as [|[k' sd'] items IH]; intros acc k sd Hin Hbad; [done|].
  cbn [restore_slots].
  destruct (data_to_slot sd') as [r|e] eqn:E.
  - destruct Hin as [[= -> ->]|Hin]; [|by eapply IH].
    unfold data_to_slot in E.
    destruct Hbad as [Hb|Hb]; rewrite Hb in E; cbn in E; [done|].
    by destruct (sd_value sd).
  - unfold data_to_slot in E.
    destruct (sd_value sd'); cbn in E; [|injection E as <-; by left].
    destruct (sd_confirmed sd'); cbn in E; [done|].
    injection E as <-. by right.
Qed.

(** X9, a snapshot without a valid phase is rejected.
    [load_state_snapshot] raises [KeyError] for a snapshot without the
    key [current_state] and [ValueError] for a value that no member of
    [FSMState] has, and changes nothing. *)
Theorem load_state_snapshot_rejects_phase (snap : Snapshot) (w : World) :
  (forall st, snap_current_state snap <> Some (FSMState_value st)) ->
  after (load_state_snapshot snap) w = w
  /\ match snap_current_state snap with
     | None =>
         outcome (load_state_snapshot snap) w
         = Raise (KeyError "current_state")
     | Some v =>
         exists msg,
           outcome (load_state_snapshot snap) w = Raise (ValueError msg)
     end.
Proof.
  intros Hv. unfold load_state_snapshot.
  destruct (snap_current_state snap) as [v|]; [|done].
  mrun. cbn [subscript].
  destruct (FSMState_of_value v) as [st|e] eqn:E.
  - apply FSMState_of_value_inv in E. subst v. by destruct (Hv st).
  - unfold FSMState_of_value in E. destruct (find _ _); simplify_eq.
    split; [done|]. by eexists.
Qed.

Lemma load_state_snapshot_rejects_phase_witness :
  after (load_state_snapshot
           (mkSnapshot (Some "init") None None None None None None None None))
    ready_world
  = ready_world.
Proof.
  apply (load_state_snapshot_rejects_phase
           (mkSnapshot (Some "init") None None None None None None None None)
           ready_world).
  intros []; discriminate.
Defined.

(** X10, [load_state_snapshot] is not atomic.  When the phase of the
    snapshot is valid but one of its slot entries lacks the key [value]
    or [confirmed], the call raises [KeyError] after it has overwritten
    the phase, the active intent, the queue, the current-slot marker,
    the retry counters and the pending normalization with those of the
    snapshot; the slot records and [updated_at] are still the old
    ones. *)
Theorem load_state_snapshot_partial (snap : Snapshot) (w : World)
    (st : FSMState) (items : OD.odict SlotData) (k : string) (sd : SlotData) :
  snap_current_state snap = Some (FSMState_value st) ->
  snap_slot_values snap = Some items ->
  In (k, sd) items ->
  sd_value sd = None \/ sd_confirmed sd = None ->
  let d := state_data w in
  let d' := data_after (load_state_snapshot snap) w in
  (outcome (load_state_snapshot snap) w = Raise (KeyError "value")
   \/ outcome (load_state_snapshot snap) w = Raise (KeyError "confirmed"))
  /\ current_state d' = st
  /\ active_intent d' = snap_active_intent snap
  /\ queued_intents d' = default [] (snap_queued_intents snap)
  /\ current_slot_being_collected d'
     = snap_current_slot_being_collected snap
  /\ slot_retry_counts d' = default ∅ (snap_slot_retry_counts snap)
  /\ pending_normalization d' = snap_pending_normalization snap
  /\ slot_values d' = slot_values d
  /\ updated_at d' = updated_at d.
Proof.
  intros Hs Hi Hin Hbad d d'. subst d d'. unfold load_state_snapshot.
  rewrite Hs, Hi. mrun. cbn [subscript from_option id].
  rewrite FSMState_of_value_value.
  destruct (restore_slots_bad_entry items ∅ k sd Hin Hbad) as [-> | ->];
    mrun; repeat split; auto.
Qed.

Lemma load_state_snapshot_partial_witness :
  let snap :=
    mkSnapshot (Some "COMPLETED") None (Some ["schedule_meeting"])
      (Some [("reason", mkSlotData (Some "flu") None None None None)])
      None None None None None in
  let d' := data_after (load_state_snapshot snap) ready_world in
  current_state d' = COMPLETED
  /\ queued_intents d' = ["schedule_meeting"]
  /\ slot_values d' = slot_values (state_data ready_world).
Proof.
  intros snap d'.
  destruct (load_state_snapshot_partial snap ready_world COMPLETED
              [("reason", mkSlotData (Some "flu") None None None None)]
              "reason" (mkSlotData (Some "flu") None None None None))
    as (_ & H2 & _ & H4 & _ & _ & _ & H8 & _).
  - reflexivity.
  - reflexivity.
  - by left.
  - by right.
  - split; [exact H2|]. split; [exact H4 | exact H8].
Defined.

(** X11, snapshots are stable.  The snapshot of a state that was
    restored, into any FSM, from the snapshot of a world [w] is that
    snapshot again, for every world [w]. *)
Theorem snapshot_is_stable (w w' : World) :
  snapshot_of (after (load_state_snapshot (snapshot_of w)) w') = snapshot_of w.
Proof.
  unfold snapshot_of at 1 3. unfold get_state_snapshot. mrun.
  unfold after, load_state_snapshot, snapshot_of, get_state_snapshot. mrun.
  cbn [snap_current_state snap_active_intent snap_queued_intents
       snap_slot_values snap_current_slot_being_collected
       snap_slot_retry_counts snap_conversation_id
       snap_pending_normalization snap_updated_at subscript].
  rewrite FSMState_of_value_value. cbn [from_option id].
  rewrite restore_slots_map_to_list. mrun.
  by destruct (pending_normalization (state_data w)) as [[|]|].
Qed.


(** ** Proposing a normalization *)

Lemma propose_normalization_effect s v w :
  exists w', propose_normalization s v w = (Ok tt, w')
    /\ current_state (state_data w') = CONFIRMING_NORMALIZATION
    /\ pending_normalization (state_data w')
       = Some (OD.set s v (default [] (pending_normalization (state_data w))))
    /\ forall j, slot_values (state_data w') !! j
         = if decide (j = s)
           then (fun r => set_needs_confirmation true
                            (set_normalized_value (Some v) r))
                <$> slot_values (state_data w) !! j
           else slot_values (state_data w) !! j.
Proof.
  unfold propose_normalization, set_pending_normalization. mrun.
  destruct (pending_normalization (state_data w)) as [p|] eqn:Ep;
    destruct (has_key s (slot_values (state_data w))) eqn:E; mrun;
    rewrite ?E, ?Ep; mrun;
    (eexists; split; [done|]; split; [done|]; split; [done|]);
    intros j; mrun; rewrite ?lookup_alter;
    (destruct (decide (j = s)) as [->|Hj];
     [rewrite ?decide_True by done|rewrite ?decide_False by done; done]);
    try (apply has_key_false in E; by rewrite E);
    by destruct (slot_values (state_data w) !! s).
Qed.

(** X12, proposing and rejecting a normalization.
    [propose_normalization s v] never raises, moves to
    [CONFIRMING_NORMALIZATION] from any phase and adds [s -> v] to the
    pending dictionary: a new key goes last, the value of an old one is
    replaced in place.  When [s] has a record, the record gets the
    candidate [v] and is marked as needing confirmation; the other
    records stay.  A [reject_normalization s] after it clears the whole
    pending dictionary, stays in [CONFIRMING_NORMALIZATION] and takes
    the candidate off the record of [s] again, which restores the
    records whenever that record had no candidate before. *)
Theorem propose_then_reject (s v : string) (w : World) :
  let d := state_data w in
  let w1 := after (propose_normalization s v) w in
  let d1 := state_data w1 in
  let d2 := data_after (reject_normalization s) w1 in
  let p := default [] (pending_normalization d) in
  outcome (propose_normalization s v) w = Ok tt
  /\ current_state d1 = CONFIRMING_NORMALIZATION
  /\ pending_normalization d1 = Some (OD.set s v p)
  /\ OD.get s (OD.set s v p) = Some v
  /\ (forall k, k <> s -> OD.get k (OD.set s v p) = OD.get k p)
  /\ OD.keys (OD.set s v p)
     = (if PyStr.mem s (OD.keys p) then OD.keys p
        else (OD.keys p ++ [s])%list)
  /\ slot_values d1 !! s
     = (fun r => set_needs_confirmation true
                   (set_normalized_value (Some v) r))
       <$> slot_values d !! s
  /\ (forall k, k <> s -> slot_values d1 !! k = slot_values d !! k)
  /\ pending_normalization d2 = None
  /\ current_state d2 = CONFIRMING_NORMALIZATION
  /\ slot_values d2 !! s = reject_record <$> slot_values d !! s
  /\ (forall k, k <> s -> slot_values d2 !! k = slot_values d !! k)
  /\ (forall r, slot_values d !! s = Some r ->
        normalized_value r = None -> needs_confirmation r = false ->
        slot_values d2 = slot_values d).
Proof.
  intros d w1 d1 d2 p. subst d2 d1 w1. unfold data_after, after, outcome.
  destruct (propose_normalization_effect s v w) as (w1 & E1 & S1 & P1 & L1).
  rewrite E1. cbn [fst snd].
  destruct (reject_normalization_effect s w1) as (w2 & E2 & S2 & _ & P2 & L2).
  rewrite E2. cbn [fst snd]. fold d in P1, L1. fold p in P1.
  assert (Hs : forall k, slot_values (state_data w2) !! k
                 = if decide (k = s) then reject_record <$> slot_values d !! k
                   else slot_values d !! k).
  { intros k. rewrite L2, L1. case_decide; [|done].
    by destruct (slot_values d !! k). }
  split; [done|]. split; [done|]. split; [done|].
  split; [apply od_get_set_eq|].
  split; [intros k Hk; by apply od_get_set_ne|].
  split; [apply od_keys_set|].
  split; [by rewrite L1, decide_True|].
  split; [intros k Hk; by rewrite L1, decide_False|].
  split; [done|]. split; [congruence|].
  split; [by rewrite Hs, decide_True|].
  split; [intros k Hk; by rewrite Hs, decide_False|].
  intros r Hr Hn Hc. apply map_eq. intros k. rewrite Hs.
  case_decide; [subst k|done]. rewrite Hr. cbn. f_equal.
  destruct r; cbn in *; by subst.
Qed.

(** ** Turns *)

(** X13, a blank utterance, empty or of white space only, is
    answered with [clarify] and empty metadata in every phase and with
    every dialogue manager, and the state does not change. *)
Theorem blank_utterance_clarifies (self : DialogueManager) (u : string)
    (w : World) :
  PyStr.strip u = "" ->
  process_user_input self u w
  = (Ok (mkTurnResult "I didn't catch that. Could you please repeat?"
           "clarify" []), w).
Proof.
  intros Hu. unfold process_user_input. rewrite Hu. cbn [PyStr.truthy negb].
  by rewrite orb_true_r.
Qed.

Lemma blank_utterance_clarifies_witness :
  process_user_input deaf_manager "   " terminated_world
  = (Ok (mkTurnResult "I didn't catch that. Could you please repeat?"
           "clarify" []), terminated_world).
Proof.
  apply (blank_utterance_clarifies deaf_manager "   " terminated_world).
  reflexivity.
Defined.


(** ** What a turn changes *)

(** A turn changes the state through eight methods of the state machine
    only, so a property those methods keep is kept by every turn,
    whatever the collaborators answer and also when one of them
    raises. *)
Section Turn.
Variable P : FSMStateData -> Prop.
Hypothesis P_fill_slot : forall s v, preserves P (fill_slot s v false).
Hypothesis P_confirm_slot : forall s, preserves P (confirm_slot s).
Hypothesis P_reject_normalization :
  forall s, preserves P (reject_normalization s).
Hypothesis P_set_current_slot : forall s, preserves P (set_current_slot s).
Hypothesis P_increment_retry : forall s, preserves P (increment_retry s).
Hypothesis P_advance_state : preserves P advance_state.

#[local] Hint Resolve P_fill_slot P_confirm_slot P_reject_normalization
  P_set_current_slot P_increment_retry P_advance_state : pres.

Lemma turn_start_slot_collection : preserves P _start_slot_collection.
Proof. unfold _start_slot_collection. pres. Qed.
#[local] Hint Resolve turn_start_slot_collection : pres.

Lemma turn_advance_and_continue t : preserves P (advance_and_continue t).
Proof. unfold advance_and_continue. pres. Qed.

Lemma turn_fill_and_confirm s v : preserves P (fill_and_confirm s v).
Proof. unfold fill_and_confirm. pres. Qed.

Lemma turn_retry_current_slot t s : preserves P (retry_current_slot t s).
Proof.
  unfold retry_current_slot, process_slot_collection. cbn [opt_truthy negb].
  pres.
Qed.
#[local] Hint Resolve turn_advance_and_continue turn_fill_and_confirm
  turn_retry_current_slot : pres.

Lemma turn_extract_selected self u t filled sel acc :
  preserves P (extract_selected self u t filled sel acc).
Proof.
  revert acc. induction sel as [|s sel IH]; intros acc; cbn [extract_selected];
    pres.
Qed.

Lemma turn_fill_extracted items : preserves P (fill_extracted items).
Proof. induction items as [|[s v] items IH]; cbn [fill_extracted]; pres. Qed.

Lemma turn_for_each keys f :
  (forall k, preserves P (f k)) -> preserves P (for_each keys f).
Proof. intros Hf. induction keys as [|k keys IH]; cbn [for_each]; pres. Qed.
#[local] Hint Resolve turn_extract_selected turn_fill_extracted : pres.

Lemma turn_handle_slot_collection self u :
  preserves P (_handle_slot_collection self u).
Proof. unfold _handle_slot_collection. pres. Qed.

Lemma turn_handle_normalization_confirmation u :
  preserves P (_handle_normalization_confirmation u).
Proof.
  unfold _handle_normalization_confirmation. pres.
  all: apply turn_for_each; intros; pres.
Qed.
#[local] Hint Resolve turn_handle_slot_collection
  turn_handle_normalization_confirmation : pres.

Lemma turn_ready_to_execute_turn self u :
  preserves P (ready_to_execute_turn self u).
Proof. unfold ready_to_execute_turn. pres. Qed.
#[local] Hint Resolve turn_ready_to_execute_turn : pres.

Hypothesis P_set_active_intent : forall i, preserves P (set_active_intent i).
Hypothesis P_set_general_chat : preserves P set_general_chat.
#[local] Hint Resolve P_set_active_intent P_set_general_chat : pres.

Lemma turn_process_user_input self u :
  preserves P (process_user_input self u).
Proof. unfold process_user_input. pres. Qed.

End Turn.


(** ** Turns outside a task *)

Lemma strip_truthy u :
  PyStr.strip u <> "" ->
  negb (PyStr.truthy u) || negb (PyStr.truthy (PyStr.strip u)) = false.
Proof.
  intros H. destruct u as [|c u]; [done|]. cbn [PyStr.truthy negb orb].
  by destruct (PyStr.strip (String c u)).
Qed.

Lemma slot_names_truthy t names s :
  get_slot_names t = Ok names -> In s names -> PyStr.truthy s = true.
Proof.
  intros Hn Hin. pose proof (registry_cases _ _ Hn) as Ht.
  destruct Ht as [-> | [-> | [-> | ->]]]; vm_compute in Hn;
    injection Hn as Hn; subst names; cbn in Hin;
    repeat (destruct Hin as [<-|Hin]; [reflexivity|]); done.
Qed.

(** The question of a slot does not depend on the state. *)
Lemma question_of_frame t s w w0 q :
  question_of t s w = (Ok q, w) -> question_of t s w0 = (Ok q, w0).
Proof.
  unfold question_of. mrun. destruct (get_slot_questions t); [|done].
  destruct (OD.get s _); congruence.
Qed.

Lemma start_slot_collection_next t names s w :
  active_intent (state_data w) = Some t ->
  get_slot_names t = Ok names ->
  List.find (fun x => negb (has_key x (slot_values (state_data w)))) names
  = Some s ->
  exists q,
    (forall w0, question_of t s w0 = (Ok q, w0))
    /\ _start_slot_collection w
       = (Ok (mkTurnResult q "ask_slot"
                [("slot", VStr s); ("intent", VStr t); ("question", VStr q)]),
          after (set_current_slot (Some s)) w).
Proof.
  intros Ha Hn Hf.
  assert (Ht := get_slot_names_truthy _ _ Hn).
  assert (Hin : In s names) by (by apply find_some in Hf as [? _]).
  assert (Hs := slot_names_truthy _ _ _ Hn Hin).
  destruct (question_of_known t names s w Hn Hin) as [q Hq].
  exists q. split; [intros w0; by eapply question_of_frame|].
  unfold _start_slot_collection.
  mrun. rewrite Ha. cbn [opt_truthy negb from_option id]. rewrite Ht.
  cbn [negb]. rewrite (get_next_missing_slot_eq _ _ _ Hn), Hf.
  cbn [opt_truthy from_option id]. rewrite Hs. cbn [negb].
  unfold set_current_slot. mrun.
  by rewrite (question_of_frame _ _ _ _ _ Hq).
Qed.

Lemma set_active_intent_idle i w :
  in_task_flow (current_state (state_data w)) = false ->
  exists w', set_active_intent i w = (Ok true, w')
    /\ state_data w'
       = set_updated_at (wall_clock w (clock_reads w))
           (mkFSMStateData COLLECTING_SLOT (Some i)
              (queued_intents (state_data w)) ∅ None ∅
              (conversation_id (state_data w)) (created_at (state_data w))
              (updated_at (state_data w)) None).
Proof.
  intros H. unfold set_active_intent. mrun. rewrite H. mrun.
  eexists. split; [done|]. done.
Qed.

(** X14, a turn that starts a task.  In [INIT] or [GENERAL_CHAT],
    when the router detects a registered task for a non-blank
    utterance, the turn answers [ask_slot] for the first slot of the
    schema, with the question of that slot as text and in the metadata.
    Afterwards the phase is [COLLECTING_SLOT], the task is the active
    one, its first slot is the current slot, there are no records, no
    retry counters and no pending normalization, and the queue is as
    before. *)
Theorem turn_starts_task (self : DialogueManager) (u t first : string)
    (rest : list string) (w : World) :
  PyStr.strip u <> "" ->
  current_state (state_data w) = INIT
  \/ current_state (state_data w) = GENERAL_CHAT ->
  detect_intent self u = Ok (Some t) ->
  get_slot_names t = Ok (first :: rest) ->
  exists q w',
    process_user_input self u w
    = (Ok (mkTurnResult q "ask_slot"
             [("slot", VStr first); ("intent", VStr t);
              ("question", VStr q)]), w')
    /\ question_of t first w' = (Ok q, w')
    /\ current_state (state_data w') = COLLECTING_SLOT
    /\ active_intent (state_data w') = Some t
    /\ slot_values (state_data w') = ∅
    /\ slot_retry_counts (state_data w') = ∅
    /\ current_slot_being_collected (state_data w') = Some first
    /\ pending_normalization (state_data w') = None
    /\ queued_intents (state_data w') = queued_intents (state_data w).
Proof.
  intros Hu Hst Hd Hn.
  assert (Ht := get_slot_names_truthy _ _ Hn).
  assert (Hidle : in_task_flow (current_state (state_data w)) = false).
  { by destruct Hst as [-> | ->]. }
  destruct (set_active_intent_idle t w Hidle) as (w1 & E1 & D1).
  destruct (start_slot_collection_next t (first :: rest) first w1)
    as (q & Hq & E2); [by rewrite D1 | done | by rewrite D1 |].
  exists q, (after (set_current_slot (Some first)) w1). split.
  { unfold process_user_input. rewrite (strip_truthy _ Hu). mrun.
    destruct Hst as [Hst|Hst]; rewrite Hst, Hd;
      cbn [opt_truthy from_option id]; rewrite Ht, E1; cbn [negb];
      exact E2. }
  split; [apply Hq|].
  unfold set_current_slot. mrun. rewrite D1. done.
Qed.

Lemma turn_starts_task_witness :
  exists q w',
    process_user_input deaf_manager "I need time off" fresh_world
    = (Ok (mkTurnResult q "ask_slot"
             [("slot", VStr "employee_name");
              ("intent", VStr "request_time_off");
              ("question", VStr q)]), w')
    /\ current_slot_being_collected (state_data w') = Some "employee_name".
Proof.
  destruct (turn_starts_task deaf_manager "I need time off"
              "request_time_off" "employee_name"
              ["start_date"; "end_date"; "time_off_type"; "reason";
               "notify_manager"] fresh_world)
    as (q & w' & H1 & _ & _ & _ & _ & _ & H7 & _).
  - discriminate.
  - left. reflexivity.
  - reflexivity.
  - reflexivity.
  - exists q, w'. split; [exact H1 | exact H7].
Defined.

(** X15, a turn without a task.  In [INIT] or [GENERAL_CHAT] and for
    a non-blank utterance: when the router raises, the turn raises the
    same exception and changes nothing; when the router detects nothing
    ([None] or the empty string), the turn answers [general_chat] with
    an empty text and the utterance in the metadata, and the phase is
    [GENERAL_CHAT] afterwards.  From [GENERAL_CHAT] nothing changes at
    all; from [INIT] the active intent is cleared; records, retry
    counters and queue stay in both cases. *)
Theorem turn_without_task (self : DialogueManager) (u : string) (w : World) :
  PyStr.strip u <> "" ->
  current_state (state_data w) = INIT
  \/ current_state (state_data w) = GENERAL_CHAT ->
  match detect_intent self u with
  | Raise e => process_user_input self u w = (Raise e, w)
  | Ok o =>
      opt_truthy o = false ->
      exists w',
        process_user_input self u w
        = (Ok (mkTurnResult "" "general_chat" [("user_utterance", VStr u)]),
           w')
        /\ current_state (state_data w') = GENERAL_CHAT
        /\ (current_state (state_data w) = GENERAL_CHAT -> w' = w)
        /\ (current_state (state_data w) = INIT ->
            active_intent (state_data w') = None)
        /\ slot_values (state_data w') = slot_values (state_data w)
        /\ slot_retry_counts (state_data w')
           = slot_retry_counts (state_data w)
        /\ queued_intents (state_data w') = queued_intents (state_data w)
  end.
Proof.
  intros Hu Hst. unfold process_user_input. rewrite (strip_truthy _ Hu).
  unfold set_general_chat. mrun.
  destruct (detect_intent self u) as [o|e].
  - intros Ho. destruct Hst as [Hst|Hst]; rewrite Hst, Ho; mrun;
      eexists; (split; [reflexivity|]); cbn; repeat split; try done;
      intros; congruence.
  - destruct Hst as [-> | ->]; done.
Qed.

Lemma turn_without_task_witness :
  exists w',
    process_user_input
      (mkDialogueManager (fun _ => Ok None) (fun _ _ _ => Ok [])
         (fun _ _ _ => Ok None))
      "hello there" fresh_world
    = (Ok (mkTurnResult "" "general_chat"
             [("user_utterance", VStr "hello there")]), w')
    /\ current_state (state_data w') = GENERAL_CHAT.
Proof.
  destruct (turn_without_task
              (mkDialogueManager (fun _ => Ok None) (fun _ _ _ => Ok [])
                 (fun _ _ _ => Ok None))
              "hello there" fresh_world)
    as (w' & H1 & H2 & _).
  - discriminate.
  - left. reflexivity.
  - reflexivity.
  - exists w'. split; [exact H1 | exact H2].
Defined.

(** X16, an unregistered task wedges the conversation.  When the
    router detects, in [INIT] or [GENERAL_CHAT], a non-empty task name
    that the registry does not have, the turn raises [ValueError] after
    it has made that name the active task, in [COLLECTING_SLOT] and
    without records.  Every later turn with a non-blank utterance, with
    any collaborators, raises the same error and changes nothing. *)
Theorem unregistered_task_wedges (self other : DialogueManager)
    (u u' t : string) (w : World) :
  PyStr.strip u <> "" -> PyStr.strip u' <> "" ->
  current_state (state_data w) = INIT
  \/ current_state (state_data w) = GENERAL_CHAT ->
  detect_intent self u = Ok (Some t) ->
  t <> "" -> ~ registered t ->
  let e := ValueError ("Unknown intent: " ++ t) in
  let w' := after (process_user_input self u) w in
  outcome (process_user_input self u) w = Raise e
  /\ current_state (state_data w') = COLLECTING_SLOT
  /\ active_intent (state_data w') = Some t
  /\ slot_values (state_data w') = ∅
  /\ process_user_input other u' w' = (Raise e, w').
Proof.
  intros Hu Hu' Hst Hd Hne Hnr e w'.
  assert (Ht : PyStr.truthy t = true) by (by destruct t).
  assert (Hidle : in_task_flow (current_state (state_data w)) = false).
  { by destruct Hst as [-> | ->]. }
  destruct (set_active_intent_idle t w Hidle) as (w1 & E1 & D1).
  assert (Hraise : forall w0, get_next_missing_slot t w0 = (Raise e, w0)).
  { intros w0. unfold get_next_missing_slot, get_missing_slots.
    rewrite Ht. cbn [negb]. mrun.
    by rewrite (get_slot_names_unregistered _ Hnr). }
  assert (Hstart : forall w0, active_intent (state_data w0) = Some t ->
            _start_slot_collection w0 = (Raise e, w0)).
  { intros w0 Ha. unfold _start_slot_collection. mrun. rewrite Ha.
    cbn [opt_truthy negb from_option id]. rewrite Ht. cbn [negb].
    by rewrite Hraise. }
  assert (E : process_user_input self u w = (Raise e, w1)).
  { unfold process_user_input. rewrite (strip_truthy _ Hu). mrun.
    destruct Hst as [Hst|Hst]; rewrite Hst, Hd;
      cbn [opt_truthy from_option id]; rewrite Ht, E1; cbn [negb];
      apply Hstart; by rewrite D1. }
  subst w'. unfold outcome, after. rewrite E. cbn [fst snd].
  split; [done|]. rewrite D1. split; [done|]. split; [done|].
  split; [done|].
  unfold process_user_input. rewrite (strip_truthy _ Hu'). mrun.
  rewrite D1. cbn [current_state set_updated_at].
  unfold _handle_slot_collection. mrun. rewrite D1.
  cbn [active_intent current_slot_being_collected set_updated_at
       opt_truthy negb from_option id]. rewrite Ht. cbn [negb].
  rewrite D1. cbn [current_slot_being_collected set_updated_at
                   opt_truthy negb].
  by rewrite Hraise.
Qed.

Lemma unregistered_task_wedges_witness :
  let w' := after (process_user_input pizza_manager "a pizza please")
              fresh_world in
  outcome (process_user_input pizza_manager "a pizza please") fresh_world
  = Raise (ValueError "Unknown intent: order_pizza")
  /\ process_user_input deaf_manager "I need time off" w'
     = (Raise (ValueError "Unknown intent: order_pizza"), w').
Proof.
  destruct (unregistered_task_wedges pizza_manager deaf_manager
              "a pizza please" "I need time off" "order_pizza" fresh_world)
    as (H1 & _ & _ & _ & H5).
  - discriminate.
  - discriminate.
  - left. reflexivity.
  - reflexivity.
  - discriminate.
  - intros [names H]. discriminate H.
  - split; [exact H1 | exact H5].
Defined.


(** ** The queue and the vocabulary of a turn *)

Lemma queue_is_methods q :
  (forall s v, preserves (queue_is q) (fill_slot s v false))
  /\ (forall s, preserves (queue_is q) (confirm_slot s))
  /\ (forall s, preserves (queue_is q) (reject_normalization s))
  /\ (forall s, preserves (queue_is q) (set_current_slot s))
  /\ (forall s, preserves (queue_is q) (increment_retry s))
  /\ preserves (queue_is q) advance_state.
Proof.
  unfold queue_is.
  repeat apply conj; intros; intros w [Hq Hp]; munfold; mcases; cbn;
    try done; unfold task_phase in *; intuition congruence.
Qed.

Lemma returns_impl {A} (Q Q' : A -> Prop) c :
  (forall a, Q a -> Q' a) -> returns Q c -> returns Q' c.
Proof. intros H Hc w a E. apply H. by eapply Hc. Qed.

Lemma collection_turn_action r : collection_action r -> turn_action r.
Proof.
  unfold collection_action, turn_action, collection_actions, turn_actions.
  cbn. intuition.
Qed.

Lemma handle_normalization_confirmation_actions u :
  returns turn_action (_handle_normalization_confirmation u).
Proof.
  unfold _handle_normalization_confirmation.
  assert (returns turn_action _start_slot_collection) as Hs.
  { eapply returns_impl; [apply collection_turn_action|].
    apply start_slot_collection_actions. }
  unfold turn_action in *. rets; try exact Hs.
Qed.

(** X17, a turn never queues a task.  Whatever the phase, the
    utterance and the collaborators, [process_user_input] leaves the
    queue as it is, also when it raises; when it returns, its action
    is one of the ten of [turn_actions], so never [intent_queued]. *)
Theorem turn_never_queues (self : DialogueManager) (u : string) (w : World) :
  queued_intents (data_after (process_user_input self u) w)
  = queued_intents (state_data w)
  /\ forall r, outcome (process_user_input self u) w = Ok r ->
       In (action r) turn_actions /\ action r <> "intent_queued".
Proof.
  assert (Hv : forall a, In a turn_actions -> a <> "intent_queued").
  { cbn. intuition (subst; discriminate). }
  cut (queued_intents (data_after (process_user_input self u) w)
       = queued_intents (state_data w)
       /\ forall r, outcome (process_user_input self u) w = Ok r ->
            turn_action r).
  { intros [H1 H2]. split; [done|]. intros r Hr. split; [by apply H2|].
    apply Hv. by apply H2. }
  destruct (queue_is_methods (queued_intents (state_data w)))
    as (Q1 & Q2 & Q3 & Q4 & Q5 & Q6).
  pose proof (turn_handle_slot_collection _ Q1 Q2 Q4 Q5 Q6 self u w) as Hc.
  pose proof (turn_handle_normalization_confirmation _ Q2 Q3 Q4 Q6 u w) as Hn.
  pose proof (turn_ready_to_execute_turn _ Q1 Q2 Q4 Q5 Q6 self u w) as Hr.
  pose proof (handle_slot_collection_actions self u w) as Ac.
  pose proof (handle_normalization_confirmation_actions u w) as An.
  unfold queue_is, task_phase in Hc, Hn, Hr.
  unfold process_user_input.
  destruct (_ || _); [split; [done|]; intros r [= <-]; cbn; tauto|].
  unfold data_after, after, outcome in *. unfold bind at 1 3. unfold get_state.
  mrun. destruct (current_state (state_data w)) eqn:Hst.
  - (* INIT *)
    destruct (detect_intent self u) as [o|e]; [|done].
    destruct (opt_truthy o).
    + destruct (set_active_intent_idle (default "" o) w) as (w1 & E1 & D1);
        [by rewrite Hst|]. rewrite E1. cbn [negb].
      pose proof (turn_start_slot_collection _ Q4 Q6 w1) as Hs.
      unfold queue_is, task_phase, data_after, after in Hs. split.
      * apply Hs. rewrite D1. cbn. auto.
      * intros r Hr'. apply collection_turn_action.
        by apply (start_slot_collection_actions w1).
    + unfold set_general_chat. mrun. split; [done|].
      intros r [= <-]. cbn. tauto.
  - split; [apply Hc; auto|]. intros r Hr'.
    apply collection_turn_action. by apply Ac.
  - split; [apply Hn; auto|]. intros r Hr'. by apply An.
  - split; [apply Hr; auto|]. unfold ready_to_execute_turn in *.
    destruct (_is_execution_confirmation u).
    + intros r [= <-]. cbn. tauto.
    + intros r Hr'. apply collection_turn_action. by apply Ac.
  - split; [done|]. intros r [= <-]. cbn. tauto.
  - split; [done|]. intros r [= <-]. cbn. tauto.
  - (* GENERAL_CHAT *)
    destruct (detect_intent self u) as [o|e]; [|done].
    destruct (opt_truthy o).
    + destruct (set_active_intent_idle (default "" o) w) as (w1 & E1 & D1);
        [by rewrite Hst|]. rewrite E1. cbn [negb].
      pose proof (turn_start_slot_collection _ Q4 Q6 w1) as Hs.
      unfold queue_is, task_phase, data_after, after in Hs. split.
      * apply Hs. rewrite D1. cbn. auto.
      * intros r Hr'. apply collection_turn_action.
        by apply (start_slot_collection_actions w1).
    + split; [done|]. intros r [= <-]. cbn. tauto.
  - split; [done|]. intros r [= <-]. cbn. tauto.
Qed.


(** ** Confirmed values through a turn *)

Lemma kept_in_task_methods s r :
  (forall k v, preserves (kept_in_task s r) (fill_slot k v false))
  /\ (forall k, preserves (kept_in_task s r) (confirm_slot k))
  /\ (forall k, preserves (kept_in_task s r) (reject_normalization k))
  /\ (forall k, preserves (kept_in_task s r) (set_current_slot k))
  /\ (forall k, preserves (kept_in_task s r) (increment_retry k))
  /\ preserves (kept_in_task s r) advance_state.
Proof.
  unfold kept_in_task, kept, task_phase.
  repeat apply conj; intros; intros w [(r' & Hl & Hv & Hcf) Hp];
    munfold; mcases; cbn; try done.
  all: try (split; [eexists; split; [eassumption|]; split; assumption
                   | intuition congruence]).
  all: try (exfalso; intuition congruence).
  all: split; [|intuition congruence].
  all: repeat (rewrite lookup_alter || rewrite lookup_insert);
    repeat case_decide; simplify_eq; rewrite ?Hl; cbn;
    try (eexists; split; [reflexivity|]; cbn; split; congruence).
Qed.

(** X18, confirmed values survive a turn.  Outside [INIT] and
    [GENERAL_CHAT], a slot that [get_filled_slots] reports with a value
    before a turn is reported with the same value after it, whatever
    the utterance and the collaborators, also when the turn raises. *)
Theorem turn_keeps_confirmed (self : DialogueManager) (u s v : string)
    (w : World) :
  filled_of (slot_values (state_data w)) !! s = Some v ->
  current_state (state_data w) <> INIT ->
  current_state (state_data w) <> GENERAL_CHAT ->
  filled_of (slot_values (data_after (process_user_input self u) w)) !! s
  = Some v.
Proof.
  intros Hf Hi Hg. apply filled_of_lookup in Hf as (r & Hr & Hc & Hv).
  cut (kept s r (data_after (process_user_input self u) w)).
  { intros (r' & Hr' & Hv' & Hc'). apply filled_of_lookup.
    exists r'. split; [done|]. split; [done|]. congruence. }
  assert (Hk : kept s r (state_data w)) by (exists r; auto).
  destruct (kept_in_task_methods s r) as (Q1 & Q2 & Q3 & Q4 & Q5 & Q6).
  pose proof (turn_handle_slot_collection _ Q1 Q2 Q4 Q5 Q6 self u w) as Hcl.
  pose proof (turn_handle_normalization_confirmation _ Q2 Q3 Q4 Q6 u w) as Hn.
  pose proof (turn_ready_to_execute_turn _ Q1 Q2 Q4 Q5 Q6 self u w) as Hre.
  unfold kept_in_task, task_phase in Hcl, Hn, Hre.
  unfold process_user_input.
  destruct (_ || _); [done|].
  unfold data_after, after in *. unfold bind at 1. unfold get_state. mrun.
  destruct (current_state (state_data w)) eqn:Hst; try done.
  - apply Hcl. auto.
  - apply Hn. auto.
  - apply Hre. auto.
Qed.

Lemma turn_keeps_confirmed_witness :
  filled_of (slot_values
    (data_after (process_user_input deaf_manager "maybe 123")
       last_slot_world)) !! "reason"
  = Some "family trip".
Proof.
  apply (turn_keeps_confirmed deaf_manager "maybe 123" "reason"
           "family trip" last_slot_world).
  - vm_compute. reflexivity.
  - discriminate.
  - discriminate.
Defined.

(** ** Invariants of the reachable worlds *)

(** A property of the state data that every method keeps, and that does
    not depend on [created_at], holds in every reachable world. *)
Section Invariant.
Variable P : FSMStateData -> Prop.
Hypothesis P_init : forall conversation_id t0 t1,
  P (FSM_init conversation_id t0 t1).
Hypothesis P_perform : forall c w,
  (forall snap, c <> call_load_state_snapshot snap) ->
  P (state_data w) -> P (data_after (perform c) w).
Hypothesis P_created_at : forall t d, P d -> P (with_created_at t d).

Ltac by_perform c :=
  intros w H; first
    [ exact (P_perform c w ltac:(discriminate) H)
    | rewrite <- data_after_discard;
      exact (P_perform c w ltac:(discriminate) H) ].

Lemma invariant_process_user_input self u :
  preserves P (process_user_input self u).
Proof.
  apply turn_process_user_input.
  - intros s v. by_perform (call_fill_slot s v false).
  - intros s. by_perform (call_confirm_slot s).
  - intros s. by_perform (call_reject_normalization s).
  - intros s. by_perform (call_set_current_slot s).
  - intros s. by_perform (call_increment_retry s).
  - by_perform call_advance_state.
  - intros i. by_perform (call_set_active_intent i).
  - by_perform call_set_general_chat.
Qed.

Lemma invariant_propose_normalization s v :
  preserves P (propose_normalization s v).
Proof.
  unfold propose_normalization. apply preserves_bind; [|intros _].
  - by_perform (call_set_pending_normalization s v).
  - by_perform (call_transition_to CONFIRMING_NORMALIZATION).
Qed.

Lemma reachable_invariant w : reachable w -> P (state_data w).
Proof.
  induction 1 as [| c w _ IH Hc | self u w _ IH | s v w _ IH
                 | w0 w Hw0 IH0 _ IH].
  - apply P_init.
  - by apply P_perform.
  - by apply invariant_process_user_input.
  - by apply invariant_propose_normalization.
  - unfold after.
    rewrite snapshot_round_trip by (by apply reachable_pending_ok).
    by apply P_created_at.
Qed.

Lemma unrestored_invariant w :
  reachable_without_restore w -> P (state_data w).
Proof.
  induction 1 as [| c w _ IH Hc | self u w _ IH | s v w _ IH].
  - apply P_init.
  - by apply P_perform.
  - by apply invariant_process_user_input.
  - by apply invariant_propose_normalization.
Qed.

End Invariant.

Lemma reachable_without_restore_run_calls cs w :
  Forall (fun c => forall snap, c <> call_load_state_snapshot snap) cs ->
  reachable_without_restore w -> reachable_without_restore (run_calls cs w).
Proof.
  revert w. induction cs as [|c cs IH]; intros w Hcs Hw; [done|].
  inversion Hcs; subst. cbn. apply IH; [done|]. by apply unrestored_call.
Qed.

Lemma retries_in_sync_perform c w :
  (forall snap, c <> call_load_state_snapshot snap) ->
  retries_in_sync (state_data w) ->
  retries_in_sync (data_after (perform c) w).
Proof.
  unfold retries_in_sync, retries. intros Hc H.
  destruct c; try (by exfalso; eapply Hc); clear Hc;
    munfold; mcases; try done; cbn; intros k r0.
  all: repeat (rewrite lookup_alter || rewrite lookup_insert);
    repeat case_decide; simplify_eq; cbn;
    try (intros [= <-]; cbn; done);
    try (destruct (slot_values (state_data w) !! k) as [r1|] eqn:E;
         cbn; [|done]; intros [= <-]; cbn; rewrite ?lookup_insert_eq; cbn;
         try done; by apply H);
    try apply H.
  all: match goal with
       | E : has_key _ _ = false |- _ =>
           apply has_key_false in E; by rewrite E
       end.
Qed.

(** X19, the two retry counters agree.  In every world a conversation
    reaches without a restore, that is from a fresh [FSM] by method
    calls other than [load_state_snapshot], by turns and by proposed
    normalizations, the record of a slot carries, in [retry_count], the
    value the slot has in [slot_retry_counts], or 0 if it has none
    there.  Restores are left out: [load_state_snapshot] keeps the
    snapshot's own counter dictionary, which [increment_retry] then
    changes in place, so that loading the same snapshot object once more
    brings back the old records beside the new counters. *)
Theorem record_retry_count_in_sync (w : World) (s : string) (r : SlotValue) :
  reachable_without_restore w ->
  slot_values (state_data w) !! s = Some r ->
  retry_count r = default 0 (slot_retry_counts (state_data w) !! s).
Proof.
  intros Hw. revert s r. change (retries_in_sync (state_data w)).
  revert w Hw. apply unrestored_invariant.
  - intros cid t0 t1 s r. cbn. by rewrite lookup_empty.
  - apply retries_in_sync_perform.
Qed.

Lemma record_retry_count_in_sync_witness :
  let w := run_calls [call_set_active_intent "request_time_off";
                      call_increment_retry "reason";
                      call_fill_slot "reason" "flu" false;
                      call_increment_retry "reason"] fresh_world in
  retry_count (mkSlotValue "flu" false 2 None false)
  = default 0 (slot_retry_counts (state_data w) !! "reason").
Proof.
  intros w.
  apply (record_retry_count_in_sync w "reason"
           (mkSlotValue "flu" false 2 None false)).
  - apply reachable_without_restore_run_calls; [|apply unrestored_init].
    repeat constructor; discriminate.
  - vm_compute. reflexivity.
Defined.

Lemma queue_nodup_perform c w :
  (forall snap, c <> call_load_state_snapshot snap) ->
  queue_nodup (state_data w) -> queue_nodup (data_after (perform c) w).
Proof.
  unfold queue_nodup. intros Hc H.
  destruct c; try (by exfalso; eapply Hc); clear Hc;
    munfold; mcases; try done; cbn.
  all: try match goal with
         | E1 : current_state ?d = _,
           E2 : in_task_flow (current_state ?d) = true |- _ =>
             rewrite E1 in E2; discriminate
         end.
  all: try done.
  all: try (apply NoDup_cons in H as [_ H]; done).
  all: try match goal with
         | E : queued_intents _ = [] |- _ => rewrite E; apply NoDup_nil_2
         end.
  all: match goal with
       | E : negb (PyStr.mem _ _) = true |- _ =>
           apply negb_true_iff in E;
           apply NoDup_app; split; [done|]; split;
           [|apply NoDup_singleton];
           intros x Hx Hx'; apply list_elem_of_singleton in Hx'; subst x;
           apply list_elem_of_In, mem_In in Hx; congruence
       end.
Qed.

(** X20, no task is queued twice: in every reachable world the
    queue has no duplicates. *)
Theorem queue_has_no_duplicates (w : World) :
  reachable w -> NoDup (queued_intents (state_data w)).
Proof.
  revert w. apply (reachable_invariant queue_nodup).
  - intros cid t0 t1. apply NoDup_nil_2.
  - apply queue_nodup_perform.
  - intros t d H. exact H.
Qed.

Lemma queue_has_no_duplicates_witness :
  NoDup (queued_intents (state_data
    (run_calls [call_set_active_intent "request_time_off";
                call_set_active_intent "schedule_meeting";
                call_set_active_intent "schedule_meeting"] fresh_world))).
Proof.
  apply queue_has_no_duplicates.
  apply reachable_run_calls; [|apply reach_init].
  repeat constructor; discriminate.
Defined.


(** ** Executing the action *)

(** X21, the guard of [execute_action].  For an active registered
    task it answers the failure [Not all slots filled], and changes
    nothing, unless every slot of the schema has a confirmed record.
    Then it answers success with the task and the filled slots, which
    cover the schema, in whatever phase it is called: it moves to
    [EXECUTING_ACTION] from [READY_TO_EXECUTE] and leaves every other
    phase as it is; the records, the active task and the queue stay. *)
Theorem execute_action_guard (t : string) (names : list string) (w : World) :
  active_intent (state_data w) = Some t ->
  get_slot_names t = Ok names ->
  let m := slot_values (state_data w) in
  (all_confirmed m names = false ->
   execute_action w = (Ok (exec_failure "Not all slots filled"), w))
  /\ (all_confirmed m names = true ->
      exists w',
        execute_action w = (Ok (exec_success t (filled_of m)), w')
        /\ (forall s, In s names -> is_Some (filled_of m !! s))
        /\ slot_values (state_data w') = m
        /\ active_intent (state_data w') = Some t
        /\ queued_intents (state_data w') = queued_intents (state_data w)
        /\ current_state (state_data w')
           = (if decide (current_state (state_data w) = READY_TO_EXECUTE)
              then EXECUTING_ACTION else current_state (state_data w))).
Proof.
  intros Ha Hn m. assert (Ht := get_slot_names_truthy _ _ Hn).
  unfold execute_action, check_all_slots_filled, start_action_execution.
  mrun. rewrite Ha. cbn [opt_truthy negb from_option id]. rewrite Ht.
  cbn [negb]. mrun. rewrite Hn. fold m. split; intros Hall; rewrite Hall.
  - done.
  - cbn [negb]. case_bool_decide as Hst; mrun.
    + eexists. split; [done|]. split.
      { intros s Hin.
        destruct (proj1 (all_confirmed_spec _ _) Hall s Hin) as (r & Hr & Hc).
        exists (value r). apply filled_of_lookup. by exists r. }
      rewrite decide_True by done. done.
    + eexists. split; [done|]. split.
      { intros s Hin.
        destruct (proj1 (all_confirmed_spec _ _) Hall s Hin) as (r & Hr & Hc).
        exists (value r). apply filled_of_lookup. by exists r. }
      rewrite decide_False by done. done.
Qed.

Lemma execute_action_guard_witness :
  execute_action last_slot_world
  = (Ok (exec_failure "Not all slots filled"), last_slot_world)
  /\ exists w',
       execute_action ready_world
       = (Ok (exec_success "request_time_off"
                (filled_of (slot_values (state_data ready_world)))), w')
       /\ current_state (state_data w') = EXECUTING_ACTION.
Proof.
  split.
  - apply (execute_action_guard "request_time_off"
             ["employee_name"; "start_date"; "end_date"; "time_off_type";
              "reason"; "notify_manager"] last_slot_world);
      vm_compute; reflexivity.
  - destruct (execute_action_guard "request_time_off"
                ["employee_name"; "start_date"; "end_date"; "time_off_type";
                 "reason"; "notify_manager"] ready_world eq_refl eq_refl)
      as [_ H].
    destruct H as (w' & H1 & _ & _ & _ & _ & H6); [vm_compute; reflexivity|].
    exists w'. split; [exact H1 | exact H6].
Defined.

Lemma execute_action_no_task w :
  opt_truthy (active_intent (state_data w)) = false ->
  execute_action w = (Ok (exec_failure "No active intent"), w).
Proof. intros H. unfold execute_action. mrun. by rewrite H. Qed.

(** ** The action runs on confirmed slots only *)

Lemma all_confirmed_mono m m' names :
  (forall s r, m !! s = Some r -> confirmed r = true ->
     exists r', m' !! s = Some r' /\ confirmed r' = true) ->
  all_confirmed m names = true -> all_confirmed m' names = true.
Proof.
  intros H Hall. apply all_confirmed_spec. intros s Hin.
  destruct (proj1 (all_confirmed_spec _ _) Hall s Hin) as (r & Hr & Hc).
  eauto.
Qed.

Lemma steady_ready d d' :
  steady d d' -> ready_means_confirmed d -> ready_means_confirmed d'.
Proof.
  intros (Hs & Ha & Hm) H. unfold ready_means_confirmed in *.
  rewrite Hs, Ha. intros Hst. destruct (H Hst) as (t & names & ? & ? & Hall).
  exists t, names. split; [done|]. split; [done|].
  by eapply all_confirmed_mono.
Qed.

Lemma steady_methods w :
  (forall k v, steady (state_data w) (data_after (fill_slot k v false) w))
  /\ (forall k, steady (state_data w) (data_after (confirm_slot k) w))
  /\ (forall k, steady (state_data w) (data_after (reject_normalization k) w))
  /\ (forall k, steady (state_data w) (data_after (set_current_slot k) w))
  /\ (forall k, steady (state_data w) (data_after (increment_retry k) w)).
Proof.
  unfold steady.
  repeat apply conj; intros; munfold; mcases; cbn;
    (split; [done|]); (split; [done|]); intros ? ? Hl Hc; eauto.
  all: repeat (rewrite lookup_alter || rewrite lookup_insert);
    repeat case_decide; simplify_eq; rewrite ?Hl; cbn; eauto;
    congruence.
Qed.

Lemma ready_means_confirmed_methods :
  (forall k v, preserves ready_means_confirmed (fill_slot k v false))
  /\ (forall k, preserves ready_means_confirmed (confirm_slot k))
  /\ (forall k, preserves ready_means_confirmed (reject_normalization k))
  /\ (forall k, preserves ready_means_confirmed (set_current_slot k))
  /\ (forall k, preserves ready_means_confirmed (increment_retry k))
  /\ preserves ready_means_confirmed advance_state
  /\ (forall i, preserves ready_means_confirmed (set_active_intent i))
  /\ preserves ready_means_confirmed set_general_chat.
Proof.
  repeat apply conj; intros; intros w H;
    try (eapply steady_ready; [apply steady_methods | exact H]).
  - unfold ready_means_confirmed in *. munfold. mcases; cbn; try done;
      try match goal with
          | E : current_state _ = _ |- _ => rewrite ?E
          end;
      try exact H; try (intros [?|?]; discriminate).
    all: intros _; do 2 eexists; split; [eassumption|]; split;
      [eassumption|]; assumption.
  - unfold ready_means_confirmed in *. munfold. mcases; cbn; try done;
      intros [?|?]; discriminate.
  - unfold ready_means_confirmed in *. munfold. mcases; cbn.
    intros [?|?]; discriminate.
Qed.

Lemma execute_action_after w :
  after execute_action w = w
  \/ after execute_action w = after start_action_execution w.
Proof.
  unfold execute_action, check_all_slots_filled, start_action_execution.
  mcases; auto.
Qed.

Lemma complete_action_phase w :
  current_state (data_after complete_action w) = COLLECTING_SLOT
  \/ current_state (data_after complete_action w) = INIT.
Proof. munfold. mcases; cbn; auto; discriminate. Qed.

Lemma dm_reachable_reachable w : dm_reachable w -> reachable w.
Proof.
  induction 1 as [| self u w _ IH | s v w _ IH | w _ IH | w _ IH
                 | w0 w _ IH0 _ IH].
  - apply reach_init.
  - by apply reach_turn.
  - by apply reach_propose.
  - destruct (execute_action_after w) as [-> | ->]; [done|].
    change (after start_action_execution w)
      with (after (perform call_start_action_execution) w).
    by apply reach_call.
  - change (after complete_action w)
      with (after (perform call_complete_action) w).
    by apply reach_call.
  - by apply reach_restore.
Qed.

Lemma dm_reachable_ready w :
  dm_reachable w -> ready_means_confirmed (state_data w).
Proof.
  induction 1 as [| self u w _ IH | s v w _ IH | w _ IH | w _ IH
                 | w0 w Hw0 IH0 _ IH].
  - intros [?|?]; discriminate.
  - destruct ready_means_confirmed_methods
      as (Q1 & Q2 & Q3 & Q4 & Q5 & Q6 & Q7 & Q8).
    by apply (turn_process_user_input _ Q1 Q2 Q3 Q4 Q5 Q6 Q7 Q8).
  - destruct (propose_normalization_effect s v w) as (w' & E & Hst & _).
    unfold after. rewrite E. cbn [snd]. unfold ready_means_confirmed.
    rewrite Hst. intros [?|?]; discriminate.
  - destruct (execute_action_after w) as [-> | ->]; [done|].
    revert IH. unfold ready_means_confirmed, start_action_execution.
    mrun. case_bool_decide as Hst; mrun; [|done].
    intros IH _. apply IH. auto.
  - unfold ready_means_confirmed. fold (data_after complete_action w).
    destruct (complete_action_phase w) as [-> | ->]; intros [?|?];
      discriminate.
  - unfold after.
    rewrite snapshot_round_trip
      by (by apply reachable_pending_ok, dm_reachable_reachable).
    exact IH0.
Qed.

(** X22, the action runs on confirmed slots only.  In every world a
    conversation reaches through the dialogue manager (turns, proposed
    normalizations, executions, completions and restores of its own
    snapshots), the phases [READY_TO_EXECUTE] and [EXECUTING_ACTION]
    occur only with an active registered task whose schema slots all
    have a confirmed value, so that no slot is missing. *)
Theorem action_runs_on_confirmed_slots (w : World) :
  dm_reachable w ->
  current_state (state_data w) = READY_TO_EXECUTE
  \/ current_state (state_data w) = EXECUTING_ACTION ->
  exists t names,
    active_intent (state_data w) = Some t
    /\ get_slot_names t = Ok names
    /\ (forall s, In s names ->
          is_Some (filled_of (slot_values (state_data w)) !! s))
    /\ get_next_missing_slot t w = (Ok None, w).
Proof.
  intros Hw Hst.
  destruct (dm_reachable_ready w Hw Hst) as (t & names & Ha & Hn & Hall).
  exists t, names. split; [done|]. split; [done|].
  pose proof (proj1 (all_confirmed_spec _ _) Hall) as Hc. split.
  - intros s Hin. destruct (Hc s Hin) as (r & Hr & Hcf).
    exists (value r). apply filled_of_lookup. by exists r.
  - rewrite (get_next_missing_slot_eq _ _ _ Hn).
    destruct (List.find _ names) as [s|] eqn:Ef; [|done].
    apply find_some in Ef as [Hin Hs].
    destruct (Hc s Hin) as (r & Hr & _).
    apply negb_true_iff, has_key_false in Hs. congruence.
Qed.

Lemma dm_reachable_turns self us w :
  dm_reachable w -> dm_reachable (snd (turns self us w)).
Proof.
  revert w. induction us as [|u us IH]; intros w Hw; [done|].
  cbn [turns]. pose proof (dm_turn self u w Hw) as H1. unfold after in H1.
  destruct (process_user_input self u w) as [r w1]. cbn [snd] in H1.
  specialize (IH w1 H1). by destruct (turns self us w1).
Qed.

Lemma action_runs_on_confirmed_slots_witness :
  let w := snd (turns echo_manager
                  ["my laptop is broken"; "Ada"; "hardware";
                   "the screen stays black"; "high"; "laptop";
                   "ada@example.org"] fresh_world) in
  exists t names,
    active_intent (state_data w) = Some t
    /\ get_slot_names t = Ok names
    /\ (forall s, In s names ->
          is_Some (filled_of (slot_values (state_data w)) !! s)).
Proof.
  intros w.
  destruct (action_runs_on_confirmed_slots w) as (t & names & H1 & H2 & H3 & _).
  - apply dm_reachable_turns, dm_init.
  - left. vm_compute. reflexivity.
  - exists t, names. split; [exact H1|]. split; [exact H2 | exact H3].
Defined.


(** ** A turn returns *)

Lemma runs_ret P {A} (a : A) : runs P (ret a).
Proof. intros w H. by exists a, w. Qed.

Lemma runs_bind P {A B} (c : M A) (k : A -> M B) :
  runs P c -> (forall a, runs P (k a)) -> runs P (bind c k).
Proof.
  intros Hc Hk w H. destruct (Hc w H) as (a & w1 & E1 & H1).
  destruct (Hk a w1 H1) as (b & w2 & E2 & H2).
  exists b, w2. unfold bind. by rewrite E1.
Qed.

Lemma runs_read P {A B} (c : M A) f (k : A -> M B) :
  reads c f -> (forall d, P d -> runs P (k (f d))) -> runs P (bind c k).
Proof.
  intros Hc Hk w H. unfold bind. rewrite Hc. by apply Hk.
Qed.

Lemma runs_lift P {A B} (r : result A) (k : A -> M B) :
  (exists a, r = Ok a /\ runs P (k a)) -> runs P (bind (lift r) k).
Proof. intros (a & -> & Hk) w H. unfold bind, lift. by apply Hk. Qed.

Lemma runs_ret_bind P {A B} (a : A) (k : A -> M B) :
  runs P (k a) -> runs P (bind (ret a) k).
Proof. intros Hk w H. unfold bind, ret. by apply Hk. Qed.

Lemma yields_bind P {A B} (c : M A) (V : A -> Prop) (k : A -> M B) :
  yields P c V -> (forall a, V a -> runs P (k a)) -> runs P (bind c k).
Proof.
  intros Hc Hk w H. destruct (Hc w H) as (a & w1 & E1 & H1 & Va).
  destruct (Hk a Va w1 H1) as (b & w2 & E2 & H2).
  exists b, w2. unfold bind. by rewrite E1.
Qed.

Lemma runs_when P b c : runs P c -> runs P (when b c).
Proof. destruct b; [done|]. intros _. apply runs_ret. Qed.

Lemma reads_simple :
  reads get_active_intent active_intent
  /\ reads get_state current_state
  /\ reads get_data id
  /\ reads get_filled_slots (fun d => filled_of (slot_values d)).
Proof. repeat split. Qed.

Section TaskRuns.
Variables (a : option string) (names : list string).
Hypothesis a_registered :
  opt_truthy a = true -> get_slot_names (default "" a) = Ok names.

Lemma runs_records :
  (forall k v c, runs (task_inv a names) (fill_slot k v c))
  /\ (forall k, runs (task_inv a names) (confirm_slot k))
  /\ (forall k, runs (task_inv a names) (reject_normalization k))
  /\ (forall k, runs (task_inv a names) (increment_retry k)).
Proof.
  unfold task_inv.
  repeat apply conj; intros; intros w H; munfold; mcases;
    do 2 eexists; (split; [reflexivity|]); exact H.
Qed.

Lemma runs_set_current_slot o :
  known_slot a names o -> runs (task_inv a names) (set_current_slot o).
Proof.
  unfold task_inv, known_slot. intros Ho w (Ha & Hp & Hc).
  unfold set_current_slot. mrun. do 2 eexists. split; [reflexivity|].
  cbn. split; [done|]. split; [done|]. intros c -> Hc1 Ha1.
  by apply (Ho Hc1 Ha1).
Qed.

Lemma runs_advance_state : runs (task_inv a names) advance_state.
Proof.
  unfold task_inv, task_phase. intros w (Ha & Hp & Hc).
  unfold advance_state, check_all_slots_filled. mrun.
  destruct Hp as [Hp | [Hp | Hp]]; rewrite Hp, ?Ha; [| |by eauto 10].
  all: destruct a as [t|]; [|by eauto 10].
  all: destruct (PyStr.truthy t) eqn:Ht; [|by eauto 10].
  all: pose proof (a_registered Ht) as Hn; cbn in Hn.
  all: cbn [negb]; mrun; rewrite Hn.
  all: destruct (all_confirmed _ _); mrun;
    try destruct (pending_truthy _); mrun;
    do 2 eexists; (split; [reflexivity|]); cbn; eauto 10.
Qed.

Lemma reads_task :
  opt_truthy a = true ->
  reads (get_next_missing_slot (default "" a))
    (fun d => List.find (fun s => negb (has_key s (slot_values d))) names)
  /\ reads (check_all_slots_filled (default "" a))
       (fun d => all_confirmed (slot_values d) names)
  /\ forall s, In s names ->
       exists q, reads (question_of (default "" a) s) (fun _ => q).
Proof.
  intros Ha. pose proof (a_registered Ha) as Hn.
  assert (Ht := get_slot_names_truthy _ _ Hn).
  split; [|split].
  - intros w. by apply get_next_missing_slot_eq.
  - intros w. unfold check_all_slots_filled. rewrite Ht. cbn [negb]. mrun.
    by rewrite Hn.
  - intros s Hin.
    destruct (question_of_known _ _ s fresh_world Hn Hin) as [q Hq].
    exists q. intros w. by eapply question_of_frame.
Qed.

Lemma find_known (f : string -> bool) :
  known_slot a names (List.find f names).
Proof.
  intros Ho _. destruct (List.find f names) as [s|] eqn:E; [|done].
  by apply find_some in E as [? _].
Qed.

Lemma runs_start_slot_collection :
  runs (task_inv a names) _start_slot_collection.
Proof.
  unfold _start_slot_collection.
  eapply runs_read; [apply reads_simple|]. intros d (Ha & _).
  rewrite Ha. case_eq (opt_truthy a); intros Hta; cbn [negb];
    [|apply runs_ret].
  destruct (reads_task Hta) as (Rn & _ & Rq).
  eapply runs_read; [apply Rn|]. intros d1 _. cbn beta.
  pose proof (find_known (fun s => negb (has_key s (slot_values d1)))) as Hk.
  destruct (opt_truthy (List.find _ names)) eqn:Ho; cbn [negb].
  - apply runs_bind; [by apply runs_set_current_slot | intros _].
    destruct (Rq _ (Hk Ho Hta)) as [q Hq].
    eapply runs_read; [apply Hq|]. intros. apply runs_ret.
  - apply runs_bind; [apply runs_advance_state | intros _]. apply runs_ret.
Qed.

Lemma runs_advance_and_continue :
  opt_truthy a = true ->
  runs (task_inv a names) (advance_and_continue (default "" a)).
Proof.
  intros Hta. unfold advance_and_continue.
  apply runs_bind; [apply runs_advance_state | intros _].
  destruct (reads_task Hta) as (_ & Rc & _).
  eapply runs_read; [apply Rc|]. intros d _. cbn beta.
  destruct (all_confirmed _ _); [apply runs_ret|].
  apply runs_start_slot_collection.
Qed.

Lemma runs_fill_and_confirm k v :
  runs (task_inv a names) (fill_and_confirm k v).
Proof.
  unfold fill_and_confirm. destruct runs_records as (R1 & R2 & _).
  apply runs_bind; [apply R1 | intros _].
  apply runs_bind; [apply R2 | intros _]. apply runs_ret.
Qed.

Lemma runs_retry_current_slot cur :
  opt_truthy a = true -> In cur names ->
  runs (task_inv a names) (retry_current_slot (default "" a) cur).
Proof.
  intros Hta Hin. unfold retry_current_slot, process_slot_collection.
  cbn [opt_truthy negb]. destruct runs_records as (_ & _ & _ & R4).
  destruct (reads_task Hta) as (Rn & _ & Rq).
  apply runs_bind.
  { apply runs_bind; [apply R4 | intros b]. destruct b; apply runs_ret. }
  intros [s|s|s v].
  - destruct (Rq _ Hin) as [q Hq].
    eapply runs_read; [apply Hq|]. intros. apply runs_ret.
  - apply runs_bind; [by apply runs_set_current_slot | intros _].
    eapply runs_read; [apply Rn|]. intros d _. cbn beta.
    destruct (opt_truthy (List.find _ names));
      [apply runs_start_slot_collection|].
    apply runs_ret.
  - destruct (Rq _ Hin) as [q Hq].
    eapply runs_read; [apply Hq|]. intros. apply runs_ret.
Qed.

Lemma runs_fill_extracted items :
  runs (task_inv a names) (fill_extracted items).
Proof.
  induction items as [|[s v] items IH]; cbn [fill_extracted];
    [apply runs_ret|].
  apply runs_bind; [apply runs_fill_and_confirm | by intros _].
Qed.

Lemma runs_for_each keys f :
  (forall k, runs (task_inv a names) (f k)) ->
  runs (task_inv a names) (for_each keys f).
Proof.
  intros Hf. induction keys as [|k keys IH]; cbn [for_each];
    [apply runs_ret|].
  apply runs_bind; [apply Hf | by intros _].
Qed.

Lemma runs_handle_normalization_confirmation u :
  runs (task_inv a names) (_handle_normalization_confirmation u).
Proof.
  unfold _handle_normalization_confirmation.
  destruct runs_records as (_ & R2 & R3 & _).
  destruct (PyStr.mem _ affirmative); [|destruct (PyStr.mem _ negative)].
  - eapply runs_read; [apply reads_simple|]. intros d _. cbn [id].
    apply runs_bind; [|intros _].
    { apply runs_when, runs_for_each. intros k.
      apply runs_bind; [apply R2 | intros _; apply runs_ret]. }
    apply runs_bind; [apply runs_advance_state | intros _].
    apply runs_start_slot_collection.
  - eapply runs_read; [apply reads_simple|]. intros d _. cbn [id].
    apply runs_bind; [|intros _].
    { apply runs_when, runs_for_each. apply R3. }
    apply runs_bind; [apply runs_advance_state | intros _].
    apply runs_start_slot_collection.
  - eapply runs_read; [apply reads_simple|]. intros d _. cbn [id].
    destruct (pending_normalization d) as [[|[s v] p]|]; apply runs_ret.
Qed.

Section Manager.
Variable self : DialogueManager.
Hypothesis self_good : good_manager self.

Lemma runs_extract_selected u t filled sel acc :
  runs (task_inv a names) (extract_selected self u t filled sel acc).
Proof.
  revert acc. induction sel as [|s sel IH]; intros acc;
    cbn [extract_selected]; [apply runs_ret|].
  destruct (negb (has_key s filled)); [|apply IH].
  apply runs_lift. destruct self_good as (_ & _ & He).
  destruct (He u s t) as [o Ho]. exists o. split; [done|]. apply IH.
Qed.

Lemma runs_handle_slot_collection u :
  runs (task_inv a names) (_handle_slot_collection self u).
Proof.
  destruct self_good as (_ & Hsel & Hext).
  unfold _handle_slot_collection.
  eapply runs_read; [apply reads_simple|]. intros d (Ha & _).
  rewrite Ha. case_eq (opt_truthy a); intros Hta; cbn [negb];
    [|apply runs_ret].
  destruct (reads_task Hta) as (Rn & _ & _).
  eapply runs_read; [apply reads_simple|]. intros d0 (_ & _ & Hcur).
  cbn [id].
  apply yields_bind with (V := known_slot a names).
  { destruct (opt_truthy (current_slot_being_collected d0)) eqn:Hc0;
      cbn [negb].
    - intros w Hw. exists (current_slot_being_collected d0), w.
      split; [done|]. split; [done|]. intros _ Hta'.
      destruct (current_slot_being_collected d0) as [c|]; [|done].
      by apply Hcur.
    - intros w Hw. unfold bind at 1 2. rewrite Rn.
      match goal with |- context [set_current_slot ?o] =>
        destruct (runs_set_current_slot o (find_known _) w Hw)
          as ([] & w' & E & Hw')
      end.
      rewrite E. do 2 eexists. split; [reflexivity|]. split; [done|].
      apply find_known. }
  intros cs Hcs.
  assert (Hretry : opt_truthy cs = true ->
            runs (task_inv a names)
              (retry_current_slot (default "" a) (default "" cs))).
  { intros Hc. apply runs_retry_current_slot; [done|]. by apply Hcs. }
  assert (Hfill : forall v,
            runs (task_inv a names)
              (fill_and_confirm (default "" cs) v;;;
               advance_and_continue (default "" a))).
  { intros v. apply runs_bind; [apply runs_fill_and_confirm | intros _].
    by apply runs_advance_and_continue. }
  eapply runs_read; [apply reads_simple|]. intros d1 _. cbn beta.
  apply runs_lift.
  destruct (Hsel u (default "" a) (filled_of (slot_values d1))) as [sel Hs].
  exists sel. split; [done|].
  destruct (negb (list_truthy sel) && opt_truthy cs) eqn:Hd.
  - apply andb_true_iff in Hd as [_ Hc]. apply runs_lift.
    destruct (Hext u (default "" cs) (default "" a)) as [o Ho].
    exists o. split; [done|]. destruct (opt_truthy o); [apply Hfill|].
    by apply Hretry.
  - apply runs_ret_bind. cbn [opt_truthy].
    apply runs_bind; [apply runs_extract_selected | intros ev].
    destruct (list_truthy ev).
    { apply runs_bind; [apply runs_fill_extracted | intros _].
      by apply runs_advance_and_continue. }
    destruct (opt_truthy cs && negb (PyStr.mem (default "" cs) sel)).
    + apply runs_lift.
      destruct (Hext u (default "" cs) (default "" a)) as [o Ho].
      exists o. split; [done|]. destruct (opt_truthy o); [apply Hfill|].
      destruct (opt_truthy cs) eqn:Hc; [by apply Hretry | apply runs_ret].
    + apply runs_ret_bind. cbn [opt_truthy].
      destruct (opt_truthy cs) eqn:Hc; [by apply Hretry | apply runs_ret].
Qed.

Lemma runs_ready_to_execute_turn u :
  runs (task_inv a names) (ready_to_execute_turn self u).
Proof.
  unfold ready_to_execute_turn.
  destruct (_is_execution_confirmation u);
    [|apply runs_handle_slot_collection].
  eapply runs_read; [apply reads_simple|]. intros d _.
  eapply runs_read; [apply reads_simple|]. intros d' _. apply runs_ret.
Qed.
End Manager.
End TaskRuns.

Lemma safe_task_inv d :
  safe d -> task_phase (current_state d) ->
  exists names,
    (opt_truthy (active_intent d) = true ->
     get_slot_names (default "" (active_intent d)) = Ok names)
    /\ task_inv (active_intent d) names d.
Proof.
  intros Hs Hp. unfold safe, task_inv in *.
  destruct (opt_truthy (active_intent d)) eqn:Ha.
  - destruct (Hs eq_refl) as (names & Hn & Hc). exists names.
    split; [done|]. split; [done|]. split; [done|]. intros c ? ? _.
    by apply Hc.
  - exists []. split; [done|]. split; [done|]. split; [done|]. done.
Qed.

Lemma task_inv_safe a names d :
  (opt_truthy a = true -> get_slot_names (default "" a) = Ok names) ->
  task_inv a names d -> safe d.
Proof.
  intros Hn (Ha & _ & Hc). unfold safe. rewrite Ha. intros Hta.
  exists names. split; [by apply Hn|]. intros c ? ?. by apply Hc.
Qed.

Lemma turn_runs (self : DialogueManager) (u : string) :
  good_manager self -> runs safe (process_user_input self u).
Proof.
  intros Hgood w Hsafe.
  assert (Htask : task_phase (current_state (state_data w)) ->
            forall c : M TurnResult,
              (forall a names,
                 (opt_truthy a = true ->
                  get_slot_names (default "" a) = Ok names) ->
                 runs (task_inv a names) c) ->
              exists r w', c w = (Ok r, w') /\ safe (state_data w')).
  { intros Hp c Hc. destruct (safe_task_inv _ Hsafe Hp) as (names & Hn & Hi).
    destruct (Hc _ _ Hn w Hi) as (r & w' & E & Hi').
    exists r, w'. split; [done|]. by eapply task_inv_safe. }
  unfold process_user_input.
  destruct (_ || _); [by do 2 eexists|].
  unfold bind at 1. unfold get_state, bind at 1, get_data, ret.
  destruct (current_state (state_data w)) eqn:Hst.
  - (* INIT *)
    destruct Hgood as (Hd & _). destruct (Hd u) as (o & Ho & Hreg).
    unfold bind at 1, lift. rewrite Ho.
    destruct (opt_truthy o) eqn:Hto.
    + destruct (Hreg eq_refl) as [names Hn].
      destruct (set_active_intent_idle (default "" o) w) as (w1 & E1 & D1);
        [by rewrite Hst|].
      unfold bind at 1. rewrite E1. cbn [negb].
      assert (Hto' : opt_truthy (Some (default "" o)) = true).
      { destruct o; [exact Hto | discriminate]. }
      destruct (runs_start_slot_collection (Some (default "" o)) names
                  (fun _ => Hn) w1) as (r & w' & E & Hi).
      { rewrite D1. unfold task_inv, task_phase. cbn.
        split; [done|]. split; [by left|]. intros c [=]. }
      exists r, w'. split; [done|].
      eapply task_inv_safe; [|exact Hi]. by intros _.
    + unfold set_general_chat. mrun. do 2 eexists. split; [reflexivity|].
      unfold safe. cbn. done.
  - apply Htask; [unfold task_phase; auto|]. intros a names Hn.
    by apply runs_handle_slot_collection.
  - apply Htask; [unfold task_phase; auto|]. intros a names Hn.
    by apply runs_handle_normalization_confirmation.
  - apply Htask; [unfold task_phase; auto|]. intros a names Hn.
    by apply runs_ready_to_execute_turn.
  - by do 2 eexists.
  - by do 2 eexists.
  - (* GENERAL_CHAT *)
    destruct Hgood as (Hd & _). destruct (Hd u) as (o & Ho & Hreg).
    unfold bind at 1, lift. rewrite Ho.
    destruct (opt_truthy o) eqn:Hto.
    + destruct (Hreg eq_refl) as [names Hn].
      destruct (set_active_intent_idle (default "" o) w) as (w1 & E1 & D1);
        [by rewrite Hst|].
      unfold bind at 1. rewrite E1. cbn [negb].
      destruct (runs_start_slot_collection (Some (default "" o)) names
                  (fun _ => Hn) w1) as (r & w' & E & Hi).
      { rewrite D1. unfold task_inv, task_phase. cbn.
        split; [done|]. split; [by left|]. intros c [=]. }
      exists r, w'. split; [done|].
      eapply task_inv_safe; [|exact Hi]. by intros _.
    + mrun. do 2 eexists. split; [reflexivity|]. done.
  - by do 2 eexists.
Qed.

(** X23, a conversation never raises.  With collaborators that do
    not raise and a router that detects registered tasks only, and
    from a state whose active task, if any, is registered and whose
    current slot, if any, belongs to its schema, every turn of a
    conversation of any length returns a result, one for each
    utterance, and the state is such a state again. *)
Theorem conversation_never_raises (self : DialogueManager)
    (us : list string) (w : World) :
  good_manager self -> safe (state_data w) ->
  Forall (fun r => exists t, r = Ok t) (fst (turns self us w))
  /\ length (fst (turns self us w)) = length us
  /\ safe (state_data (snd (turns self us w))).
Proof.
  intros Hgood. revert w. induction us as [|u us IH]; intros w Hsafe.
  - cbn. split; [constructor|]. done.
  - cbn [turns].
    destruct (turn_runs self u Hgood w Hsafe) as (r & w1 & E & H1).
    rewrite E. destruct (IH w1 H1) as (IH1 & IH2 & IH3).
    destruct (turns self us w1) as [rs w2]. cbn [fst snd] in *.
    split; [constructor; [by exists r | done]|].
    split; [cbn; by rewrite IH2|].
    done.
Qed.

Lemma conversation_never_raises_witness :
  Forall (fun r => exists t, r = Ok t)
    (fst (turns deaf_manager ["I need time off"; "maybe 123"; "yes"; "  "]
            fresh_world)).
Proof.
  destruct (conversation_never_raises deaf_manager
              ["I need time off"; "maybe 123"; "yes"; "  "] fresh_world)
    as (H & _).
  - split; [|split]; intros.
    + exists (Some "request_time_off"). split; [reflexivity|]. intros _.
      eexists. reflexivity.
    + exists []. reflexivity.
    + exists None. reflexivity.
  - intros H. discriminate H.
  - exact H.
Defined.

(** ** Reporting the conversation state *)

(** X24, [get_conversation_state].  For an active registered task it
    returns, without changing anything, a report that names the phase,
    the active task, the queue and the current slot, and whose missing
    slots are schema slots in schema order.  Every slot of the schema
    is reported in exactly one of three ways: as missing when it has no
    record, as filled with its value when its record is confirmed, and
    as neither when its record is not confirmed. *)
Theorem conversation_state_report (t : string) (names : list string)
    (w : World) :
  active_intent (state_data w) = Some t ->
  get_slot_names t = Ok names ->
  exists cs,
    get_conversation_state w = (Ok cs, w)
    /\ FSMState_of_value (cs_state cs) = Ok (current_state (state_data w))
    /\ cs_active_intent cs = Some t
    /\ cs_queued_intents cs = queued_intents (state_data w)
    /\ cs_current_slot cs = current_slot_being_collected (state_data w)
    /\ sublist (cs_missing_slots cs) names
    /\ forall s, In s names ->
         match slot_values (state_data w) !! s with
         | None => In s (cs_missing_slots cs) /\ cs_filled_slots cs !! s = None
         | Some r =>
             ~ In s (cs_missing_slots cs)
             /\ cs_filled_slots cs !! s
                = (if confirmed r then Some (value r) else None)
         end.
Proof.
  intros Ha Hn. assert (Ht := get_slot_names_truthy _ _ Hn).
  unfold get_conversation_state, get_missing_slots. mrun. rewrite Ha.
  cbn [opt_truthy from_option id]. rewrite Ht. cbv iota. rewrite Ht.
  cbn [negb]. mrun. rewrite Hn. eexists. split; [reflexivity|].
  cbn [cs_state cs_active_intent cs_queued_intents cs_filled_slots
       cs_missing_slots cs_current_slot].
  split; [apply FSMState_of_value_value|]. split; [done|]. split; [done|].
  split; [done|]. split; [apply sublist_filter|].
  intros s Hin. unfold filled_of. rewrite lookup_omap.
  destruct (slot_values (state_data w) !! s) as [r|] eqn:E; cbn;
    rewrite filter_In, negb_true_iff.
  - split; [|done]. intros [_ Hk]. apply has_key_false in Hk. congruence.
  - split; [|done]. split; [done|]. by apply has_key_false.
Qed.

Lemma conversation_state_report_witness :
  exists cs,
    get_conversation_state unconfirmed_world = (Ok cs, unconfirmed_world)
    /\ ~ In "employee_name" (cs_missing_slots cs)
    /\ cs_filled_slots cs !! "employee_name" = None.
Proof.
  destruct (conversation_state_report "request_time_off"
              ["employee_name"; "start_date"; "end_date"; "time_off_type";
               "reason"; "notify_manager"] unconfirmed_world eq_refl eq_refl)
    as (cs & H1 & _ & _ & _ & _ & _ & H7).
  exists cs. split; [exact H1|].
  exact (H7 "employee_name" (or_introl eq_refl)).
Defined.
